(** * SMLBackend: the deployment service (services/deploymentService.js)

    A shallow embedding of [DeploymentService] and of the pieces of the
    routes that guard its inputs.  The service drives one SSH session
    (node-ssh) through a fixed pipeline: connect, backup, source
    acquisition, per-type build commands, custom commands, dispose.

    JavaScript strings are modelled by [string]; a character stands for
    one code unit below 256.  The session primitives are calls into an
    environment that owns the remote world: each call is recorded as an
    event, and either resolves or rejects. *)

From Stdlib Require Import String Ascii List Bool ZArith Lia Arith.
From Stdlib Require Import Sorting.Sorted Sorting.Permutation.
Import ListNotations.
Open Scope string_scope.

Set Implicit Arguments.

(** ** JavaScript string built-ins used by the service *)
Module Js.

(** White space in the sense of [String.prototype.trim], restricted to
    code units below 256: TAB, LF, VT, FF, CR, SP and NBSP. *)
Definition is_ws (c : ascii) : bool :=
  let n := nat_of_ascii c in
  (((9 <=? n) && (n <=? 13)) || (n =? 32) || (n =? 160))%nat.

Fixpoint trimStart (s : string) : string :=
  match s with
  | EmptyString => EmptyString
  | String c rest => if is_ws c then trimStart rest else s
  end.

Fixpoint rev_string (s acc : string) : string :=
  match s with
  | EmptyString => acc
  | String c rest => rev_string rest (String c acc)
  end.

Definition trimEnd (s : string) : string :=
  rev_string (trimStart (rev_string s "")) "".

Definition trim (s : string) : string := trimEnd (trimStart s).

(** [s.split(sep)] for a one-character separator. *)
Fixpoint split (sep : ascii) (s : string) : list string :=
  match s with
  | EmptyString => [EmptyString]
  | String c rest =>
      if Ascii.eqb c sep then EmptyString :: split sep rest
      else match split sep rest with
           | [] => [String c EmptyString]
           | w :: ws => String c w :: ws
           end
  end.

(** Nothing but white space (the empty string included). *)
Fixpoint all_ws (s : string) : bool :=
  match s with
  | EmptyString => true
  | String c rest => is_ws c && all_ws rest
  end.

(** Truthiness of a nullable string: [null] and [''] are falsy. *)
Definition truthy (v : option string) : bool :=
  match v with
  | None => false
  | Some s => negb (s =? "")
  end.

(** Truthiness of a string value (the callback of [filter]). *)
Definition truthy_str (s : string) : bool := negb (s =? "").

(** A nullable value spliced into a template literal. *)
Definition show (v : option string) : string :=
  match v with
  | None => "null"
  | Some s => s
  end.

Definition lower_char (c : ascii) : ascii :=
  let n := nat_of_ascii c in
  if (((65 <=? n) && (n <=? 90))
      || ((192 <=? n) && (n <=? 222) && negb (n =? 215)))%nat
  then ascii_of_nat (n + 32) else c.

Fixpoint toLowerCase (s : string) : string :=
  match s with
  | EmptyString => EmptyString
  | String c rest => String (lower_char c) (toLowerCase rest)
  end.

(** [s.replace(/[:.]/g, '-')]. *)
Fixpoint replace_colon_dot (s : string) : string :=
  match s with
  | EmptyString => EmptyString
  | String c rest =>
      String (if Ascii.eqb c ":" || Ascii.eqb c "." then "-"%char else c)
             (replace_colon_dot rest)
  end.

End Js.

(** ** Node's POSIX [path] module, as far as the service uses it *)
Module Path.

Definition slash : ascii := "/"%char.

(** Resolution of [.] and [..] segments ([normalizeString]); [acc] is
    the stack of kept segments, innermost first. *)
Fixpoint norm_segments (allowAboveRoot : bool) (segs acc : list string)
  : list string :=
  match segs with
  | [] => rev acc
  | s :: rest =>
      if (s =? "") || (s =? ".") then norm_segments allowAboveRoot rest acc
      else if s =? ".." then
        match acc with
        | top :: acc' =>
            if top =? ".."
            then norm_segments allowAboveRoot rest (s :: acc)
            else norm_segments allowAboveRoot rest acc'
        | [] =>
            if allowAboveRoot
            then norm_segments allowAboveRoot rest [s]
            else norm_segments allowAboveRoot rest []
        end
      else norm_segments allowAboveRoot rest (s :: acc)
  end.

Definition starts_with_slash (p : string) : bool :=
  match p with
  | String c _ => Ascii.eqb c slash
  | EmptyString => false
  end.

Fixpoint ends_with_slash (p : string) : bool :=
  match p with
  | EmptyString => false
  | String c EmptyString => Ascii.eqb c slash
  | String _ rest => ends_with_slash rest
  end.

Definition normalize (p : string) : string :=
  if p =? "" then "."
  else
    let isAbsolute := starts_with_slash p in
    let trailing := ends_with_slash p in
    let body :=
      String.concat "/" (norm_segments (negb isAbsolute) (Js.split slash p) []) in
    if body =? "" then
      (if isAbsolute then "/" else if trailing then "./" else ".")
    else
      (if isAbsolute then "/" else "") ++ body ++ (if trailing then "/" else "").

(** [path.join(a, b)]: empty arguments are skipped. *)
Definition join (a b : string) : string :=
  if a =? "" then (if b =? "" then "." else normalize b)
  else if b =? "" then normalize a
  else normalize (a ++ "/" ++ b).

Fixpoint last_nonempty (segs : list string) (found : string) : string :=
  match segs with
  | [] => found
  | s :: rest => last_nonempty rest (if s =? "" then found else s)
  end.

(** [path.basename(p)]: the last portion, trailing slashes ignored. *)
Definition basename (p : string) : string :=
  last_nonempty (Js.split slash p) "".

(** The suffix of [s] that starts at its last dot, with the position of
    that dot. *)
Fixpoint last_dot (s : string) (pos : nat) : option (nat * string) :=
  match s with
  | EmptyString => None
  | String c rest =>
      match last_dot rest (S pos) with
      | Some r => Some r
      | None => if Ascii.eqb c "." then Some (pos, s) else None
      end
  end.

(** [path.extname(p)]: from the last dot of the last portion; empty when
    there is no dot, when the only dot leads the portion, and for [..]. *)
Definition extname (p : string) : string :=
  let base := basename p in
  if base =? ".." then ""
  else match last_dot base 0 with
       | Some (S _, ext) => ext
       | _ => ""
       end.

End Path.

(** ** Data model (models/Server.js, models/Project.js) *)

(** The columns of a [Server] row that the service reads. *)
Record Server := {
  ip_address : string;
  ssh_port : Z;
  ssh_username : string;
  ssh_password : option string;
  ssh_private_key : option string
}.

(** The columns of a [Project] row that the service reads, with the
    included [server] association. *)
Record Project := {
  name : string;
  project_type : string;
  source_type : string;
  source_url : option string;
  source_path : option string;
  deploy_path : string;
  custom_commands : option string;
  server : Server
}.

(** The same row with another [custom_commands] field. *)
Definition with_commands (project : Project) (text : option string) : Project :=
  {| name := name project; project_type := project_type project;
     source_type := source_type project; source_url := source_url project;
     source_path := source_path project; deploy_path := deploy_path project;
     custom_commands := text; server := server project |}.

(** The object handed to [ssh.connect]. *)
Record Config := {
  host : string;
  port : Z;
  username : string;
  password : option string;
  privateKey : option string
}.

(** What [ssh.execCommand] resolves to; [code] is [null] when the remote
    process was killed by a signal. *)
Record ExecResult := {
  code : option Z;
  stdout : string;
  stderr : string
}.

(** Thrown values, tagged by who threw them. *)
Inductive JsError :=
| Error (message : string)
| TypeError (message : string)
| SessionFailure (message : string).

(** Outcome of an awaited promise. *)
Inductive Outcome (A : Type) :=
| Resolved (a : A)
| Rejected (e : JsError).
Arguments Resolved {A} a.
Arguments Rejected {A} e.

(** Observable actions of a run, in the order they happen. *)
Inductive Event :=
| Connect (config : Config)
| ExecCommand (command : string) (cwd : option string)
| PutFile (localFile remoteFile : string)
| Dispose
| ConsoleLog (text : string)
| ConsoleError (text : string) (cause : option JsError).

(** The world outside the service: the node-ssh session with the remote
    host behind it, and the clock.  A primitive that fails gives the
    message of the rejection; [ssh.dispose] is synchronous and returns. *)
Record Env (W : Type) := {
  ssh_connect : Config -> W -> W * option string;
  ssh_execCommand : string -> option string -> W -> W * (ExecResult + string);
  ssh_putFile : string -> string -> W -> W * option string;
  ssh_dispose : W -> W;
  date_toISOString : W -> string
}.

(** ** Computations: world passing, event log, promise outcome *)
Definition M (W A : Type) : Type := W -> W * list Event * Outcome A.

Definition ret {W A} (a : A) : M W A := fun w => (w, [], Resolved a).

Definition throw {W A} (e : JsError) : M W A := fun w => (w, [], Rejected e).

Definition bind {W A B} (m : M W A) (f : A -> M W B) : M W B :=
  fun w =>
    match m w with
    | (w1, ev1, Resolved a) =>
        match f a w1 with
        | (w2, ev2, r) => (w2, (ev1 ++ ev2)%list, r)
        end
    | (w1, ev1, Rejected e) => (w1, ev1, Rejected e)
    end.

(** [try { m } catch (error) { handler error }]. *)
Definition try_catch {W A} (m : M W A) (handler : JsError -> M W A) : M W A :=
  fun w =>
    match m w with
    | (w1, ev1, Resolved a) => (w1, ev1, Resolved a)
    | (w1, ev1, Rejected e) =>
        match handler e w1 with
        | (w2, ev2, r) => (w2, (ev1 ++ ev2)%list, r)
        end
    end.

Declare Scope js_scope.
Delimit Scope js_scope with js.
Notation "x <- m ;; k" := (bind m (fun x => k))
  (at level 100, m at next level, right associativity) : js_scope.
Notation "m ;; k" := (bind m (fun _ => k))
  (at level 100, right associativity) : js_scope.

Definition world {W A} (r : W * list Event * Outcome A) : W := fst (fst r).
Definition events {W A} (r : W * list Event * Outcome A) : list Event := snd (fst r).
Definition outcome {W A} (r : W * list Event * Outcome A) : Outcome A := snd r.

(** The session calls among a list of events. *)
Definition is_exec (e : Event) : bool :=
  match e with ExecCommand _ _ => true | _ => false end.
Definition is_dispose (e : Event) : bool :=
  match e with Dispose => true | _ => false end.
Definition is_session (e : Event) : bool :=
  match e with
  | Connect _ | ExecCommand _ _ | PutFile _ _ | Dispose => true
  | _ => false
  end.

(** How many times the session was released. *)
Definition dispose_count (evs : list Event) : nat :=
  List.length (filter is_dispose evs).

(** The session calls of a run, console output left out. *)
Definition session_calls (evs : list Event) : list Event :=
  filter is_session evs.

(** The remote commands of a run. *)
Definition commands_run (evs : list Event) : list Event :=
  filter is_exec evs.

(** An event other than the release of the session. *)
Definition kept (e : Event) : Prop := is_dispose e = false.

(** Environments whose calls come back: every command returns a result
    (of any exit status), every connection attempt is accepted. *)
Definition exec_returns {W} (env : Env W) : Prop :=
  forall command cwd w, exists w' r,
    ssh_execCommand env command cwd w = (w', inl r).

Definition connect_returns {W} (env : Env W) : Prop :=
  forall config w, exists w', ssh_connect env config w = (w', None).

(** A computation that resolves from every world, with a value in [Q]. *)
Definition resolves {W A} (Q : A -> Prop) (m : M W A) : Prop :=
  forall w, exists w' evs a, m w = (w', evs, Resolved a) /\ Q a.

(** A computation whose rejections all satisfy [P]. *)
Definition throws_only {W A} (P : JsError -> Prop) (m : M W A) : Prop :=
  forall w e, outcome (m w) = Rejected e -> P e.

Definition from_session (e : JsError) : Prop :=
  exists msg, e = SessionFailure msg.

(** Two computations that differ at most in what they print. *)
Definition same_session {W A} (m1 m2 : M W A) : Prop :=
  forall w,
    world (m1 w) = world (m2 w)
    /\ outcome (m1 w) = outcome (m2 w)
    /\ session_calls (events (m1 w)) = session_calls (events (m2 w)).

(** Every event a computation emits satisfies [P], from any world. *)
Definition emits {W A} (P : Event -> Prop) (m : M W A) : Prop :=
  forall w, Forall P (events (m w)).

Definition dq : string := String "034"%char EmptyString.
Definition newline : ascii := "010"%char.

(** ** The deployment service *)
Section DeploymentService.

Context {W : Type} (env : Env W).
Local Open Scope js_scope.

(** *** Primitives *)
Definition console_log (text : string) : M W unit :=
  fun w => (w, [ConsoleLog text], Resolved tt).

Definition console_error (text : string) (cause : option JsError) : M W unit :=
  fun w => (w, [ConsoleError text cause], Resolved tt).

Definition connect (config : Config) : M W unit :=
  fun w =>
    match ssh_connect env config w with
    | (w', None) => (w', [Connect config], Resolved tt)
    | (w', Some msg) => (w', [Connect config], Rejected (SessionFailure msg))
    end.

Definition execCommand (command : string) (cwd : option string) : M W ExecResult :=
  fun w =>
    match ssh_execCommand env command cwd w with
    | (w', inl r) => (w', [ExecCommand command cwd], Resolved r)
    | (w', inr msg) => (w', [ExecCommand command cwd], Rejected (SessionFailure msg))
    end.

Definition putFile (localFile remoteFile : string) : M W unit :=
  fun w =>
    match ssh_putFile env localFile remoteFile w with
    | (w', None) => (w', [PutFile localFile remoteFile], Resolved tt)
    | (w', Some msg) =>
        (w', [PutFile localFile remoteFile], Rejected (SessionFailure msg))
    end.

Definition dispose : M W unit :=
  fun w => (ssh_dispose env w, [Dispose], Resolved tt).

Definition now_iso : M W string :=
  fun w => (w, [], Resolved (date_toISOString env w)).

(** [result.code === 0] and [result.code !== 0] *)
Definition code_zero (r : ExecResult) : bool :=
  match code r with
  | Some 0%Z => true
  | _ => false
  end.

Definition code_nonzero (r : ExecResult) : bool := negb (code_zero r).

(** [path.join(project.deploy_path, project.name)] *)
Definition projectPath (project : Project) : string :=
  Path.join (deploy_path project) (name project).

Definition probe_command (project : Project) : string :=
  "test -d " ++ projectPath project ++ " && echo " ++ dq ++ "exists" ++ dq
    ++ " || echo " ++ dq ++ "not found" ++ dq.

(** *** connectSSH *)
Definition connect_config (server : Server) : Config :=
  let config := {| host := ip_address server;
                   port := ssh_port server;
                   username := ssh_username server;
                   password := None;
                   privateKey := None |} in
  if Js.truthy (ssh_password server) then
    {| host := host config; port := port config; username := username config;
       password := ssh_password server; privateKey := privateKey config |}
  else if Js.truthy (ssh_private_key server) then
    {| host := host config; port := port config; username := username config;
       password := password config; privateKey := ssh_private_key server |}
  else config.

Definition connectSSH (server : Server) : M W unit :=
  connect (connect_config server);;
  console_log "SSH connection established".

(** *** createBackup *)
Definition backupDir : string := "/var/backups/webdeploy".

Definition backup_name (project : Project) (iso : string) : string :=
  name project ++ "_" ++ Js.replace_colon_dot iso.

Definition tar_command (project : Project) (backupName : string) : string :=
  "tar -czf " ++ backupDir ++ "/" ++ backupName ++ ".tar.gz -C "
    ++ deploy_path project ++ " " ++ name project.

Definition retention_command (project : Project) : string :=
  "cd " ++ backupDir ++ " && ls -t " ++ name project
    ++ "_*.tar.gz | tail -n +6 | xargs -r rm".

Definition createBackup (project : Project) : M W unit :=
  try_catch
    (iso <- now_iso;;
     let backupName := backup_name project iso in
     checkResult <- execCommand (probe_command project) None;;
     if Js.trim (stdout checkResult) =? "exists" then
       console_log "Creating backup of existing project...";;
       execCommand ("mkdir -p " ++ backupDir) None;;
       execCommand (tar_command project backupName) None;;
       console_log ("Backup created: " ++ backupName ++ ".tar.gz");;
       execCommand (retention_command project) None;;
       ret tt
     else ret tt)
    (fun error => console_error "Backup creation failed:" (Some error)).

(** *** deployFromGitHub *)
Definition pull_command (project : Project) : string :=
  "cd " ++ projectPath project
    ++ " && git pull origin main || git pull origin master".

Definition clone_command (project : Project) : string :=
  "cd " ++ deploy_path project ++ " && git clone "
    ++ Js.show (source_url project) ++ " " ++ name project.

Definition deployFromGitHub (project : Project) : M W unit :=
  console_log ("Deploying from GitHub: " ++ Js.show (source_url project));;
  checkResult <- execCommand (probe_command project) None;;
  if Js.trim (stdout checkResult) =? "exists" then
    console_log "Pulling latest changes...";;
    result <- execCommand (pull_command project) None;;
    if code_nonzero result then
      throw (Error ("Git pull failed: " ++ stderr result))
    else console_log ("Git pull output: " ++ stdout result)
  else
    console_log "Cloning repository...";;
    execCommand ("mkdir -p " ++ deploy_path project) None;;
    result <- execCommand (clone_command project) None;;
    if code_nonzero result then
      throw (Error ("Git clone failed: " ++ stderr result))
    else console_log ("Git clone output: " ++ stdout result).

(** *** deployFromUpload *)
Inductive Extraction := Unzip | TarExtract | CopyFile.

(** The branch taken for an extension already lower-cased. *)
Definition extraction_for (ext : string) : Extraction :=
  if ext =? ".zip" then Unzip
  else if (ext =? ".tar") || (ext =? ".gz") || (ext =? ".tgz") then TarExtract
  else CopyFile.

Definition extraction_command (x : Extraction) (staged target : string) : string :=
  match x with
  | Unzip => "unzip -o " ++ staged ++ " -d " ++ target
  | TarExtract => "tar -xzf " ++ staged ++ " -C " ++ target
  | CopyFile => "cp " ++ staged ++ " " ++ target ++ "/"
  end.

Definition path_arg_null : JsError :=
  TypeError ("The " ++ dq ++ "path" ++ dq
               ++ " argument must be of type string. Received null").

Definition deployFromUpload (project : Project) : M W unit :=
  console_log "Deploying from uploaded file...";;
  execCommand ("mkdir -p " ++ projectPath project) None;;
  match source_path project with
  | None => throw path_arg_null
  | Some sourcePath =>
      let staged := "/tmp/" ++ Path.basename sourcePath in
      putFile sourcePath staged;;
      let ext := Js.toLowerCase (Path.extname sourcePath) in
      execCommand (extraction_command (extraction_for ext) staged (projectPath project))
                  None;;
      execCommand ("rm " ++ staged) None;;
      console_log "File uploaded and extracted"
  end.

(** *** executeProjectTypeCommands *)
Definition pm2_command (project : Project) : string :=
  "pm2 restart " ++ name project ++ " || pm2 start npm --name " ++ dq
    ++ name project ++ dq ++ " -- start".

Definition chmod_command (project : Project) : string :=
  "chmod -R 755 " ++ projectPath project.

(** The [switch] on [project.project_type]. *)
Definition typeCommands (project : Project) : M W unit :=
  let path := projectPath project in
  if project_type project =? "nodejs" then
    execCommand ("cd " ++ path ++ " && npm install") None;;
    pm2Check <- execCommand "which pm2" None;;
    if code_zero pm2Check then
      execCommand (pm2_command project) (Some path);;
      console_log "Node.js app restarted with PM2"
    else ret tt
  else if project_type project =? "php" then
    composerCheck <- execCommand
      ("test -f " ++ path ++ "/composer.json && echo " ++ dq ++ "exists" ++ dq) None;;
    if Js.trim (stdout composerCheck) =? "exists" then
      execCommand ("cd " ++ path ++ " && composer install --no-dev --optimize-autoloader")
                  None;;
      console_log "Composer dependencies installed"
    else ret tt
  else if project_type project =? "python" then
    reqCheck <- execCommand
      ("test -f " ++ path ++ "/requirements.txt && echo " ++ dq ++ "exists" ++ dq) None;;
    if Js.trim (stdout reqCheck) =? "exists" then
      execCommand ("cd " ++ path ++ " && pip3 install -r requirements.txt") None;;
      console_log "Python dependencies installed"
    else ret tt
  else if project_type project =? "static" then
    console_log "Static site deployed - no additional commands needed"
  else
    console_log "Unknown project type - skipping type-specific commands".

Definition executeProjectTypeCommands (project : Project) : M W unit :=
  console_log ("Executing " ++ project_type project ++ " specific commands...");;
  typeCommands project;;
  execCommand (chmod_command project) None;;
  ret tt.

(** *** executeCustomCommands *)

(** [custom_commands.split('\n').filter(cmd => cmd.trim())] *)
Definition command_lines (text : string) : list string :=
  filter (fun cmd => Js.truthy_str (Js.trim cmd)) (Js.split newline text).

(** One turn of the [for ... of] loop. *)
Definition runCommand (path command : string) : M W unit :=
  console_log ("Executing: " ++ command);;
  result <- execCommand command (Some path);;
  if code_nonzero result then
    console_error ("Command failed: " ++ stderr result) None
  else
    console_log ("Command output: " ++ stdout result).

Fixpoint forCommands (path : string) (commands : list string) : M W unit :=
  match commands with
  | [] => ret tt
  | command :: rest => runCommand path command;; forCommands path rest
  end.

Definition split_of_null : JsError :=
  TypeError "Cannot read properties of null (reading 'split')".

Definition executeCustomCommands (project : Project) : M W unit :=
  console_log "Executing custom commands...";;
  match custom_commands project with
  | None => throw split_of_null
  | Some text => forCommands (projectPath project) (command_lines text)
  end.

(** *** deploy *)
Definition deploy (project : Project) : M W bool :=
  try_catch
    (console_log ("Starting deployment for project: " ++ name project);;
     connectSSH (server project);;
     createBackup project;;
     (if source_type project =? "github" then deployFromGitHub project
      else if source_type project =? "upload" then deployFromUpload project
      else ret tt);;
     executeProjectTypeCommands project;;
     (if Js.truthy (custom_commands project)
      then executeCustomCommands project
      else ret tt);;
     console_log ("Deployment completed for project: " ++ name project);;
     dispose;;
     ret true)
    (fun error =>
       console_error ("Deployment failed for project " ++ name project ++ ":")
                     (Some error);;
       dispose;;
       throw error).

End DeploymentService.

(** ** The create-server route (routes/servers.js), credential check *)
Inductive Response :=
| BadRequest (message : string)
| Created.

(** [POST /servers]: the two guards that precede [Server.create], on the
    fields of the request body. *)
Definition create_server_check
  (name_ ip_address_ ssh_username_ ssh_password_ ssh_private_key_ : option string)
  : Response :=
  if negb (Js.truthy name_) || negb (Js.truthy ip_address_)
     || negb (Js.truthy ssh_username_)
  then BadRequest "Name, IP address, and SSH username are required"
  else if negb (Js.truthy ssh_password_) && negb (Js.truthy ssh_private_key_)
  then BadRequest "Either SSH password or private key is required"
  else Created.

(** ** The retention pipeline on the backup directory

    [ls -t NAME_*.tar.gz | tail -n +6 | xargs -r rm], run inside the
    backup directory, read as a function on the directory's entries.
    File names are taken to be free of white space and of glob
    characters, as archive names built from such project names are. *)
Module Shell.

(** A directory entry: file name and modification time. *)
Record Entry := { fname : string; mtime : Z }.

Fixpoint is_prefix (p s : string) : bool :=
  match p, s with
  | EmptyString, _ => true
  | String a p', String b s' => Ascii.eqb a b && is_prefix p' s'
  | String _ _, EmptyString => false
  end.

Fixpoint drop (n : nat) (s : string) : string :=
  match n, s with
  | O, _ => s
  | S n', String _ s' => drop n' s'
  | S _, EmptyString => EmptyString
  end.

Definition is_suffix (x s : string) : bool :=
  (String.length x <=? String.length s)%nat
  && (drop (String.length s - String.length x) s =? x).

(** The glob [prefix*suffix]: the star takes any run of characters. *)
Definition glob_star (pre suf file : string) : bool :=
  is_prefix pre file && is_suffix suf (drop (String.length pre) file).

(** Newest first; entries of equal time keep their order. *)
Fixpoint insert_newest (e : Entry) (l : list Entry) : list Entry :=
  match l with
  | [] => [e]
  | x :: rest =>
      if (mtime x <? mtime e)%Z then e :: l else x :: insert_newest e rest
  end.

Fixpoint sort_newest (l : list Entry) : list Entry :=
  match l with
  | [] => []
  | e :: rest => insert_newest e (sort_newest rest)
  end.

Definition newer_or_same (a b : Entry) : Prop := (mtime b <= mtime a)%Z.

(** [ls -t PRE*SUF] *)
Definition ls_t (pre suf : string) (dir : list Entry) : list string :=
  map fname (sort_newest (filter (fun e => glob_star pre suf (fname e)) dir)).

(** [tail -n +K] *)
Definition tail_from (k : nat) (lines : list string) : list string :=
  skipn (k - 1) lines.

Definition mem (f : string) (names : list string) : bool :=
  existsb (String.eqb f) names.

(** [xargs -r rm] *)
Definition xargs_rm (names : list string) (dir : list Entry) : list Entry :=
  filter (fun e => negb (mem (fname e) names)) dir.

(** The whole of the retention command for a project name. *)
Definition clean_old_backups (project_name : string) (dir : list Entry)
  : list Entry :=
  xargs_rm (tail_from 6 (ls_t (project_name ++ "_") ".tar.gz" dir)) dir.

(** [tar -czf DIR/NAME.tar.gz ...]: the archive appears (or is
    rewritten) with the time of the run. *)
Definition tar_create (archive : string) (now : Z) (dir : list Entry)
  : list Entry :=
  {| fname := archive; mtime := now |}
    :: filter (fun e => negb (fname e =? archive)) dir.

(** The archives of a directory that the pattern of a project matches. *)
Definition matching (project_name : string) (dir : list Entry) : list Entry :=
  filter (fun e => glob_star (project_name ++ "_") ".tar.gz" (fname e)) dir.

(** The matching archives, newest first. *)
Definition ranked (project_name : string) (dir : list Entry) : list Entry :=
  sort_newest (matching project_name dir).

(** The names the pipeline hands to [rm], and the test of survival. *)
Definition doomed (project_name : string) (dir : list Entry) : list string :=
  map fname (skipn 5 (ranked project_name dir)).

Definition spared (project_name : string) (dir : list Entry) (e : Entry) : bool :=
  negb (mem (fname e) (doomed project_name dir)).

(** *** A remote host that understands the commands of [createBackup] *)

Fixpoint take (n : nat) (s : string) : string :=
  match n, s with
  | S n', String c s' => String c (take n' s')
  | _, _ => EmptyString
  end.

Definition strip_prefix (p s : string) : option string :=
  if is_prefix p s then Some (drop (String.length p) s) else None.

Definition strip_suffix (x s : string) : option string :=
  if is_suffix x s then Some (take (String.length s - String.length x) s) else None.

(** The first word of a command line. *)
Fixpoint until_space (s : string) : string :=
  match s with
  | EmptyString => EmptyString
  | String c rest =>
      if Ascii.eqb c " " then EmptyString else String c (until_space rest)
  end.

(** The backup directory, the directories that exist, and the time. *)
Record Remote := {
  backups : list Entry;
  directories : list string;
  clock : Z
}.

Definition success (out : string) : ExecResult :=
  {| code := Some 0%Z; stdout := out; stderr := "" |}.

Definition line (text : string) : string := text ++ String newline "".

(** [test -d], [tar -czf] into the backup directory and the retention
    pipeline act on the host; any other command succeeds and changes
    nothing. *)
Definition run (command : string) (r : Remote) : Remote * ExecResult :=
  match strip_prefix "test -d " command with
  | Some rest =>
      (r, success (if mem (until_space rest) (directories r)
                   then line "exists" else line "not found"))
  | None =>
      match strip_prefix ("tar -czf " ++ backupDir ++ "/") command with
      | Some rest =>
          ({| backups := tar_create (until_space rest) (clock r) (backups r);
              directories := directories r;
              clock := clock r + 1 |},
           success "")
      | None =>
          match strip_prefix ("cd " ++ backupDir ++ " && ls -t ") command with
          | Some rest =>
              match strip_suffix "*.tar.gz | tail -n +6 | xargs -r rm" rest with
              | Some pre =>
                  ({| backups :=
                        xargs_rm (tail_from 6 (ls_t pre ".tar.gz" (backups r)))
                                 (backups r);
                      directories := directories r;
                      clock := clock r |},
                   success "")
              | None => (r, success "")
              end
          | None => (r, success "")
          end
      end
  end.

Definition host : Env Remote :=
  {| ssh_connect := fun _ r => (r, None);
     ssh_execCommand := fun command _ r =>
                          (fst (run command r), inl (snd (run command r)));
     ssh_putFile := fun _ _ r => (r, None);
     ssh_dispose := fun r => r;
     date_toISOString := fun _ => "2024-05-06T07:08:09.123Z" |}.

End Shell.

(** ** Concrete environments *)
Module Hosts.

Definition ok_result (out : string) : ExecResult :=
  {| code := Some 0%Z; stdout := out; stderr := "" |}.

Definition failed_result (status : Z) (err : string) : ExecResult :=
  {| code := Some status; stdout := ""; stderr := err |}.

(** A stateless host: the answer to a command depends on its text
    only; [conn] and [put] are the rejections of connect and putFile,
    if any. *)
Definition scripted (answer : string -> ExecResult + string)
           (conn put : option string) : Env unit :=
  {| ssh_connect := fun _ w => (w, conn);
     ssh_execCommand := fun command _ w => (w, answer command);
     ssh_putFile := fun _ _ w => (w, put);
     ssh_dispose := fun w => w;
     date_toISOString := fun _ => "2024-05-06T07:08:09.123Z" |}.

(** Every command succeeds and prints nothing. *)
Definition quiet : Env unit :=
  scripted (fun _ => inl (ok_result "")) None None.

(** Every directory probe answers [exists]; everything else succeeds. *)
Definition deployed : Env unit :=
  scripted (fun _ => inl (ok_result ("exists" ++ String newline ""))) None None.

(** Every command exits with status 1. *)
Definition broken : Env unit :=
  scripted (fun _ => inl (failed_result 1 "failed")) None None.

(** Only [exit 1] fails. *)
Definition exit1_fails : Env unit :=
  scripted (fun command =>
              if command =? "exit 1" then inl (failed_result 1 "")
              else inl (ok_result ""))
           None None.

Definition server_password : Server :=
  {| ip_address := "10.0.0.5"; ssh_port := 22; ssh_username := "deploy";
     ssh_password := Some "s3cret"; ssh_private_key := Some "KEY" |}.

Definition server_key : Server :=
  {| ip_address := "10.0.0.5"; ssh_port := 22; ssh_username := "deploy";
     ssh_password := None; ssh_private_key := Some "KEY" |}.

Definition server_bare : Server :=
  {| ip_address := "10.0.0.5"; ssh_port := 22; ssh_username := "deploy";
     ssh_password := None; ssh_private_key := None |}.

Definition app1 : Project :=
  {| name := "app1"; project_type := "nodejs"; source_type := "github";
     source_url := Some "git@host:org/app1.git"; source_path := None;
     deploy_path := "/var/www"; custom_commands := None;
     server := server_password |}.

Definition site2 : Project :=
  {| name := "site2"; project_type := "static"; source_type := "upload";
     source_url := None; source_path := Some "/srv/uploads/17-3-bundle.zip";
     deploy_path := "/var/www/html"; custom_commands := None;
     server := server_key |}.

(** Two projects on one server, the name of the second extending the
    name of the first. *)
Definition app : Project :=
  {| name := "app"; project_type := "static"; source_type := "github";
     source_url := Some "git@host:org/app.git"; source_path := None;
     deploy_path := "/var/www/html"; custom_commands := None;
     server := server_key |}.

Definition app_v2 : Project :=
  {| name := "app_v2"; project_type := "static"; source_type := "github";
     source_url := Some "git@host:org/app_v2.git"; source_path := None;
     deploy_path := "/var/www/html"; custom_commands := None;
     server := server_key |}.

Definition app_v2_backup : string := "app_v2_2024-01-01T00-00-00-000Z.tar.gz".

(** The shared host after one deployment of [app_v2] and five of
    [app]. *)
Definition shared_host : Shell.Remote :=
  {| Shell.backups :=
       [ {| Shell.fname := app_v2_backup; Shell.mtime := 1 |};
         {| Shell.fname := "app_2024-02-01T00-00-00-000Z.tar.gz"; Shell.mtime := 2 |};
         {| Shell.fname := "app_2024-02-02T00-00-00-000Z.tar.gz"; Shell.mtime := 3 |};
         {| Shell.fname := "app_2024-02-03T00-00-00-000Z.tar.gz"; Shell.mtime := 4 |};
         {| Shell.fname := "app_2024-02-04T00-00-00-000Z.tar.gz"; Shell.mtime := 5 |};
         {| Shell.fname := "app_2024-02-05T00-00-00-000Z.tar.gz"; Shell.mtime := 6 |} ];
     Shell.directories := ["/var/www/html/app"; "/var/www/html/app_v2"];
     Shell.clock := 7 |}.

(** A project whose source mode is none of the two known ones. *)
Definition legacy : Project :=
  {| name := "legacy"; project_type := "php"; source_type := "svn";
     source_url := Some "svn://host/legacy"; source_path := None;
     deploy_path := "/var/www/html"; custom_commands := Some "ls";
     server := server_password |}.

(** Three commands around an empty line; the second one fails. *)
Definition three_commands : Project :=
  with_commands app1 (Some "echo one

exit 1
echo two").

(** A field of blanks and newlines. *)
Definition blank_commands : Project :=
  with_commands app1 (Some "  
	 
").

(** The directory is there, and the pull of [app1] ends in a conflict. *)
Definition pull_conflict : Env unit :=
  scripted (fun command =>
              if command =? pull_command app1
              then inl (failed_result 1 "conflict")
              else inl (ok_result ("exists" ++ String newline "")))
           None None.

(** [which pm2] finds nothing; every other command succeeds. *)
Definition without_pm2 : Env unit :=
  scripted (fun command =>
              if command =? "which pm2" then inl (failed_result 1 "")
              else inl (ok_result ""))
           None None.

Definition php_site : Project :=
  {| name := "shop"; project_type := "php"; source_type := "github";
     source_url := Some "git@host:org/shop.git"; source_path := None;
     deploy_path := "/var/www/html"; custom_commands := None;
     server := server_password |}.

Definition custom_site : Project :=
  {| name := "tool"; project_type := "custom"; source_type := "github";
     source_url := Some "git@host:org/tool.git"; source_path := None;
     deploy_path := "/var/www/html"; custom_commands := None;
     server := server_password |}.

End Hosts.

(** ** The server routes (routes/servers.js): create and update *)

(** The fields of a request body that the server routes read; an absent
    or null field is [None], and the port is a number. *)
Record ServerBody := {
  sb_name : option string;
  sb_ip_address : option string;
  sb_ssh_port : option Z;
  sb_ssh_username : option string;
  sb_ssh_password : option string;
  sb_ssh_private_key : option string;
  sb_cpu_info : option string;
  sb_ram_info : option string;
  sb_storage_info : option string
}.

(** A row of the [servers] table: the columns the service reads, and the
    others. *)
Record ServerRow := {
  srv_name : string;
  srv_access : Server;
  srv_cpu_info : option string;
  srv_ram_info : option string;
  srv_storage_info : option string;
  srv_status : string;
  srv_last_checked : option string
}.

(** [body || old] for a column that is never null. *)
Definition or_string (body : option string) (old : string) : string :=
  match body with
  | Some s => if s =? "" then old else s
  | None => old
  end.

(** [body || old] for a nullable column. *)
Definition or_nullable (body old : option string) : option string :=
  if Js.truthy body then body else old.

(** [body || old] for a number. *)
Definition or_number (body : option Z) (old : Z) : Z :=
  match body with
  | Some z => if (z =? 0)%Z then old else z
  | None => old
  end.

(** [POST /servers]: the object handed to [Server.create] once the two
    guards are passed; the port defaults to 22. *)
Definition created_server (b : ServerBody) : option ServerRow :=
  match create_server_check (sb_name b) (sb_ip_address b) (sb_ssh_username b)
                            (sb_ssh_password b) (sb_ssh_private_key b) with
  | BadRequest _ => None
  | Created =>
      Some {| srv_name := or_string (sb_name b) "";
              srv_access :=
                {| ip_address := or_string (sb_ip_address b) "";
                   ssh_port := match sb_ssh_port b with Some z => z | None => 22%Z end;
                   ssh_username := or_string (sb_ssh_username b) "";
                   ssh_password := sb_ssh_password b;
                   ssh_private_key := sb_ssh_private_key b |};
              srv_cpu_info := sb_cpu_info b;
              srv_ram_info := sb_ram_info b;
              srv_storage_info := sb_storage_info b;
              srv_status := "offline";
              srv_last_checked := None |}
  end.

(** [PUT /servers/:id]: the object handed to [server.update]. *)
Definition updated_server (b : ServerBody) (row : ServerRow) : ServerRow :=
  {| srv_name := or_string (sb_name b) (srv_name row);
     srv_access :=
       {| ip_address := or_string (sb_ip_address b) (ip_address (srv_access row));
          ssh_port := or_number (sb_ssh_port b) (ssh_port (srv_access row));
          ssh_username := or_string (sb_ssh_username b) (ssh_username (srv_access row));
          ssh_password := or_nullable (sb_ssh_password b) (ssh_password (srv_access row));
          ssh_private_key :=
            or_nullable (sb_ssh_private_key b) (ssh_private_key (srv_access row)) |};
     srv_cpu_info := or_nullable (sb_cpu_info b) (srv_cpu_info row);
     srv_ram_info := or_nullable (sb_ram_info b) (srv_ram_info row);
     srv_storage_info := or_nullable (sb_storage_info b) (srv_storage_info row);
     srv_status := srv_status row;
     srv_last_checked := srv_last_checked row |}.

(** ** The project routes (routes/projects.js): create and update *)

(** A JSON field of a request body, where the routes tell an absent
    field from a null one. *)
Inductive Field :=
| Undefined
| Null
| Text (s : string).

Definition field_truthy (f : Field) : bool :=
  match f with
  | Text s => negb (s =? "")
  | _ => false
  end.

(** The value stored for a field handed over as it is. *)
Definition stored (f : Field) : option string :=
  match f with
  | Text s => Some s
  | _ => None
  end.

(** [field || old], for a column that is never null and for a nullable
    one. *)
Definition field_or_string (f : Field) (old : string) : string :=
  match f with
  | Text s => if s =? "" then old else s
  | _ => old
  end.

Definition field_or_nullable (f : Field) (old : option string) : option string :=
  if field_truthy f then stored f else old.

(** [field !== undefined ? field : old] *)
Definition field_if_defined (f : Field) (old : option string) : option string :=
  match f with
  | Undefined => old
  | _ => stored f
  end.

Record ProjectBody := {
  pb_name : Field;
  pb_project_type : Field;
  pb_source_type : Field;
  pb_source_url : Field;
  pb_server_id : option Z;
  pb_deploy_path : Field;
  pb_domain : Field;
  pb_custom_commands : Field
}.

(** A row of the [projects] table with its server: the columns the
    service reads, and the others. *)
Record ProjectRow := {
  prj : Project;
  prj_domain : option string;
  prj_status : string;
  prj_server_id : Z;
  prj_last_deployment : option string
}.

(** What a route answers: the HTTP status and the message. *)
Record Reply := {
  reply_status : Z;
  reply_message : string
}.

(** [POST /projects], given what [Server.findByPk(server_id)] found: the
    guards, then the object handed to [Project.create]. *)
Definition create_project (b : ProjectBody) (found : option Server)
  : Reply + ProjectRow :=
  if negb (field_truthy (pb_name b)) || negb (field_truthy (pb_project_type b))
     || negb (field_truthy (pb_source_type b))
     || match pb_server_id b with Some z => (z =? 0)%Z | None => true end
  then inl {| reply_status := 400;
              reply_message :=
                "Name, project type, source type, and server are required" |}
  else if (field_or_string (pb_source_type b) "" =? "github")
          && negb (field_truthy (pb_source_url b))
  then inl {| reply_status := 400;
              reply_message := "GitHub URL is required for GitHub projects" |}
  else
    match found with
    | None => inl {| reply_status := 404; reply_message := "Server not found" |}
    | Some srv =>
        inr {| prj :=
                 {| name := field_or_string (pb_name b) "";
                    project_type := field_or_string (pb_project_type b) "";
                    source_type := field_or_string (pb_source_type b) "";
                    source_url := stored (pb_source_url b);
                    source_path := None;
                    deploy_path := field_or_string (pb_deploy_path b) "/var/www/html";
                    custom_commands := stored (pb_custom_commands b);
                    server := srv |};
               prj_domain := stored (pb_domain b);
               prj_status := "inactive";
               prj_server_id := match pb_server_id b with Some z => z | None => 0%Z end;
               prj_last_deployment := None |}
    end.

(** [PUT /projects/:id]: the object handed to [project.update], on top
    of the row. *)
Definition updated_project (b : ProjectBody) (row : ProjectRow) : ProjectRow :=
  {| prj :=
       {| name := field_or_string (pb_name b) (name (prj row));
          project_type := field_or_string (pb_project_type b) (project_type (prj row));
          source_type := source_type (prj row);
          source_url := field_or_nullable (pb_source_url b) (source_url (prj row));
          source_path := source_path (prj row);
          deploy_path := field_or_string (pb_deploy_path b) (deploy_path (prj row));
          custom_commands :=
            field_if_defined (pb_custom_commands b) (custom_commands (prj row));
          server := server (prj row) |};
     prj_domain := field_if_defined (pb_domain b) (prj_domain row);
     prj_status := prj_status row;
     prj_server_id := prj_server_id row;
     prj_last_deployment := prj_last_deployment row |}.

(** ** The auth middleware and the login route (middleware/auth.js,
    routes/auth.js) *)

(** [req.headers.authorization?.split(' ')[1]] *)
Definition bearer_token (authorization : option string) : option string :=
  match authorization with
  | None => None
  | Some header => nth_error (Js.split " "%char header) 1
  end.

(** A row of the [users] table, as far as the routes read it. *)
Record User := {
  user_id : Z;
  user_name : string
}.

(** What the middleware does with a request: answer 401, or attach the
    user and call [next()]. *)
Inductive AuthResult :=
| Unauthorized (message : string)
| Next (id : Z) (username_ : string).

(** The middleware, over [jwt.verify] (the [id] of the decoded payload,
    if it has one, or the error thrown) and [User.findByPk] (the row or
    null, or the error of the query; null for an undefined key). *)
Definition authMiddleware
           (verify : string -> option Z + string)
           (findByPk : Z -> option User + string)
           (authorization : option string) : AuthResult :=
  if Js.truthy (bearer_token authorization) then
    match verify (Js.show (bearer_token authorization)) with
    | inr _ => Unauthorized "Invalid or expired token"
    | inl None => Unauthorized "Invalid token"
    | inl (Some id) =>
        match findByPk id with
        | inr _ => Unauthorized "Invalid or expired token"
        | inl None => Unauthorized "Invalid token"
        | inl (Some user) => Next (user_id user) (user_name user)
        end
    end
  else Unauthorized "No token provided".

(** What [POST /login] answers. *)
Inductive LoginReply :=
| LoginFailed (status : Z) (message : string)
| LoggedIn (token : string) (id : Z) (username_ : string).

(** The login route, over [User.findOne], [user.verifyPassword] and
    [jwt.sign]; each of them may fail with an error. *)
Definition login
           (findOne : string -> option User + string)
           (verifyPassword : User -> string -> bool + string)
           (sign : Z -> string -> string + string)
           (username_ password_ : option string) : LoginReply :=
  if negb (Js.truthy username_) || negb (Js.truthy password_) then
    LoginFailed 400 "Username and password are required"
  else
    match findOne (Js.show username_) with
    | inr _ => LoginFailed 500 "Internal server error"
    | inl None => LoginFailed 401 "Invalid credentials"
    | inl (Some user) =>
        match verifyPassword user (Js.show password_) with
        | inr _ => LoginFailed 500 "Internal server error"
        | inl false => LoginFailed 401 "Invalid credentials"
        | inl true =>
            match sign (user_id user) (user_name user) with
            | inr _ => LoginFailed 500 "Internal server error"
            | inl token => LoggedIn token (user_id user) (user_name user)
            end
        end
    end.

(** ** The routes that drive a session: [POST /servers/:id/test] and
    [POST /projects/:id/deploy] *)

(** What a route can be rejected with: an error of the service or of
    the session, or the rejection of a query. *)
Inductive RouteError :=
| FromService (e : JsError)
| FromDb (message : string).

(** [error.message] *)
Definition message_of (e : RouteError) : string :=
  match e with
  | FromService (Error m) | FromService (TypeError m)
  | FromService (SessionFailure m) | FromDb m => m
  end.

(** What a route does, in order: the events of the session and of the
    service, its own console lines, the updates it sends to the data
    base, and its answer. *)
Inductive RouteEvent :=
| Service (e : Event)
| Logged (text : string) (cause : RouteError)
| UpdateServer (id : Z) (status_ : string) (checked : string)
| UpdateProject (id : Z) (status_ : string) (deployed : option string)
| Respond (status : Z) (message : string) (data : list (string * string)).

Inductive RouteOutcome (A : Type) :=
| Done (a : A)
| Failed (e : RouteError).
Arguments Done {A} a.
Arguments Failed {A} e.

(** The data base behind the models: a query that fails gives the
    message of its rejection.  A project comes with the status of its
    server ([include: server]), [None] when the association is null. *)
Record Db (W : Type) := {
  server_findByPk : Z -> W -> W * (option ServerRow + string);
  server_update : Z -> string -> string -> W -> W * option string;
  project_findByPk : Z -> W -> W * (option (ProjectRow * option string) + string);
  project_update : Z -> string -> option string -> W -> W * option string
}.

Definition R (W A : Type) : Type := W -> W * list RouteEvent * RouteOutcome A.

Definition rret {W A} (a : A) : R W A := fun w => (w, [], Done a).

Definition rbind {W A B} (m : R W A) (f : A -> R W B) : R W B :=
  fun w =>
    match m w with
    | (w1, ev1, Done a) =>
        match f a w1 with
        | (w2, ev2, r) => (w2, (ev1 ++ ev2)%list, r)
        end
    | (w1, ev1, Failed e) => (w1, ev1, Failed e)
    end.

Definition rtry {W A} (m : R W A) (handler : RouteError -> R W A) : R W A :=
  fun w =>
    match m w with
    | (w1, ev1, Done a) => (w1, ev1, Done a)
    | (w1, ev1, Failed e) =>
        match handler e w1 with
        | (w2, ev2, r) => (w2, (ev1 ++ ev2)%list, r)
        end
    end.

(** A computation of the service, run inside a route. *)
Definition lift {W A} (m : M W A) : R W A :=
  fun w =>
    match m w with
    | (w1, evs, Resolved a) => (w1, map Service evs, Done a)
    | (w1, evs, Rejected e) => (w1, map Service evs, Failed (FromService e))
    end.

Declare Scope route_scope.
Delimit Scope route_scope with route.
Notation "x <- m ;; k" := (rbind m (fun x => k))
  (at level 100, m at next level, right associativity) : route_scope.
Notation "m ;; k" := (rbind m (fun _ => k))
  (at level 100, right associativity) : route_scope.

Definition route_events {W A} (r : W * list RouteEvent * RouteOutcome A)
  : list RouteEvent := snd (fst r).
Definition route_outcome {W A} (r : W * list RouteEvent * RouteOutcome A)
  : RouteOutcome A := snd r.

(** The events of the session among the events of a route. *)
Definition service_events (evs : list RouteEvent) : list Event :=
  flat_map (fun e => match e with Service ev => [ev] | _ => [] end) evs.

Section SessionRoutes.

Context {W : Type} (env : Env W) (db : Db W).
Local Open Scope route_scope.

Definition respond (status : Z) (message : string) (data : list (string * string))
  : R W unit :=
  fun w => (w, [Respond status message data], Done tt).

Definition route_error (text : string) (cause : RouteError) : R W unit :=
  fun w => (w, [Logged text cause], Done tt).

(** [new Date()] *)
Definition new_date : R W string :=
  fun w => (w, [], Done (date_toISOString env w)).

Definition find_server (id : Z) : R W (option ServerRow) :=
  fun w =>
    match server_findByPk db id w with
    | (w', inl row) => (w', [], Done row)
    | (w', inr msg) => (w', [], Failed (FromDb msg))
    end.


Definition update_server (id : Z) (status_ checked : string) : R W unit :=
  fun w =>
    match server_update db id status_ checked w with
    | (w', None) => (w', [UpdateServer id status_ checked], Done tt)
    | (w', Some msg) => (w', [UpdateServer id status_ checked], Failed (FromDb msg))
    end.

Definition update_project (id : Z) (status_ : string) (deployed : option string)
  : R W unit :=
  fun w =>
    match project_update db id status_ deployed w with
    | (w', None) => (w', [UpdateProject id status_ deployed], Done tt)
    | (w', Some msg) => (w', [UpdateProject id status_ deployed], Failed (FromDb msg))
    end.

(** The [sshConfig] of the test route. *)
Definition sshConfig (server : Server) : Config :=
  let config := {| host := ip_address server;
                   port := ssh_port server;
                   username := ssh_username server;
                   password := None;
                   privateKey := None |} in
  if Js.truthy (ssh_password server) then
    {| host := host config; port := port config; username := username config;
       password := ssh_password server; privateKey := privateKey config |}
  else if Js.truthy (ssh_private_key server) then
    {| host := host config; port := port config; username := username config;
       password := password config; privateKey := ssh_private_key server |}
  else config.

(** [POST /servers/:id/test] *)
Definition test_route (id : Z) : R W unit :=
  rtry
    (server <- find_server id;;
     match server with
     | None => respond 404 "Server not found" []
     | Some row =>
         lift (connect env (sshConfig (srv_access row)));;
         result <- lift (execCommand env "uname -a && uptime" None);;
         checked <- new_date;;
         update_server id "online" checked;;
         lift (dispose env);;
         respond 200 "Connection successful"
           [("status", "online"); ("systemInfo", stdout result)]
     end)
    (fun error =>
       route_error "SSH connection error:" error;;
       server <- find_server id;;
       (match server with
        | Some _ => checked <- new_date;; update_server id "error" checked
        | None => rret tt
        end);;
       lift (dispose env);;
       respond 500 ("Connection failed: " ++ message_of error) []).



(** [deploymentService.deploy(project).then(...).catch(...)] *)
Definition deploy_job (id : Z) (row : ProjectRow) : R W unit :=
  rtry
    (lift (deploy env (prj row));;
     deployed <- new_date;;
     update_project id "active" (Some deployed))
    (fun error =>
       route_error "Deployment failed:" error;;
       update_project id "error" None).

End SessionRoutes.

(** The answers among the events of a route. *)
Definition is_respond (e : RouteEvent) : bool :=
  match e with Respond _ _ _ => true | _ => false end.
Definition answers (evs : list RouteEvent) : list RouteEvent :=
  filter is_respond evs.

(** Data bases for the examples: the same rows under every key. *)
Module Tables.

Definition web1 : ServerRow :=
  {| srv_name := "web1"; srv_access := Hosts.server_key;
     srv_cpu_info := None; srv_ram_info := None; srv_storage_info := None;
     srv_status := "offline"; srv_last_checked := None |}.

Definition app_row : ProjectRow :=
  {| prj := Hosts.app; prj_domain := None; prj_status := "inactive";
     prj_server_id := 1; prj_last_deployment := None |}.

(** Every query resolves. *)
Definition steady (server : option ServerRow)
           (project : option (ProjectRow * option string)) : Db unit :=
  {| server_findByPk := fun _ w => (w, inl server);
     server_update := fun _ _ _ w => (w, None);
     project_findByPk := fun _ w => (w, inl project);
     project_update := fun _ _ _ w => (w, None) |}.

(** The rows can be read; an update to [refused] is rejected, every
    other one resolves. *)
Definition refusing (refused : string) (server : option ServerRow)
           (project : option (ProjectRow * option string)) : Db unit :=
  {| server_findByPk := fun _ w => (w, inl server);
     server_update := fun _ status_ _ w =>
       (w, if (status_ =? refused)%string then Some "SQLITE_BUSY" else None);
     project_findByPk := fun _ w => (w, inl project);
     project_update := fun _ status_ _ w =>
       (w, if (status_ =? refused)%string then Some "SQLITE_BUSY" else None) |}.

(** Every query is rejected. *)
Definition down : Db unit :=
  {| server_findByPk := fun _ w => (w, inr "SQLITE_BUSY");
     server_update := fun _ _ _ w => (w, Some "SQLITE_BUSY");
     project_findByPk := fun _ w => (w, inr "SQLITE_BUSY");
     project_update := fun _ _ _ w => (w, Some "SQLITE_BUSY") |}.

End Tables.

(** ** Further predicates on computations *)

(** A computation that is rejected from every world. *)
Definition always_rejected {W A} (m : M W A) : Prop :=
  forall w, exists e, outcome (m w) = Rejected e.

(** Environments that accept every file transfer. *)
Definition put_returns {W} (env : Env W) : Prop :=
  forall localFile remoteFile w, exists w',
    ssh_putFile env localFile remoteFile w = (w', None).

(** A remote command or a line on the console. *)
Definition is_shell (e : Event) : bool :=
  match e with
  | ExecCommand _ _ | ConsoleLog _ | ConsoleError _ _ => true
  | _ => false
  end.

Definition shell (e : Event) : Prop := is_shell e = true.

(** An event of the work done between connecting and releasing. *)
Definition is_work (e : Event) : bool :=
  match e with
  | Connect _ | Dispose => false
  | _ => true
  end.

Definition work (e : Event) : Prop := is_work e = true.

(** * Properties *)

(** ** The string built-ins and [path] on sample inputs *)
Example trim_ex : Js.trim "  a b	 " = "a b".
Proof. reflexivity. Qed.
Example split_ex : Js.split "010"%char "echo one

exit 1
echo two" = ["echo one"; ""; "exit 1"; "echo two"].
Proof. reflexivity. Qed.
Example join_ex1 : Path.join "/var/www/html" "app1" = "/var/www/html/app1".
Proof. reflexivity. Qed.
Example join_ex2 : Path.join "/var/www/" "../x/./y//" = "/var/x/y/".
Proof. reflexivity. Qed.
Example basename_ex : Path.basename "/srv/uploads/17-3-bundle.ZIP" = "17-3-bundle.ZIP".
Proof. reflexivity. Qed.
Example extname_ex1 : Path.extname "/srv/uploads/17-3-bundle.tar.gz" = ".gz".
Proof. reflexivity. Qed.
Example extname_ex2 : Path.extname "/srv/.bashrc" = "".
Proof. reflexivity. Qed.
Example extname_ex3 : Path.extname "a/.." = "".
Proof. reflexivity. Qed.

(** ** Running computations *)
Section Runs.

Context {W : Type}.

Lemma bind_resolved {A B} (m : M W A) (f : A -> M W B) w w1 ev1 a :
  m w = (w1, ev1, Resolved a) ->
  bind m f w = (world (f a w1), (ev1 ++ events (f a w1))%list, outcome (f a w1)).
Proof.
  intros Hm. unfold bind, world, events, outcome. rewrite Hm.
  destruct (f a w1) as [[w2 ev2] r]. reflexivity.
Qed.

Lemma bind_rejected {A B} (m : M W A) (f : A -> M W B) w w1 ev1 e :
  m w = (w1, ev1, Rejected e) ->
  bind m f w = (w1, ev1, Rejected e).
Proof. intros Hm. unfold bind. rewrite Hm. reflexivity. Qed.

Lemma try_resolved {A} (m : M W A) h w w1 ev1 a :
  m w = (w1, ev1, Resolved a) -> try_catch m h w = (w1, ev1, Resolved a).
Proof. intros Hm. unfold try_catch. rewrite Hm. reflexivity. Qed.

Lemma try_rejected {A} (m : M W A) h w w1 ev1 e :
  m w = (w1, ev1, Rejected e) ->
  try_catch m h w
  = (world (h e w1), (ev1 ++ events (h e w1))%list, outcome (h e w1)).
Proof.
  intros Hm. unfold try_catch, world, events, outcome. rewrite Hm.
  destruct (h e w1) as [[w2 ev2] r]. reflexivity.
Qed.

Lemma run_eta {A} (r : W * list Event * Outcome A) :
  r = (world r, events r, outcome r).
Proof. destruct r as [[w ev] o]. reflexivity. Qed.

Lemma emits_ret {A} P (a : A) : emits P (@ret W A a).
Proof. intros w. constructor. Qed.

Lemma emits_throw {A} P e : emits P (@throw W A e).
Proof. intros w. constructor. Qed.

Lemma emits_bind {A B} P (m : M W A) (f : A -> M W B) :
  emits P m -> (forall a, emits P (f a)) -> emits P (bind m f).
Proof.
  intros Hm Hf w. specialize (Hm w).
  destruct (m w) as [[w1 ev1] [a | e]] eqn:E.
  - rewrite (bind_resolved _ _ _ E). cbn. apply Forall_app. split.
    + exact Hm.
    + apply Hf.
  - rewrite (bind_rejected _ _ _ E). exact Hm.
Qed.

Lemma emits_try {A} P (m : M W A) h :
  emits P m -> (forall e, emits P (h e)) -> emits P (try_catch m h).
Proof.
  intros Hm Hh w. specialize (Hm w).
  destruct (m w) as [[w1 ev1] [a | e]] eqn:E.
  - rewrite (try_resolved _ _ _ E). exact Hm.
  - rewrite (try_rejected _ _ _ E). cbn. apply Forall_app. split.
    + exact Hm.
    + apply Hh.
Qed.

Context (env : Env W).

Lemma emits_log P text : P (ConsoleLog text) -> emits P (@console_log W text).
Proof. intros H w. cbn. auto. Qed.

Lemma emits_error P text cause :
  P (ConsoleError text cause) -> emits P (@console_error W text cause).
Proof. intros H w. cbn. auto. Qed.

Lemma emits_connect P config : P (Connect config) -> emits P (connect env config).
Proof.
  intros H w. unfold connect.
  destruct (ssh_connect env config w) as [w' [msg|]]; cbn; auto.
Qed.

Lemma emits_exec P command cwd :
  P (ExecCommand command cwd) -> emits P (execCommand env command cwd).
Proof.
  intros H w. unfold execCommand.
  destruct (ssh_execCommand env command cwd w) as [w' [r|msg]]; cbn; auto.
Qed.

Lemma emits_put P l r : P (PutFile l r) -> emits P (putFile env l r).
Proof.
  intros H w. unfold putFile.
  destruct (ssh_putFile env l r w) as [w' [msg|]]; cbn; auto.
Qed.

Lemma emits_now P : emits P (now_iso env).
Proof. intros w. constructor. Qed.

(** What each primitive does from a given world. *)
Lemma run_bind_ok {A B} (m : M W A) (f : A -> M W B) w w1 ev1 a w2 ev2 o :
  m w = (w1, ev1, Resolved a) ->
  f a w1 = (w2, ev2, o) ->
  bind m f w = (w2, (ev1 ++ ev2)%list, o).
Proof. intros Hm Hf. unfold bind. rewrite Hm, Hf. reflexivity. Qed.

Lemma run_bind_err {A B} (m : M W A) (f : A -> M W B) w w1 ev1 e :
  m w = (w1, ev1, Rejected e) ->
  bind m f w = (w1, ev1, Rejected e).
Proof. apply bind_rejected. Qed.

Lemma run_log text (w : W) :
  console_log text w = (w, [ConsoleLog text], Resolved tt).
Proof. reflexivity. Qed.

Lemma run_log_error text cause (w : W) :
  console_error text cause w = (w, [ConsoleError text cause], Resolved tt).
Proof. reflexivity. Qed.

Lemma run_exec_ok command cwd w w' r :
  ssh_execCommand env command cwd w = (w', inl r) ->
  execCommand env command cwd w = (w', [ExecCommand command cwd], Resolved r).
Proof. intros H. unfold execCommand. rewrite H. reflexivity. Qed.

Lemma run_exec_err command cwd w w' msg :
  ssh_execCommand env command cwd w = (w', inr msg) ->
  execCommand env command cwd w
  = (w', [ExecCommand command cwd], Rejected (SessionFailure msg)).
Proof. intros H. unfold execCommand. rewrite H. reflexivity. Qed.

Lemma run_put_ok l r w w' :
  ssh_putFile env l r w = (w', None) ->
  putFile env l r w = (w', [PutFile l r], Resolved tt).
Proof. intros H. unfold putFile. rewrite H. reflexivity. Qed.

Lemma run_put_err l r w w' msg :
  ssh_putFile env l r w = (w', Some msg) ->
  putFile env l r w = (w', [PutFile l r], Rejected (SessionFailure msg)).
Proof. intros H. unfold putFile. rewrite H. reflexivity. Qed.

Lemma run_connect_ok config w w' :
  ssh_connect env config w = (w', None) ->
  connect env config w = (w', [Connect config], Resolved tt).
Proof. intros H. unfold connect. rewrite H. reflexivity. Qed.

Lemma run_connect_err config w w' msg :
  ssh_connect env config w = (w', Some msg) ->
  connect env config w = (w', [Connect config], Rejected (SessionFailure msg)).
Proof. intros H. unfold connect. rewrite H. reflexivity. Qed.

End Runs.

Create HintDb emits.
#[local] Hint Resolve emits_ret emits_throw emits_log emits_error emits_connect
  emits_exec emits_put emits_now : emits.
#[local] Hint Extern 1 (kept _) => reflexivity : emits.

(** Exposes the events and the outcome of a run already computed. *)
Ltac run_simpl :=
  cbn [world events outcome fst snd app filter is_exec is_session is_dispose
       commands_run session_calls].

(** Runs one primitive, looking up what the environment answered among
    the hypotheses. *)
Ltac run_prim :=
  first
    [ apply run_log
    | apply run_log_error
    | eapply run_exec_ok; eassumption
    | eapply run_exec_err; eassumption
    | eapply run_put_ok; eassumption
    | eapply run_put_err; eassumption
    | eapply run_connect_ok; eassumption
    | eapply run_connect_err; eassumption
    | reflexivity ].

(** Runs a computation step by step into an equation [m w = ?result];
    a test met on the way must be settled by a hypothesis. *)
Ltac run_steps :=
  cbv beta;
  first
    [ match goal with
      | H : ?c = _ |- (if ?c then _ else _) _ = _ => rewrite H; run_steps
      | H : ?x = _ |- (match ?x with _ => _ end) _ = _ => rewrite H; run_steps
      end
    | eapply run_bind_ok; [ run_prim | run_steps ]
    | eapply run_bind_err; run_prim
    | run_prim ].

Ltac run_eq := etransitivity; [ run_steps | reflexivity ].

(** Breaks a computation into its steps and closes each with the hint
    base; conditionals are split on the way. *)
Ltac emits_steps :=
  repeat first
    [ apply emits_bind; [ | intros ? ]
    | apply emits_try; [ | intros ? ]
    | match goal with
      | |- emits _ (if ?c then _ else _) => destruct c
      | |- emits _ (match ?x with _ => _ end) => destruct x
      end
    | solve [ auto with emits ] ].

(** ** createBackup *)

Lemma catch_and_log_resolves {W} (m : M W unit) text w :
  outcome (try_catch m (fun e => console_error text (Some e)) w) = Resolved tt.
Proof.
  destruct (m w) as [[w1 ev1] [[] | e]] eqn:E.
  - rewrite (try_resolved _ _ _ E). reflexivity.
  - rewrite (try_rejected _ _ _ E). reflexivity.
Qed.

Lemma createBackup_outcome {W} (env : Env W) (project : Project) (w : W) :
  outcome (createBackup env project w) = Resolved tt.
Proof. apply catch_and_log_resolves. Qed.

(** C6: [createBackup] resolves for every project, environment and
    world, whatever the probe, the archive creation or the retention
    command does (a rejection is caught and logged); whatever the caller
    does next therefore runs, from the world the backup left. *)
Theorem createBackup_never_throws {W} (env : Env W) (project : Project) (w : W) :
  outcome (createBackup env project w) = Resolved tt
  /\ forall B (k : unit -> M W B),
      bind (createBackup env project) k w
      = (world (k tt (world (createBackup env project w))),
         (events (createBackup env project w)
            ++ events (k tt (world (createBackup env project w))))%list,
         outcome (k tt (world (createBackup env project w)))).
Proof.
  assert (H : outcome (createBackup env project w) = Resolved tt)
    by apply createBackup_outcome.
  split; [exact H | ].
  intros B k.
  destruct (createBackup env project w) as [[w1 ev1] o] eqn:E.
  cbn in H. subst o. rewrite (bind_resolved _ _ _ E). reflexivity.
Qed.

(** ** deploy releases the session *)
Section Release.

Context {W : Type} (env : Env W).

Lemma dispose_count_app (a b : list Event) :
  dispose_count (a ++ b) = dispose_count a + dispose_count b.
Proof. unfold dispose_count. rewrite filter_app, length_app. reflexivity. Qed.

Lemma dispose_count_kept (evs : list Event) :
  Forall kept evs -> dispose_count evs = 0.
Proof.
  induction 1 as [| e evs He _ IH]; [reflexivity | ].
  unfold dispose_count in *. cbn. rewrite He. exact IH.
Qed.

(** A step that never disposes, put in front of a computation that
    disposes once exactly when it resolves, gives such a computation. *)
Lemma release_after {A B} (m : M W A) (f : A -> M W B) :
  emits kept m ->
  (forall a w, dispose_count (events (f a w))
               = match outcome (f a w) with Resolved _ => 1 | Rejected _ => 0 end) ->
  forall w, dispose_count (events (bind m f w))
            = match outcome (bind m f w) with Resolved _ => 1 | Rejected _ => 0 end.
Proof.
  intros Hm Hf w. specialize (Hm w).
  destruct (m w) as [[w1 ev1] [a | e]] eqn:E.
  - rewrite (bind_resolved _ _ _ E). cbn [events outcome fst snd] in *.
    rewrite dispose_count_app, (dispose_count_kept Hm). apply Hf.
  - rewrite (bind_rejected _ _ _ E). cbn [events outcome fst snd] in *.
    apply dispose_count_kept, Hm.
Qed.

Lemma connectSSH_keeps server : emits kept (connectSSH env server).
Proof. unfold connectSSH. emits_steps. Qed.

Lemma createBackup_keeps project : emits kept (createBackup env project).
Proof. unfold createBackup. emits_steps. Qed.

Lemma deployFromGitHub_keeps project : emits kept (deployFromGitHub env project).
Proof. unfold deployFromGitHub. emits_steps. Qed.

Lemma deployFromUpload_keeps project : emits kept (deployFromUpload env project).
Proof. unfold deployFromUpload. emits_steps. Qed.

Lemma executeProjectTypeCommands_keeps project :
  emits kept (executeProjectTypeCommands env project).
Proof. unfold executeProjectTypeCommands, typeCommands. emits_steps. Qed.

Lemma forCommands_keeps path commands : emits kept (forCommands env path commands).
Proof.
  induction commands as [| c rest IH]; cbn [forCommands].
  - apply emits_ret.
  - apply emits_bind; [ | intros _; exact IH ].
    unfold runCommand. emits_steps.
Qed.

Lemma executeCustomCommands_keeps project :
  emits kept (executeCustomCommands env project).
Proof.
  unfold executeCustomCommands.
  apply emits_bind; [ apply emits_log; reflexivity | intros _ ].
  destruct (custom_commands project).
  - apply forCommands_keeps.
  - apply emits_throw.
Qed.

End Release.

(** C2: every run of [deploy], resolved or rejected (a refused
    connection included), contains exactly one [dispose]. *)
Theorem deploy_disposes_exactly_once {W} (env : Env W) (project : Project) (w : W) :
  dispose_count (events (deploy env project w)) = 1.
Proof.
  unfold deploy.
  match goal with
  | |- context [try_catch ?body ?h] =>
      assert (Hbody : forall w0, dispose_count (events (body w0))
                = match outcome (body w0) with Resolved _ => 1 | Rejected _ => 0 end);
      [ | specialize (Hbody w); destruct (body w) as [[w1 ev1] [b | e]] eqn:E ]
  end.
  - apply release_after; [ apply emits_log; reflexivity | intros _ ].
    apply release_after; [ apply connectSSH_keeps | intros _ ].
    apply release_after; [ apply createBackup_keeps | intros _ ].
    apply release_after.
    { destruct (source_type project =? "github");
        [ apply deployFromGitHub_keeps | ].
      destruct (source_type project =? "upload");
        [ apply deployFromUpload_keeps | apply emits_ret ]. }
    intros _.
    apply release_after; [ apply executeProjectTypeCommands_keeps | intros _ ].
    apply release_after.
    { destruct (Js.truthy (custom_commands project));
        [ apply executeCustomCommands_keeps | apply emits_ret ]. }
    intros _.
    apply release_after; [ apply emits_log; reflexivity | intros _ ].
    intros w0. reflexivity.
  - rewrite (try_resolved _ _ _ E). exact Hbody.
  - rewrite (try_rejected _ _ _ E). cbn [events outcome fst snd] in *.
    rewrite dispose_count_app, Hbody. reflexivity.
Qed.

(** ** deployFromGitHub *)
Section GitHub.

Context {W : Type} (env : Env W).

Lemma code_nonzero_spec (r : ExecResult) :
  code_nonzero r = true <-> code r <> Some 0%Z.
Proof.
  unfold code_nonzero, code_zero.
  destruct (code r) as [[| z | z] |]; cbn; split; congruence.
Qed.

Lemma code_zero_spec (r : ExecResult) :
  code_nonzero r = false <-> code r = Some 0%Z.
Proof.
  unfold code_nonzero, code_zero.
  destruct (code r) as [[| z | z] |]; cbn; split; congruence.
Qed.

Variables (p : Project) (w w1 : W) (probe : ExecResult).
Hypothesis Hprobe : ssh_execCommand env (probe_command p) None w = (w1, inl probe).

Lemma pull_resolved w2 r :
  (Js.trim (stdout probe) =? "exists") = true ->
  ssh_execCommand env (pull_command p) None w1 = (w2, inl r) ->
  deployFromGitHub env p w
  = (w2,
     [ConsoleLog ("Deploying from GitHub: " ++ Js.show (source_url p));
      ExecCommand (probe_command p) None;
      ConsoleLog "Pulling latest changes...";
      ExecCommand (pull_command p) None]
       ++ (if code_nonzero r then []
           else [ConsoleLog ("Git pull output: " ++ stdout r)]),
     if code_nonzero r
     then Rejected (Error ("Git pull failed: " ++ stderr r))
     else Resolved tt)%list.
Proof.
  intros Hex Hpull. unfold deployFromGitHub.
  destruct (code_nonzero r) eqn:Hc; run_eq.
Qed.

Lemma pull_rejected w2 msg :
  (Js.trim (stdout probe) =? "exists") = true ->
  ssh_execCommand env (pull_command p) None w1 = (w2, inr msg) ->
  deployFromGitHub env p w
  = (w2,
     [ConsoleLog ("Deploying from GitHub: " ++ Js.show (source_url p));
      ExecCommand (probe_command p) None;
      ConsoleLog "Pulling latest changes...";
      ExecCommand (pull_command p) None],
     Rejected (SessionFailure msg)).
Proof. intros Hex Hpull. unfold deployFromGitHub. run_eq. Qed.

Lemma clone_resolved w2 r0 w3 r :
  (Js.trim (stdout probe) =? "exists") = false ->
  ssh_execCommand env ("mkdir -p " ++ deploy_path p) None w1 = (w2, inl r0) ->
  ssh_execCommand env (clone_command p) None w2 = (w3, inl r) ->
  deployFromGitHub env p w
  = (w3,
     [ConsoleLog ("Deploying from GitHub: " ++ Js.show (source_url p));
      ExecCommand (probe_command p) None;
      ConsoleLog "Cloning repository...";
      ExecCommand ("mkdir -p " ++ deploy_path p) None;
      ExecCommand (clone_command p) None]
       ++ (if code_nonzero r then []
           else [ConsoleLog ("Git clone output: " ++ stdout r)]),
     if code_nonzero r
     then Rejected (Error ("Git clone failed: " ++ stderr r))
     else Resolved tt)%list.
Proof.
  intros Hex Hmk Hclone. unfold deployFromGitHub.
  destruct (code_nonzero r) eqn:Hc; run_eq.
Qed.

Lemma clone_rejected w2 r0 w3 msg :
  (Js.trim (stdout probe) =? "exists") = false ->
  ssh_execCommand env ("mkdir -p " ++ deploy_path p) None w1 = (w2, inl r0) ->
  ssh_execCommand env (clone_command p) None w2 = (w3, inr msg) ->
  deployFromGitHub env p w
  = (w3,
     [ConsoleLog ("Deploying from GitHub: " ++ Js.show (source_url p));
      ExecCommand (probe_command p) None;
      ConsoleLog "Cloning repository...";
      ExecCommand ("mkdir -p " ++ deploy_path p) None;
      ExecCommand (clone_command p) None],
     Rejected (SessionFailure msg)).
Proof. intros Hex Hmk Hclone. unfold deployFromGitHub. run_eq. Qed.

Lemma mkdir_rejected w2 msg :
  (Js.trim (stdout probe) =? "exists") = false ->
  ssh_execCommand env ("mkdir -p " ++ deploy_path p) None w1 = (w2, inr msg) ->
  deployFromGitHub env p w
  = (w2,
     [ConsoleLog ("Deploying from GitHub: " ++ Js.show (source_url p));
      ExecCommand (probe_command p) None;
      ConsoleLog "Cloning repository...";
      ExecCommand ("mkdir -p " ++ deploy_path p) None],
     Rejected (SessionFailure msg)).
Proof. intros Hex Hmk. unfold deployFromGitHub. run_eq. Qed.

(** When the probe answers [exists] the run pulls, and throws its own
    error exactly for a pull that came back with a non-zero status. *)
Lemma pull_branch :
  Js.trim (stdout probe) = "exists" ->
  commands_run (events (deployFromGitHub env p w))
  = [ExecCommand (probe_command p) None; ExecCommand (pull_command p) None]
  /\ (forall msg,
        outcome (deployFromGitHub env p w) = Rejected (Error msg) <->
        exists w2 r,
          ssh_execCommand env (pull_command p) None w1 = (w2, inl r)
          /\ code r <> Some 0%Z /\ msg = "Git pull failed: " ++ stderr r)
  /\ (outcome (deployFromGitHub env p w) = Resolved tt <->
      exists w2 r,
        ssh_execCommand env (pull_command p) None w1 = (w2, inl r)
        /\ code r = Some 0%Z).
Proof.
  intros Hex. apply String.eqb_eq in Hex.
  destruct (ssh_execCommand env (pull_command p) None w1) as [w2 [r | m]] eqn:Hpull.
  - rewrite (pull_resolved Hex Hpull).
    destruct (code_nonzero r) eqn:Hc; run_simpl.
    + apply code_nonzero_spec in Hc.
      split; [reflexivity | split; [intros msg | ]; split].
      * intros H. injection H as <-. eauto.
      * intros (w2' & r' & Heq & _ & ->). injection Heq as <- <-. reflexivity.
      * discriminate.
      * intros (w2' & r' & Heq & Hz). injection Heq as <- <-. contradiction.
    + apply code_zero_spec in Hc.
      split; [reflexivity | split; [intros msg | ]; split].
      * discriminate.
      * intros (w2' & r' & Heq & Hnz & _). injection Heq as <- <-. contradiction.
      * eauto.
      * reflexivity.
  - rewrite (pull_rejected Hex Hpull). run_simpl.
    split; [reflexivity | split; [intros msg | ]; split];
      try discriminate; intros (w2' & r' & Heq & _); discriminate.
Qed.

(** When the probe answers anything else the run creates the deploy
    root and, once that call is back, clones; it throws its own error
    exactly for a clone that came back with a non-zero status. *)
Lemma clone_branch :
  Js.trim (stdout probe) <> "exists" ->
  (exists rest,
      commands_run (events (deployFromGitHub env p w))
      = ExecCommand (probe_command p) None
          :: ExecCommand ("mkdir -p " ++ deploy_path p) None :: rest)
  /\ forall w2 r0,
      ssh_execCommand env ("mkdir -p " ++ deploy_path p) None w1 = (w2, inl r0) ->
      commands_run (events (deployFromGitHub env p w))
      = [ExecCommand (probe_command p) None;
         ExecCommand ("mkdir -p " ++ deploy_path p) None;
         ExecCommand (clone_command p) None]
      /\ (forall msg,
            outcome (deployFromGitHub env p w) = Rejected (Error msg) <->
            exists w3 r,
              ssh_execCommand env (clone_command p) None w2 = (w3, inl r)
              /\ code r <> Some 0%Z /\ msg = "Git clone failed: " ++ stderr r)
      /\ (outcome (deployFromGitHub env p w) = Resolved tt <->
          exists w3 r,
            ssh_execCommand env (clone_command p) None w2 = (w3, inl r)
            /\ code r = Some 0%Z).
Proof.
  intros Hex. apply String.eqb_neq in Hex.
  assert (Hgen : forall w2 r0,
    ssh_execCommand env ("mkdir -p " ++ deploy_path p) None w1 = (w2, inl r0) ->
    commands_run (events (deployFromGitHub env p w))
    = [ExecCommand (probe_command p) None;
       ExecCommand ("mkdir -p " ++ deploy_path p) None;
       ExecCommand (clone_command p) None]
    /\ (forall msg,
          outcome (deployFromGitHub env p w) = Rejected (Error msg) <->
          exists w3 r,
            ssh_execCommand env (clone_command p) None w2 = (w3, inl r)
            /\ code r <> Some 0%Z /\ msg = "Git clone failed: " ++ stderr r)
    /\ (outcome (deployFromGitHub env p w) = Resolved tt <->
        exists w3 r,
          ssh_execCommand env (clone_command p) None w2 = (w3, inl r)
          /\ code r = Some 0%Z)).
  { intros w2 r0 Hmk.
    destruct (ssh_execCommand env (clone_command p) None w2) as [w3 [r | m]] eqn:Hcl.
    - rewrite (clone_resolved Hex Hmk Hcl).
      destruct (code_nonzero r) eqn:Hc; run_simpl.
      + apply code_nonzero_spec in Hc.
        split; [reflexivity | split; [intros msg | ]; split].
        * intros H. injection H as <-. eauto.
        * intros (w3' & r' & Heq & _ & ->). injection Heq as <- <-. reflexivity.
        * discriminate.
        * intros (w3' & r' & Heq & Hz). injection Heq as <- <-. contradiction.
      + apply code_zero_spec in Hc.
        split; [reflexivity | split; [intros msg | ]; split].
        * discriminate.
        * intros (w3' & r' & Heq & Hnz & _). injection Heq as <- <-. contradiction.
        * eauto.
        * reflexivity.
    - rewrite (clone_rejected Hex Hmk Hcl). run_simpl.
      split; [reflexivity | split; [intros msg | ]; split];
        try discriminate; intros (w3' & r' & Heq & _); discriminate. }
  split; [ | exact Hgen ].
  destruct (ssh_execCommand env ("mkdir -p " ++ deploy_path p) None w1)
    as [w2 [r0 | m]] eqn:Hmk.
  - destruct (Hgen w2 r0 eq_refl) as [-> _]. eauto.
  - rewrite (mkdir_rejected Hex Hmk). run_simpl. eauto.
Qed.

End GitHub.

(** C3: in github mode, once the probe of the target directory is back:
    if it answers [exists] the only further command is the pull (branch
    [main], else [master]), no clone, and the run throws
    [Git pull failed: <stderr>] if and only if the pull came back with a
    non-zero status; otherwise it creates the deploy root, then clones
    the source URL into a directory named after the project, and throws
    [Git clone failed: <stderr>] if and only if the clone came back with
    a non-zero status. *)
Theorem deployFromGitHub_pulls_or_clones {W} (env : Env W) (p : Project)
        (w w1 : W) (probe : ExecResult) :
  ssh_execCommand env (probe_command p) None w = (w1, inl probe) ->
  probe_command p
  = "test -d " ++ Path.join (deploy_path p) (name p) ++ " && echo " ++ dq
      ++ "exists" ++ dq ++ " || echo " ++ dq ++ "not found" ++ dq
  /\ (Js.trim (stdout probe) = "exists" ->
      let pull := "cd " ++ Path.join (deploy_path p) (name p)
                    ++ " && git pull origin main || git pull origin master" in
      commands_run (events (deployFromGitHub env p w))
      = [ExecCommand (probe_command p) None; ExecCommand pull None]
      /\ (forall msg,
            outcome (deployFromGitHub env p w) = Rejected (Error msg) <->
            exists w2 r,
              ssh_execCommand env pull None w1 = (w2, inl r)
              /\ code r <> Some 0%Z /\ msg = "Git pull failed: " ++ stderr r)
      /\ (outcome (deployFromGitHub env p w) = Resolved tt <->
          exists w2 r,
            ssh_execCommand env pull None w1 = (w2, inl r) /\ code r = Some 0%Z))
  /\ (Js.trim (stdout probe) <> "exists" ->
      let mkdir := "mkdir -p " ++ deploy_path p in
      let clone := "cd " ++ deploy_path p ++ " && git clone "
                     ++ Js.show (source_url p) ++ " " ++ name p in
      (exists rest,
          commands_run (events (deployFromGitHub env p w))
          = ExecCommand (probe_command p) None :: ExecCommand mkdir None :: rest)
      /\ forall w2 r0,
          ssh_execCommand env mkdir None w1 = (w2, inl r0) ->
          commands_run (events (deployFromGitHub env p w))
          = [ExecCommand (probe_command p) None; ExecCommand mkdir None;
             ExecCommand clone None]
          /\ (forall msg,
                outcome (deployFromGitHub env p w) = Rejected (Error msg) <->
                exists w3 r,
                  ssh_execCommand env clone None w2 = (w3, inl r)
                  /\ code r <> Some 0%Z /\ msg = "Git clone failed: " ++ stderr r)
          /\ (outcome (deployFromGitHub env p w) = Resolved tt <->
              exists w3 r,
                ssh_execCommand env clone None w2 = (w3, inl r)
                /\ code r = Some 0%Z)).
Proof.
  intros Hprobe. split; [reflexivity | split].
  - intros Hex. cbv zeta. eapply pull_branch; eassumption.
  - intros Hex. cbv zeta. eapply clone_branch; eassumption.
Qed.

(** ** deployFromUpload *)
Section Upload.

Context {W : Type} (env : Env W).

Lemma extraction_command_cases (ext staged target : string) :
  extraction_command (extraction_for ext) staged target
  = if ext =? ".zip" then "unzip -o " ++ staged ++ " -d " ++ target
    else if (ext =? ".tar") || (ext =? ".gz") || (ext =? ".tgz")
         then "tar -xzf " ++ staged ++ " -C " ++ target
         else "cp " ++ staged ++ " " ++ target ++ "/".
Proof.
  unfold extraction_for.
  destruct (ext =? ".zip"); [reflexivity | ].
  destruct ((ext =? ".tar") || (ext =? ".gz") || (ext =? ".tgz")); reflexivity.
Qed.

(** The three branches are told apart by the extension alone. *)
Lemma extraction_for_cases (ext : string) :
  (extraction_for ext = Unzip <-> ext = ".zip")
  /\ (extraction_for ext = TarExtract <->
      ext = ".tar" \/ ext = ".gz" \/ ext = ".tgz")
  /\ (extraction_for ext = CopyFile <->
      ext <> ".zip" /\ ext <> ".tar" /\ ext <> ".gz" /\ ext <> ".tgz").
Proof.
  unfold extraction_for.
  destruct (String.eqb_spec ext ".zip") as [-> | Hz].
  { cbn. repeat split; try congruence; try discriminate.
    - intros [H | [H | H]]; discriminate.
    - intros (H & _). congruence. }
  destruct (String.eqb_spec ext ".tar") as [-> | Ht].
  { cbn. repeat split; try congruence; try discriminate; auto.
    intros (_ & H & _). congruence. }
  destruct (String.eqb_spec ext ".gz") as [-> | Hg].
  { cbn. repeat split; try congruence; try discriminate; auto.
    intros (_ & _ & H & _). congruence. }
  destruct (String.eqb_spec ext ".tgz") as [-> | Hgz].
  { cbn. repeat split; try congruence; try discriminate; auto.
    intros (_ & _ & _ & H). congruence. }
  cbn. repeat split; try congruence; try discriminate; auto.
  intros [H | [H | H]]; congruence.
Qed.

End Upload.

(** Replaces the run of [deployFromUpload] in the goal by its result,
    computed from the hypotheses; [Hsrc] gives the source path. *)
Ltac upload_run Hsrc :=
  unfold deployFromUpload; cbv zeta; rewrite Hsrc;
  rewrite extraction_command_cases;
  match goal with
  | |- context [session_calls (events ?r)] =>
      let H := fresh "Hrun" in
      eassert (H : r = _) by run_steps;
      rewrite H; clear H
  end.

(** C5: an upload-mode acquisition makes its session calls in one fixed
    order: create the target directory, transfer the file to [/tmp],
    run one extraction command, remove the staged file.  The extraction
    command is [unzip -o] for the (lower-cased) extension [.zip],
    [tar -xzf] for [.tar], [.gz] and [.tgz], and [cp] for anything else;
    no run issues two of them.  Once the directory creation and the
    transfer are back the extraction command is issued, and once it is
    back, whatever its exit status and output, the staged file is
    removed. *)
Theorem deployFromUpload_dispatch {W} (env : Env W) (p : Project)
        (sourcePath : string) (w : W) :
  source_path p = Some sourcePath ->
  let target := Path.join (deploy_path p) (name p) in
  let staged := "/tmp/" ++ Path.basename sourcePath in
  let ext := Js.toLowerCase (Path.extname sourcePath) in
  let extract :=
    if ext =? ".zip" then "unzip -o " ++ staged ++ " -d " ++ target
    else if (ext =? ".tar") || (ext =? ".gz") || (ext =? ".tgz")
         then "tar -xzf " ++ staged ++ " -C " ++ target
         else "cp " ++ staged ++ " " ++ target ++ "/" in
  let plan := [ExecCommand ("mkdir -p " ++ target) None;
               PutFile sourcePath staged;
               ExecCommand extract None;
               ExecCommand ("rm " ++ staged) None] in
  (exists n, session_calls (events (deployFromUpload env p w)) = firstn n plan)
  /\ (forall w1 r1 w2,
        ssh_execCommand env ("mkdir -p " ++ target) None w = (w1, inl r1) ->
        ssh_putFile env sourcePath staged w1 = (w2, None) ->
        exists rest,
          session_calls (events (deployFromUpload env p w))
          = ExecCommand ("mkdir -p " ++ target) None
              :: PutFile sourcePath staged :: ExecCommand extract None :: rest)
  /\ (forall w1 r1 w2 w3 r3,
        ssh_execCommand env ("mkdir -p " ++ target) None w = (w1, inl r1) ->
        ssh_putFile env sourcePath staged w1 = (w2, None) ->
        ssh_execCommand env extract None w2 = (w3, inl r3) ->
        session_calls (events (deployFromUpload env p w)) = plan).
Proof.
  intros Hsrc target staged ext extract plan.
  assert (Hfull : forall w1 r1 w2 w3 r3,
        ssh_execCommand env ("mkdir -p " ++ target) None w = (w1, inl r1) ->
        ssh_putFile env sourcePath staged w1 = (w2, None) ->
        ssh_execCommand env extract None w2 = (w3, inl r3) ->
        session_calls (events (deployFromUpload env p w)) = plan).
  { intros w1 r1 w2 w3 r3 Hmk Hput Hext.
    destruct (ssh_execCommand env ("rm " ++ staged) None w3) as [w4 [r4 | m4]] eqn:Hrm;
      upload_run Hsrc; reflexivity. }
  assert (Hmid : forall w1 r1 w2,
        ssh_execCommand env ("mkdir -p " ++ target) None w = (w1, inl r1) ->
        ssh_putFile env sourcePath staged w1 = (w2, None) ->
        exists rest,
          session_calls (events (deployFromUpload env p w))
          = ExecCommand ("mkdir -p " ++ target) None
              :: PutFile sourcePath staged :: ExecCommand extract None :: rest).
  { intros w1 r1 w2 Hmk Hput.
    destruct (ssh_execCommand env extract None w2) as [w3 [r3 | m3]] eqn:Hext.
    - rewrite (Hfull _ _ _ _ _ Hmk Hput Hext). eexists. reflexivity.
    - upload_run Hsrc. eexists. reflexivity. }
  split; [ | split; [exact Hmid | exact Hfull] ].
  destruct (ssh_execCommand env ("mkdir -p " ++ target) None w) as [w1 [r1 | m1]] eqn:Hmk.
  - destruct (ssh_putFile env sourcePath staged w1) as [w2 [m2 | ]] eqn:Hput.
    + exists 2. upload_run Hsrc. reflexivity.
    + destruct (ssh_execCommand env extract None w2) as [w3 [r3 | m3]] eqn:Hext.
      * exists 4. apply (Hfull _ _ _ _ _ eq_refl Hput Hext).
      * exists 3. upload_run Hsrc. reflexivity.
  - exists 1. upload_run Hsrc. reflexivity.
Qed.

(** ** Environments whose calls come back *)
Section Resolving.

Context {W : Type} (env : Env W).

Lemma resolves_ret {A} (Q : A -> Prop) a : Q a -> resolves Q (@ret W A a).
Proof. intros H w. exists w, [], a. split; [reflexivity | exact H]. Qed.

Lemma resolves_log (Q : unit -> Prop) text :
  Q tt -> resolves Q (@console_log W text).
Proof. intros H w. exists w, [ConsoleLog text], tt. split; [reflexivity | exact H]. Qed.

Lemma resolves_error (Q : unit -> Prop) text cause :
  Q tt -> resolves Q (@console_error W text cause).
Proof.
  intros H w. exists w, [ConsoleError text cause], tt.
  split; [reflexivity | exact H].
Qed.

Lemma resolves_bind {A B} (Q : B -> Prop) (m : M W A) (f : A -> M W B) :
  resolves (fun _ => True) m -> (forall a, resolves Q (f a)) ->
  resolves Q (bind m f).
Proof.
  intros Hm Hf w.
  destruct (Hm w) as (w1 & ev1 & a & E1 & _).
  destruct (Hf a w1) as (w2 & ev2 & b & E2 & Hb).
  exists w2, (ev1 ++ ev2)%list, b. split; [ | exact Hb].
  eapply run_bind_ok; eassumption.
Qed.

Lemma resolves_weaken {A} (Q : A -> Prop) (m : M W A) :
  resolves Q m -> resolves (fun _ => True) m.
Proof.
  intros H w. destruct (H w) as (w1 & ev1 & a & E & _). exists w1, ev1, a. auto.
Qed.

Lemma resolves_exec command cwd :
  exec_returns env -> resolves (fun _ => True) (execCommand env command cwd).
Proof.
  intros Hret w. destruct (Hret command cwd w) as (w' & r & E).
  exists w', [ExecCommand command cwd], r. split; [ | exact I].
  apply run_exec_ok, E.
Qed.

Lemma resolves_connect config :
  connect_returns env -> resolves (fun _ => True) (connect env config).
Proof.
  intros Hret w. destruct (Hret config w) as (w' & E).
  exists w', [Connect config], tt. split; [ | exact I].
  apply run_connect_ok, E.
Qed.

Lemma typeCommands_resolves project :
  exec_returns env -> resolves (fun _ => True) (typeCommands env project).
Proof.
  intros Hret. unfold typeCommands.
  repeat first
    [ apply resolves_bind; [ | intros ? ]
    | apply resolves_exec; assumption
    | apply resolves_log; exact I
    | apply resolves_ret; exact I
    | match goal with
      | |- resolves _ (if ?c then _ else _) => destruct c
      end ].
Qed.

(** The build step from a world [w]: the type commands, then [chmod]. *)
Lemma build_run project w :
  exec_returns env ->
  exists w2 evs,
    executeProjectTypeCommands env project w
    = (w2,
       ([ConsoleLog ("Executing " ++ project_type project ++ " specific commands...")]
          ++ evs ++ [ExecCommand (chmod_command project) None] ++ [])%list,
       Resolved tt).
Proof.
  intros Hret.
  destruct (typeCommands_resolves project Hret w) as (w1 & ev1 & [] & Ht & _).
  destruct (Hret (chmod_command project) None w1) as (w2 & r & Hch).
  exists w2, ev1. unfold executeProjectTypeCommands.
  eapply run_bind_ok; [apply run_log | ].
  eapply run_bind_ok; [exact Ht | ].
  eapply run_bind_ok; [apply run_exec_ok, Hch | reflexivity].
Qed.

Lemma build_resolves project w :
  exec_returns env ->
  outcome (executeProjectTypeCommands env project w) = Resolved tt.
Proof.
  intros Hret. destruct (build_run project w Hret) as (w2 & evs & ->). reflexivity.
Qed.

End Resolving.

(** C7: whatever the project type, and whatever exit status the
    per-type commands come back with, [executeProjectTypeCommands]
    resolves, and the last command it runs is the recursive
    [chmod -R 755] of the deployed directory. *)
Theorem build_always_normalizes_permissions {W} (env : Env W) (p : Project) (w : W) :
  exec_returns env ->
  outcome (executeProjectTypeCommands env p w) = Resolved tt
  /\ exists before,
      commands_run (events (executeProjectTypeCommands env p w))
      = (before ++ [ExecCommand ("chmod -R 755 "
                                   ++ Path.join (deploy_path p) (name p)) None])%list.
Proof.
  intros Hret.
  destruct (build_run p w Hret) as (w2 & ev1 & Hrun).
  rewrite Hrun. split; [reflexivity | ].
  exists (commands_run ev1). unfold commands_run. cbn [events fst snd].
  rewrite !filter_app. reflexivity.
Qed.

(** ** White space and [trim] *)
Section Trim.

Lemma trimStart_empty (s : string) :
  Js.trimStart s = "" <-> Js.all_ws s = true.
Proof.
  induction s as [| c rest IH]; cbn.
  - split; reflexivity.
  - destruct (Js.is_ws c); cbn.
    + exact IH.
    + split; discriminate.
Qed.

Lemma all_ws_trimStart (s : string) :
  Js.all_ws (Js.trimStart s) = Js.all_ws s.
Proof.
  induction s as [| c rest IH]; cbn; [reflexivity | ].
  destruct (Js.is_ws c) eqn:E; cbn; [exact IH | rewrite E; reflexivity].
Qed.

Lemma rev_string_empty (s acc : string) :
  Js.rev_string s acc = "" <-> s = "" /\ acc = "".
Proof.
  revert acc. induction s as [| c rest IH]; intros acc; cbn.
  - split; [auto | intros [_ H]; exact H].
  - rewrite IH. split; [intros [_ H]; discriminate | intros [H _]; discriminate].
Qed.

Lemma all_ws_rev_string (s acc : string) :
  Js.all_ws (Js.rev_string s acc) = Js.all_ws s && Js.all_ws acc.
Proof.
  revert acc. induction s as [| c rest IH]; intros acc; cbn; [reflexivity | ].
  rewrite IH. cbn. destruct (Js.is_ws c), (Js.all_ws rest); reflexivity.
Qed.

Lemma trimEnd_empty (s : string) :
  Js.trimEnd s = "" <-> Js.all_ws s = true.
Proof.
  unfold Js.trimEnd. rewrite rev_string_empty, trimStart_empty, all_ws_rev_string.
  cbn. rewrite andb_true_r. tauto.
Qed.

(** [cmd.trim()] is falsy exactly for a line of white space only. *)
Lemma trim_falsy (s : string) :
  Js.truthy_str (Js.trim s) = negb (Js.all_ws s).
Proof.
  unfold Js.truthy_str, Js.trim. f_equal.
  destruct (String.eqb_spec (Js.trimEnd (Js.trimStart s)) "") as [E | E];
    rewrite trimEnd_empty, all_ws_trimStart in E.
  - symmetry. exact E.
  - destruct (Js.all_ws s); congruence.
Qed.

Lemma command_lines_spec (text : string) :
  command_lines text
  = filter (fun line => negb (Js.all_ws line)) (Js.split newline text).
Proof.
  unfold command_lines. apply filter_ext. intros line. apply trim_falsy.
Qed.

End Trim.

(** ** executeCustomCommands *)
Section Custom.

Context {W : Type} (env : Env W).

Lemma commands_run_app (a b : list Event) :
  commands_run (a ++ b) = (commands_run a ++ commands_run b)%list.
Proof. apply filter_app. Qed.

Lemma runCommand_failed path command w w1 r :
  ssh_execCommand env command (Some path) w = (w1, inl r) ->
  code r <> Some 0%Z ->
  runCommand env path command w
  = (w1,
     [ConsoleLog ("Executing: " ++ command);
      ExecCommand command (Some path);
      ConsoleError ("Command failed: " ++ stderr r) None],
     Resolved tt).
Proof.
  intros Hexec Hc. apply code_nonzero_spec in Hc. unfold runCommand. run_eq.
Qed.

Lemma runCommand_succeeded path command w w1 r :
  ssh_execCommand env command (Some path) w = (w1, inl r) ->
  code r = Some 0%Z ->
  runCommand env path command w
  = (w1,
     [ConsoleLog ("Executing: " ++ command);
      ExecCommand command (Some path);
      ConsoleLog ("Command output: " ++ stdout r)],
     Resolved tt).
Proof.
  intros Hexec Hc. apply code_zero_spec in Hc. unfold runCommand. run_eq.
Qed.

(** One turn of the loop, for a command that came back. *)
Lemma runCommand_returns path command w w1 r :
  ssh_execCommand env command (Some path) w = (w1, inl r) ->
  exists note,
    runCommand env path command w
    = (w1,
       [ConsoleLog ("Executing: " ++ command); ExecCommand command (Some path); note],
       Resolved tt)
    /\ is_exec note = false.
Proof.
  intros Hexec. destruct (code_nonzero r) eqn:Hc.
  - apply code_nonzero_spec in Hc. eexists. split.
    + eapply runCommand_failed; eassumption.
    + reflexivity.
  - apply code_zero_spec in Hc. eexists. split.
    + eapply runCommand_succeeded; eassumption.
    + reflexivity.
Qed.

Lemma forCommands_runs_all path commands :
  exec_returns env ->
  forall w,
    outcome (forCommands env path commands w) = Resolved tt
    /\ commands_run (events (forCommands env path commands w))
       = map (fun c => ExecCommand c (Some path)) commands.
Proof.
  intros Hret. induction commands as [| c rest IH]; intros w.
  - split; reflexivity.
  - destruct (Hret c (Some path) w) as (w1 & r & Hexec).
    destruct (runCommand_returns _ _ _ Hexec) as (note & Hrun & Hnote).
    cbn [forCommands]. rewrite (bind_resolved _ _ _ Hrun).
    cbn [events outcome fst snd]. destruct (IH w1) as [Ho Hc].
    split; [exact Ho | ].
    rewrite commands_run_app, Hc. unfold commands_run. cbn [filter is_exec].
    rewrite Hnote. reflexivity.
Qed.

End Custom.

(** C8: with the custom-command field [text], the runner executes, in
    order and with the deployed directory as working directory, exactly
    the lines of [text] (split on newlines) that are not made of white
    space only, and resolves, whatever exit status the commands come back
    with; a command that comes back with a non-zero status is logged as
    failed and the loop goes on with the commands after it. *)
Theorem executeCustomCommands_runs_every_line {W} (env : Env W) (p : Project)
        (text : string) (w : W) :
  exec_returns env ->
  custom_commands p = Some text ->
  let path := Path.join (deploy_path p) (name p) in
  let lines := filter (fun line => negb (Js.all_ws line)) (Js.split newline text) in
  command_lines text = lines
  /\ commands_run (events (executeCustomCommands env p w))
     = map (fun c => ExecCommand c (Some path)) lines
  /\ outcome (executeCustomCommands env p w) = Resolved tt
  /\ forall c rest w0 w1 r,
      ssh_execCommand env c (Some path) w0 = (w1, inl r) ->
      code r <> Some 0%Z ->
      forCommands env path (c :: rest) w0
      = (world (forCommands env path rest w1),
         ([ConsoleLog ("Executing: " ++ c);
           ExecCommand c (Some path);
           ConsoleError ("Command failed: " ++ stderr r) None]
            ++ events (forCommands env path rest w1))%list,
         outcome (forCommands env path rest w1)).
Proof.
  intros Hret Htext path lines.
  assert (Hlines : command_lines text = lines) by apply command_lines_spec.
  destruct (forCommands_runs_all path lines Hret w) as [Ho Hc].
  assert (Hrun : executeCustomCommands env p w
                 = (world (forCommands env path lines w),
                    ([ConsoleLog "Executing custom commands..."]
                       ++ events (forCommands env path lines w))%list,
                    outcome (forCommands env path lines w))).
  { unfold executeCustomCommands. rewrite Htext, Hlines.
    rewrite (bind_resolved _ _ _ (run_log _ w)). reflexivity. }
  split; [exact Hlines | ].
  rewrite Hrun. cbn [events outcome fst snd]. split; [ | split; [exact Ho | ] ].
  - rewrite commands_run_app. exact Hc.
  - intros c rest w0 w1 r Hexec Hcode. cbn [forCommands].
    erewrite bind_resolved by (eapply runCommand_failed; eassumption).
    reflexivity.
Qed.

(** ** Who throws *)
Section Throwing.

Context {W : Type} (env : Env W).

Lemma throws_only_ret {A} P (a : A) : throws_only P (@ret W A a).
Proof. intros w e H. discriminate. Qed.


Lemma throws_only_log P text : throws_only P (@console_log W text).
Proof. intros w e H. discriminate. Qed.

Lemma throws_only_bind {A B} P (m : M W A) (f : A -> M W B) :
  throws_only P m -> (forall a, throws_only P (f a)) -> throws_only P (bind m f).
Proof.
  intros Hm Hf w e.
  destruct (m w) as [[w1 ev1] [a | e1]] eqn:E.
  - rewrite (bind_resolved _ _ _ E). cbn [outcome snd]. apply Hf.
  - rewrite (bind_rejected _ _ _ E). cbn [outcome snd].
    intros H. injection H as <-. apply (Hm w). rewrite E. reflexivity.
Qed.

(** A handler that rethrows adds no error of its own. *)
Lemma throws_only_rethrow {A} (P : JsError -> Prop) (m : M W A) h :
  throws_only P m -> (forall e, P e -> throws_only P (h e)) ->
  throws_only P (try_catch m h).
Proof.
  intros Hm Hh w e.
  destruct (m w) as [[w1 ev1] [a | e1]] eqn:E.
  - rewrite (try_resolved _ _ _ E). discriminate.
  - rewrite (try_rejected _ _ _ E). cbn [outcome snd].
    apply Hh. apply (Hm w). rewrite E. reflexivity.
Qed.

Lemma throws_only_exec command cwd :
  throws_only from_session (execCommand env command cwd).
Proof.
  intros w e. unfold execCommand.
  destruct (ssh_execCommand env command cwd w) as [w' [r | msg]]; cbn.
  - discriminate.
  - intros H. injection H as <-. exists msg. reflexivity.
Qed.

Lemma throws_only_connect config :
  throws_only from_session (connect env config).
Proof.
  intros w e. unfold connect.
  destruct (ssh_connect env config w) as [w' [msg | ]]; cbn.
  - intros H. injection H as <-. exists msg. reflexivity.
  - discriminate.
Qed.

Lemma createBackup_throws_nothing P project :
  throws_only P (createBackup env project).
Proof. intros w e H. rewrite createBackup_outcome in H. discriminate. Qed.

Lemma build_throws_session_only project :
  throws_only from_session (executeProjectTypeCommands env project).
Proof.
  unfold executeProjectTypeCommands, typeCommands.
  repeat first
    [ apply throws_only_bind; [ | intros ? ]
    | apply throws_only_exec
    | apply throws_only_log
    | apply throws_only_ret
    | match goal with
      | |- throws_only _ (if ?c then _ else _) => destruct c
      end ].
Qed.

Lemma forCommands_throws_session_only path commands :
  throws_only from_session (forCommands env path commands).
Proof.
  induction commands as [| c rest IH]; cbn [forCommands].
  - apply throws_only_ret.
  - apply throws_only_bind; [ | intros _; exact IH ].
    unfold runCommand.
    apply throws_only_bind; [ apply throws_only_log | intros _ ].
    apply throws_only_bind; [ apply throws_only_exec | intros r ].
    destruct (code_nonzero r); intros w e H; discriminate.
Qed.

(** The guarded call of the runner in [deploy]. *)
Lemma guarded_custom_throws_session_only project :
  throws_only from_session
    (if Js.truthy (custom_commands project)
     then executeCustomCommands env project else ret tt).
Proof.
  unfold executeCustomCommands.
  destruct (custom_commands project) as [text | ]; cbn [Js.truthy].
  - destruct (negb (text =? "")); [ | apply throws_only_ret ].
    apply throws_only_bind; [ apply throws_only_log | intros _ ].
    apply forCommands_throws_session_only.
  - apply throws_only_ret.
Qed.

(** Congruences of sequencing, pointwise. *)
Lemma bind_ext {A B} (m : M W A) (f g : A -> M W B) :
  (forall a w, f a w = g a w) -> forall w, bind m f w = bind m g w.
Proof.
  intros H w. unfold bind. destruct (m w) as [[w1 ev1] [a | e]]; [ | reflexivity].
  rewrite H. reflexivity.
Qed.

Lemma try_catch_ext {A} (m m' : M W A) h :
  (forall w, m w = m' w) -> forall w, try_catch m h w = try_catch m' h w.
Proof. intros H w. unfold try_catch. rewrite H. reflexivity. Qed.

Lemma bind_ret_l {A B} (a : A) (f : A -> M W B) w : bind (ret a) f w = f a w.
Proof. unfold bind, ret. destruct (f a w) as [[w2 ev2] r]. reflexivity. Qed.

Lemma resolves_of_outcome {A} (m : M W A) a0 :
  (forall w, outcome (m w) = Resolved a0) -> resolves (fun _ => True) m.
Proof.
  intros H w. specialize (H w). destruct (m w) as [[w1 ev1] o]. cbn in H. subst o.
  exists w1, ev1, a0. auto.
Qed.

End Throwing.

(** C9: for a [source_type] that is neither [github] nor [upload],
    [deploy] is the pipeline without any acquisition step: connect,
    backup, per-type commands, custom commands, dispose.  The service
    throws nothing of its own for the unknown mode (only a rejected
    session call can fail the run), and the run resolves to [true] when
    the connection is accepted and the commands come back. *)
Theorem deploy_unrecognized_source_type {W} (env : Env W) (p : Project) (w : W) :
  source_type p <> "github" ->
  source_type p <> "upload" ->
  deploy env p w
  = try_catch
      (console_log ("Starting deployment for project: " ++ name p);;
       connectSSH env (server p);;
       createBackup env p;;
       executeProjectTypeCommands env p;;
       (if Js.truthy (custom_commands p)
        then executeCustomCommands env p else ret tt);;
       console_log ("Deployment completed for project: " ++ name p);;
       dispose env;;
       ret true)%js
      (fun error =>
         (console_error ("Deployment failed for project " ++ name p ++ ":")
                        (Some error);;
          dispose env;;
          throw error)%js) w
  /\ (forall e, outcome (deploy env p w) = Rejected e ->
                exists msg, e = SessionFailure msg)
  /\ (connect_returns env -> exec_returns env ->
      outcome (deploy env p w) = Resolved true).
Proof.
  intros Hg Hu. apply String.eqb_neq in Hg, Hu.
  match goal with
  | |- ?l = ?r /\ _ => assert (Heq : l = r)
  end.
  { unfold deploy. rewrite Hg, Hu.
    apply try_catch_ext. intros w0.
    apply bind_ext. intros _ w1.
    apply bind_ext. intros _ w2.
    apply bind_ext. intros _ w3.
    rewrite bind_ret_l. reflexivity. }
  split; [exact Heq | ]. rewrite Heq. clear Heq. split.
  - intros e.
    match goal with
    | |- outcome (try_catch ?m ?h w) = _ -> _ =>
        apply (@throws_only_rethrow W bool from_session m h)
    end.
    + apply throws_only_bind; [ apply throws_only_log | intros _ ].
      apply throws_only_bind.
      { unfold connectSSH.
        apply throws_only_bind; [ apply throws_only_connect | intros _ ].
        apply throws_only_log. }
      intros _.
      apply throws_only_bind; [ apply createBackup_throws_nothing | intros _ ].
      apply throws_only_bind; [ apply build_throws_session_only | intros _ ].
      apply throws_only_bind; [ apply guarded_custom_throws_session_only | intros _ ].
      apply throws_only_bind; [ apply throws_only_log | intros _ ].
      intros w0 e0 H. discriminate.
    + intros e0 He0 w0 e1 H. cbn in H. injection H as <-. exact He0.
  - intros Hconn Hexec.
    match goal with
    | |- outcome (try_catch ?m ?h w) = _ =>
        assert (Hres : resolves (fun b => b = true) m)
    end.
    { apply resolves_bind; [ apply resolves_log; exact I | intros _ ].
      apply resolves_bind.
      { unfold connectSSH.
        apply resolves_bind; [ apply resolves_connect, Hconn | intros _ ].
        apply resolves_log; exact I. }
      intros _.
      apply resolves_bind.
      { apply resolves_of_outcome with (a0 := tt). intros w0.
        apply createBackup_outcome. }
      intros _.
      apply resolves_bind.
      { apply resolves_of_outcome with (a0 := tt). intros w0.
        apply build_resolves, Hexec. }
      intros _.
      apply resolves_bind.
      { destruct (custom_commands p) as [text | ] eqn:Hcc; cbn [Js.truthy].
        - destruct (negb (text =? "")); [ | apply resolves_ret; exact I ].
          unfold executeCustomCommands. rewrite Hcc.
          apply resolves_bind; [ apply resolves_log; exact I | intros _ ].
          apply resolves_of_outcome with (a0 := tt). intros w0.
          apply (forCommands_runs_all _ _ Hexec).
        - apply resolves_ret; exact I. }
      intros _.
      apply resolves_bind; [ apply resolves_log; exact I | intros _ ].
      intros w0. exists (ssh_dispose env w0), [Dispose], true. split; reflexivity. }
    destruct (Hres w) as (w1 & ev1 & b & E & ->).
    rewrite (try_resolved _ _ _ E). reflexivity.
Qed.

(** ** Runs that differ in their console output only *)
Section SameSession.

Context {W : Type} (env : Env W).

Lemma session_calls_app (a b : list Event) :
  session_calls (a ++ b) = (session_calls a ++ session_calls b)%list.
Proof. apply filter_app. Qed.

Lemma same_session_refl {A} (m : M W A) : same_session m m.
Proof. intros w. auto. Qed.

Lemma same_session_bind {A B} (m1 m2 : M W A) (f1 f2 : A -> M W B) :
  same_session m1 m2 -> (forall a, same_session (f1 a) (f2 a)) ->
  same_session (bind m1 f1) (bind m2 f2).
Proof.
  intros Hm Hf w. destruct (Hm w) as (Hw & Ho & Hs).
  destruct (m1 w) as [[w1 ev1] [a1 | e1]] eqn:E1;
    destruct (m2 w) as [[w2 ev2] [a2 | e2]] eqn:E2;
    cbn [world events outcome fst snd] in Hw, Ho, Hs; try discriminate; subst w2.
  - injection Ho as <-.
    rewrite (bind_resolved _ _ _ E1), (bind_resolved _ _ _ E2).
    cbn [world events outcome fst snd].
    destruct (Hf a1 w1) as (Hw' & Ho' & Hs').
    rewrite !session_calls_app, Hs, Hs'. auto.
  - injection Ho as <-.
    rewrite (bind_rejected _ _ _ E1), (bind_rejected _ _ _ E2).
    cbn [world events outcome fst snd]. auto.
Qed.

Lemma same_session_try {A} (m1 m2 : M W A) (h1 h2 : JsError -> M W A) :
  same_session m1 m2 -> (forall e, same_session (h1 e) (h2 e)) ->
  same_session (try_catch m1 h1) (try_catch m2 h2).
Proof.
  intros Hm Hh w. destruct (Hm w) as (Hw & Ho & Hs).
  destruct (m1 w) as [[w1 ev1] [a1 | e1]] eqn:E1;
    destruct (m2 w) as [[w2 ev2] [a2 | e2]] eqn:E2;
    cbn [world events outcome fst snd] in Hw, Ho, Hs; try discriminate; subst w2.
  - injection Ho as <-.
    rewrite (try_resolved _ _ _ E1), (try_resolved _ _ _ E2).
    cbn [world events outcome fst snd]. auto.
  - injection Ho as <-.
    rewrite (try_rejected _ _ _ E1), (try_rejected _ _ _ E2).
    cbn [world events outcome fst snd].
    destruct (Hh e1 w1) as (Hw' & Ho' & Hs').
    rewrite !session_calls_app, Hs, Hs'. auto.
Qed.

(** The lines of a text of white space are lines of white space. *)
Lemma split_all_ws (text : string) :
  Js.all_ws text = true ->
  Forall (fun line => Js.all_ws line = true) (Js.split newline text).
Proof.
  induction text as [| c rest IH]; cbn [Js.all_ws Js.split]; intros H.
  - repeat constructor.
  - apply andb_true_iff in H. destruct H as [Hc Hrest]. specialize (IH Hrest).
    destruct (Ascii.eqb c newline).
    + constructor; [reflexivity | exact IH].
    + destruct (Js.split newline rest) as [| l ls].
      * repeat constructor. cbn. rewrite Hc. reflexivity.
      * inversion IH as [| ? ? Hl Hls]; subst.
        constructor; [ | exact Hls]. cbn. rewrite Hc. exact Hl.
Qed.

Lemma command_lines_blank (text : string) :
  Js.all_ws text = true -> command_lines text = [].
Proof.
  intros H. rewrite command_lines_spec.
  pose proof (split_all_ws text H) as Hall.
  induction Hall as [| l ls Hl _ IH]; cbn; [reflexivity | ].
  rewrite Hl. exact IH.
Qed.

Lemma executeCustomCommands_blank (p : Project) (text : string) (w : W) :
  custom_commands p = Some text ->
  Js.all_ws text = true ->
  executeCustomCommands env p w
  = (w, [ConsoleLog "Executing custom commands..."], Resolved tt).
Proof.
  intros Hcc Hws. unfold executeCustomCommands.
  rewrite Hcc, (command_lines_blank _ Hws). reflexivity.
Qed.

(** With a blank field the guarded call of the runner makes no session
    call. *)
Lemma guarded_custom_blank (p : Project) :
  (forall text, custom_commands p = Some text -> Js.all_ws text = true) ->
  same_session
    (if Js.truthy (custom_commands p) then executeCustomCommands env p else ret tt)
    (ret tt).
Proof.
  intros Hblank. destruct (custom_commands p) as [text | ] eqn:Hcc; cbn [Js.truthy].
  - destruct (negb (text =? "")); [ | apply same_session_refl ].
    intros w. rewrite (executeCustomCommands_blank p w Hcc (Hblank _ eq_refl)).
    repeat split.
  - apply same_session_refl.
Qed.

End SameSession.

(** C10: when [custom_commands] is null, empty, or made of white space
    and newlines only, [deploy] makes the session calls, reaches the
    world and has the outcome of the deployment of the same project with
    no custom commands at all.  For a null or empty field the runner is
    not entered (the two runs are one and the same); for a field of
    white space the runner is entered with an empty command list and
    only prints its heading. *)
Theorem deploy_blank_custom_commands {W} (env : Env W) (p : Project) (w : W) :
  (forall text, custom_commands p = Some text -> Js.all_ws text = true) ->
  session_calls (events (deploy env p w))
  = session_calls (events (deploy env (with_commands p None) w))
  /\ outcome (deploy env p w) = outcome (deploy env (with_commands p None) w)
  /\ world (deploy env p w) = world (deploy env (with_commands p None) w)
  /\ (custom_commands p = None \/ custom_commands p = Some "" ->
      deploy env p w = deploy env (with_commands p None) w)
  /\ (forall text, custom_commands p = Some text ->
      command_lines text = []
      /\ forall w0, executeCustomCommands env p w0
                    = (w0, [ConsoleLog "Executing custom commands..."], Resolved tt)).
Proof.
  intros Hblank.
  assert (Hsame : same_session (deploy env p) (deploy env (with_commands p None))).
  { unfold deploy. cbn [with_commands name server source_type custom_commands Js.truthy].
    apply same_session_try; [ | intros e; apply same_session_refl ].
    apply same_session_bind; [ apply same_session_refl | intros _ ].
    apply same_session_bind; [ apply same_session_refl | intros _ ].
    apply same_session_bind; [ apply same_session_refl | intros _ ].
    apply same_session_bind; [ apply same_session_refl | intros _ ].
    apply same_session_bind; [ apply same_session_refl | intros _ ].
    apply same_session_bind; [ apply guarded_custom_blank, Hblank | intros _ ].
    apply same_session_refl. }
  destruct (Hsame w) as (Hw & Ho & Hs).
  split; [exact Hs | split; [exact Ho | split; [exact Hw | split ] ] ].
  - intros [Hcc | Hcc]; unfold deploy; rewrite Hcc; reflexivity.
  - intros text Hcc. split.
    + apply command_lines_blank, (Hblank _ Hcc).
    + intros w0. apply (executeCustomCommands_blank env p w0 Hcc (Hblank _ Hcc)).
Qed.

(** ** connectSSH *)

(** The create-server route answers 400 when both credentials are
    missing, and only creates rows that carry at least one. *)
Lemma create_server_requires_credential (n ip u pw key : option string) :
  (Js.truthy pw = false -> Js.truthy key = false ->
   create_server_check n ip u pw key <> Created)
  /\ (create_server_check n ip u pw key = Created ->
      Js.truthy pw = true \/ Js.truthy key = true).
Proof.
  unfold create_server_check.
  destruct (Js.truthy n), (Js.truthy ip), (Js.truthy u), (Js.truthy pw), (Js.truthy key);
    cbn; split; try discriminate; auto; intros; discriminate.
Qed.

(** C1, as stated, fails: for a server row with neither password nor
    private key, [connectSSH] raises no validation error; it calls
    [ssh.connect] with a configuration that carries no credential, and
    resolves when the host accepts. *)
Lemma connectSSH_without_credential_connects :
  Js.truthy (ssh_password Hosts.server_bare) = false
  /\ Js.truthy (ssh_private_key Hosts.server_bare) = false
  /\ connectSSH Hosts.quiet Hosts.server_bare tt
     = (tt,
        [Connect {| host := "10.0.0.5"; port := 22; username := "deploy";
                    password := None; privateKey := None |};
         ConsoleLog "SSH connection established"],
        Resolved tt).
Proof. repeat split. Qed.

(** C1, amended: the configuration takes the password when one is
    present, whether or not a key is present too; otherwise the key when
    one is present; otherwise no credential at all.  It never carries
    both.  In every case the first thing [connectSSH] does is to call
    [ssh.connect] with that configuration, and it throws nothing of its
    own: it is rejected only when the connection is. *)
Theorem connect_config_selects_credential {W} (env : Env W) (s : Server) (w : W) :
  host (connect_config s) = ip_address s
  /\ port (connect_config s) = ssh_port s
  /\ username (connect_config s) = ssh_username s
  /\ (Js.truthy (ssh_password s) = true ->
      password (connect_config s) = ssh_password s
      /\ privateKey (connect_config s) = None)
  /\ (Js.truthy (ssh_password s) = false ->
      Js.truthy (ssh_private_key s) = true ->
      password (connect_config s) = None
      /\ privateKey (connect_config s) = ssh_private_key s)
  /\ (Js.truthy (ssh_password s) = false ->
      Js.truthy (ssh_private_key s) = false ->
      password (connect_config s) = None
      /\ privateKey (connect_config s) = None)
  /\ (exists rest,
        events (connectSSH env s w) = Connect (connect_config s) :: rest)
  /\ (forall e, outcome (connectSSH env s w) = Rejected e <->
                exists w' msg,
                  ssh_connect env (connect_config s) w = (w', Some msg)
                  /\ e = SessionFailure msg).
Proof.
  assert (Hrun : (exists rest,
                    events (connectSSH env s w) = Connect (connect_config s) :: rest)
                 /\ (forall e, outcome (connectSSH env s w) = Rejected e <->
                               exists w' msg,
                                 ssh_connect env (connect_config s) w = (w', Some msg)
                                 /\ e = SessionFailure msg)).
  { unfold connectSSH.
    destruct (ssh_connect env (connect_config s) w) as [w' [msg | ]] eqn:Hc;
      match goal with
      | |- context [bind ?m ?f w] =>
          let H := fresh "Hrun" in
          eassert (H : bind m f w = _) by run_steps; rewrite H; clear H
      end;
      cbn [events outcome fst snd app];
      (split; [ eexists; reflexivity | ]); intros e; split.
    - intros H. injection H as <-. eauto.
    - intros (w'' & msg' & Heq & ->). congruence.
    - discriminate.
    - intros (w'' & msg' & Heq & _). discriminate. }
  unfold connect_config in *.
  destruct (Js.truthy (ssh_password s)) eqn:Hp;
    [ | destruct (Js.truthy (ssh_private_key s)) eqn:Hk ];
    cbn [host port username password privateKey] in *;
    (repeat (split; [ solve [ reflexivity | intros; split; reflexivity
                            | intros; discriminate ] | ]));
    exact Hrun.
Qed.

(** ** Retention of backups *)
Section Retention.

Import Shell.

Lemma insert_newest_perm (e : Entry) (l : list Entry) :
  Permutation (insert_newest e l) (e :: l).
Proof.
  induction l as [| x rest IH]; cbn; [apply Permutation_refl | ].
  destruct (mtime x <? mtime e)%Z; [apply Permutation_refl | ].
  eapply Permutation_trans; [apply perm_skip, IH | apply perm_swap].
Qed.

Lemma sort_newest_perm (l : list Entry) : Permutation (sort_newest l) l.
Proof.
  induction l as [| e rest IH]; cbn; [apply Permutation_refl | ].
  eapply Permutation_trans; [apply insert_newest_perm | apply perm_skip, IH].
Qed.

Lemma insert_newest_sorted (e : Entry) (l : list Entry) :
  StronglySorted newer_or_same l ->
  StronglySorted newer_or_same (insert_newest e l).
Proof.
  induction 1 as [| x rest Hs IH Hx]; cbn.
  - repeat constructor.
  - destruct (mtime x <? mtime e)%Z eqn:E.
    + apply Z.ltb_lt in E. constructor; [constructor; assumption | ].
      constructor; [unfold newer_or_same; lia | ].
      eapply Forall_impl; [ | exact Hx]. unfold newer_or_same. intros; lia.
    + apply Z.ltb_ge in E. constructor; [exact IH | ].
      eapply Permutation_Forall; [apply Permutation_sym, insert_newest_perm | ].
      constructor; [exact E | exact Hx].
Qed.

Lemma sort_newest_sorted (l : list Entry) :
  StronglySorted newer_or_same (sort_newest l).
Proof.
  induction l as [| e rest IH]; cbn; [constructor | ].
  apply insert_newest_sorted, IH.
Qed.

Lemma in_skipn {A} (n : nat) (l : list A) (x : A) : In x (skipn n l) -> In x l.
Proof.
  revert l. induction n as [| n IH]; intros l H; [exact H | ].
  destruct l as [| y rest]; [contradiction | ]. right. apply IH, H.
Qed.

(** In a list sorted newest first, what comes early is no older than
    what comes late. *)
Lemma sorted_firstn_skipn (n : nat) (l : list Entry) (a b : Entry) :
  StronglySorted newer_or_same l ->
  In a (firstn n l) -> In b (skipn n l) -> (mtime b <= mtime a)%Z.
Proof.
  intros Hs. revert n. induction Hs as [| x rest Hs IH Hx]; intros n Ha Hb.
  - destruct n; contradiction.
  - destruct n as [| n]; [contradiction | ]. cbn in Ha, Hb.
    destruct Ha as [<- | Ha].
    + rewrite Forall_forall in Hx. apply Hx.
      apply (in_skipn _ _ _ Hb).
    + apply (IH n Ha Hb).
Qed.

Lemma filter_comm {A} (f g : A -> bool) (l : list A) :
  filter f (filter g l) = filter g (filter f l).
Proof.
  induction l as [| x rest IH]; cbn; [reflexivity | ].
  destruct (g x) eqn:Eg, (f x) eqn:Ef; cbn; rewrite ?Eg, ?Ef, IH; reflexivity.
Qed.

Lemma filter_none {A} (f : A -> bool) (l : list A) :
  (forall x, In x l -> f x = false) -> filter f l = [].
Proof.
  induction l as [| x rest IH]; intros H; cbn; [reflexivity | ].
  rewrite (H x (or_introl eq_refl)). apply IH. intros y Hy. apply H. right. exact Hy.
Qed.

Lemma filter_length_perm {A} (f : A -> bool) (l l' : list A) :
  Permutation l l' -> List.length (filter f l) = List.length (filter f l').
Proof.
  induction 1 as [| x l l' _ IH | x y l | l l' l'' _ IH1 _ IH2]; cbn.
  - reflexivity.
  - destruct (f x); cbn; congruence.
  - destruct (f x), (f y); reflexivity.
  - congruence.
Qed.

Lemma mem_In (f : string) (names : list string) :
  mem f names = true <-> In f names.
Proof.
  unfold mem. rewrite existsb_exists. split.
  - intros (x & Hx & E). apply String.eqb_eq in E. subst. exact Hx.
  - intros H. exists f. split; [exact H | apply String.eqb_refl].
Qed.

Variable project_name : string.
Variable dir : list Entry.

Lemma clean_unfold :
  clean_old_backups project_name dir = filter (spared project_name dir) dir.
Proof.
  unfold clean_old_backups, xargs_rm, tail_from, ls_t, spared, doomed, ranked, matching.
  change (6 - 1) with 5. rewrite skipn_map. reflexivity.
Qed.

Lemma matching_clean :
  matching project_name (clean_old_backups project_name dir)
  = filter (spared project_name dir) (matching project_name dir).
Proof. rewrite clean_unfold. unfold matching. apply filter_comm. Qed.

(** After the pipeline at most five archives match the pattern. *)
Lemma clean_keeps_at_most_5 :
  List.length (matching project_name (clean_old_backups project_name dir)) <= 5.
Proof.
  rewrite matching_clean.
  rewrite (filter_length_perm (spared project_name dir)
             (Permutation_sym (sort_newest_perm _))).
  fold (ranked project_name dir).
  rewrite <- (firstn_skipn 5 (ranked project_name dir)) at 1.
  rewrite filter_app, length_app.
  assert (Hnone : filter (spared project_name dir)
                         (skipn 5 (ranked project_name dir)) = []).
  { assert (Hall : forall e, In e (skipn 5 (ranked project_name dir)) ->
                             spared project_name dir e = false).
    { intros e He. unfold spared.
      rewrite (proj2 (mem_In (fname e) (doomed project_name dir))); [reflexivity | ].
      apply in_map, He. }
    apply filter_none, Hall. }
  rewrite Hnone. cbn [List.length]. rewrite Nat.add_0_r.
  eapply Nat.le_trans; [apply filter_length_le | apply firstn_le_length].
Qed.

(** An entry that the pattern does not match is never removed. *)
Lemma clean_keeps_unmatched (e : Entry) :
  In e dir ->
  glob_star (project_name ++ "_") ".tar.gz" (fname e) = false ->
  In e (clean_old_backups project_name dir).
Proof.
  intros He Hg. rewrite clean_unfold. apply filter_In. split; [exact He | ].
  unfold spared. destruct (mem (fname e) (doomed project_name dir)) eqn:Hm; [ | reflexivity].
  apply mem_In in Hm. unfold doomed in Hm. apply in_map_iff in Hm.
  destruct Hm as (d & Hname & Hd).
  apply in_skipn in Hd.
  apply (Permutation_in _ (sort_newest_perm _)) in Hd.
  apply filter_In in Hd. destruct Hd as [_ Hd]. rewrite Hname in Hd. congruence.
Qed.

(** With distinct file names, no archive that the pipeline removes is
    newer than one it keeps. *)
Lemma clean_keeps_the_newest (kept_one removed : Entry) :
  NoDup (map fname dir) ->
  In kept_one (matching project_name (clean_old_backups project_name dir)) ->
  In removed dir ->
  ~ In removed (clean_old_backups project_name dir) ->
  (mtime removed <= mtime kept_one)%Z.
Proof.
  intros Hnd Hk Hr Hgone.
  rewrite matching_clean in Hk. apply filter_In in Hk. destruct Hk as [Hk Hkeep].
  assert (Hks : In kept_one (firstn 5 (ranked project_name dir))).
  { apply (Permutation_in _ (Permutation_sym (sort_newest_perm _))) in Hk.
    fold (ranked project_name dir) in Hk.
    rewrite <- (firstn_skipn 5 (ranked project_name dir)) in Hk.
    apply in_app_or in Hk. destruct Hk as [Hk | Hk]; [exact Hk | ].
    unfold spared in Hkeep. rewrite (proj2 (mem_In _ (doomed project_name dir))) in Hkeep;
      [discriminate | apply in_map, Hk]. }
  assert (Hrs : In removed (skipn 5 (ranked project_name dir))).
  { rewrite clean_unfold in Hgone.
    assert (Hm : mem (fname removed) (doomed project_name dir) = true).
    { destruct (mem (fname removed) (doomed project_name dir)) eqn:E; [reflexivity | ].
      exfalso. apply Hgone. apply filter_In. split; [exact Hr | ].
      unfold spared. rewrite E. reflexivity. }
    apply mem_In in Hm. unfold doomed in Hm. apply in_map_iff in Hm.
    destruct Hm as (d & Hname & Hd).
    assert (Hdd : In d dir).
    { apply in_skipn in Hd.
      apply (Permutation_in _ (sort_newest_perm _)) in Hd.
      apply filter_In in Hd. apply Hd. }
    assert (d = removed); [ | subst; exact Hd].
    clear -Hnd Hdd Hr Hname. induction dir as [| x rest IH]; [contradiction | ].
    cbn in Hnd. inversion Hnd as [| ? ? Hx Hrest]; subst.
    destruct Hdd as [-> | Hdd], Hr as [-> | Hr]; auto.
    - exfalso. apply Hx. rewrite Hname. apply in_map, Hr.
    - exfalso. apply Hx. rewrite <- Hname. apply in_map, Hdd. }
  eapply sorted_firstn_skipn; [apply sort_newest_sorted | exact Hks | exact Hrs].
Qed.

End Retention.

(** ** The retention command on the modelled host *)
Section RemoteHost.

Import Shell.

Lemma append_assoc (a b c : string) : (a ++ b) ++ c = a ++ (b ++ c).
Proof. induction a as [| x a IH]; cbn; [reflexivity | rewrite IH; reflexivity]. Qed.

Lemma length_append (a b : string) :
  String.length (a ++ b) = String.length a + String.length b.
Proof. induction a as [| x a IH]; cbn; [reflexivity | rewrite IH; reflexivity]. Qed.

Lemma drop_append (a b : string) : drop (String.length a) (a ++ b) = b.
Proof. induction a as [| x a IH]; cbn; [destruct b; reflexivity | exact IH]. Qed.

Lemma take_append (a b : string) : take (String.length a) (a ++ b) = a.
Proof.
  induction a as [| x a IH]; cbn; [destruct b; reflexivity | rewrite IH; reflexivity].
Qed.

Lemma strip_suffix_append (a x : string) : strip_suffix x (a ++ x) = Some a.
Proof.
  unfold strip_suffix, is_suffix. rewrite length_append.
  replace (String.length a + String.length x - String.length x)
    with (String.length a) by lia.
  rewrite drop_append, String.eqb_refl, take_append.
  replace (String.length x <=? String.length a + String.length x)%nat with true
    by (symmetry; apply Nat.leb_le; lia).
  reflexivity.
Qed.

(** The host runs the retention command of any project as the pipeline
    on its backup directory. *)
Lemma run_retention_command (p : Project) (r : Remote) :
  run (retention_command p) r
  = ({| backups := clean_old_backups (name p) (backups r);
        directories := directories r;
        clock := clock r |},
     success "").
Proof.
  unfold run, retention_command, backupDir.
  change (strip_prefix "test -d " _) with (@None string).
  change (strip_prefix ("tar -czf " ++ "/var/backups/webdeploy" ++ "/") _)
    with (@None string).
  change (strip_prefix ("cd " ++ "/var/backups/webdeploy" ++ " && ls -t ") _)
    with (Some (name p ++ "_*.tar.gz | tail -n +6 | xargs -r rm")).
  cbv iota.
  change (name p ++ "_*.tar.gz | tail -n +6 | xargs -r rm")
    with (name p ++ "_" ++ "*.tar.gz | tail -n +6 | xargs -r rm").
  rewrite <- append_assoc, strip_suffix_append. reflexivity.
Qed.

End RemoteHost.

(** C4, the part the code breaks: on a host that also keeps a backup of
    the project [app_v2], the backup step of a deployment of the project
    [app] runs [ls -t app_*.tar.gz | tail -n +6 | xargs -r rm]; the
    archive of [app_v2] matches that pattern, is the oldest of seven
    matches, and is removed with the oldest archive of [app].  The
    deployment itself resolves. *)
Theorem retention_removes_backup_of_other_project :
  name Hosts.app_v2 <> name Hosts.app
  /\ In Hosts.app_v2_backup (map Shell.fname (Shell.backups Hosts.shared_host))
  /\ Shell.glob_star "app_" ".tar.gz" Hosts.app_v2_backup = true
  /\ In (ExecCommand
           "cd /var/backups/webdeploy && ls -t app_*.tar.gz | tail -n +6 | xargs -r rm"
           None)
        (events (createBackup Shell.host Hosts.app Hosts.shared_host))
  /\ map Shell.fname
         (Shell.backups (world (createBackup Shell.host Hosts.app Hosts.shared_host)))
     = ["app_2024-05-06T07-08-09-123Z.tar.gz";
        "app_2024-02-02T00-00-00-000Z.tar.gz";
        "app_2024-02-03T00-00-00-000Z.tar.gz";
        "app_2024-02-04T00-00-00-000Z.tar.gz";
        "app_2024-02-05T00-00-00-000Z.tar.gz"]
  /\ ~ In Hosts.app_v2_backup
          (map Shell.fname
               (Shell.backups (world (deploy Shell.host Hosts.app Hosts.shared_host))))
  /\ outcome (deploy Shell.host Hosts.app Hosts.shared_host) = Resolved true.
Proof.
  split; [discriminate | ].
  split; [left; reflexivity | ].
  split; [vm_compute; reflexivity | ].
  split; [vm_compute; tauto | ].
  split; [vm_compute; reflexivity | ].
  split; [ | vm_compute; reflexivity ].
  intros H.
  assert (E : Shell.mem Hosts.app_v2_backup
                (map Shell.fname
                   (Shell.backups (world (deploy Shell.host Hosts.app Hosts.shared_host))))
              = false) by (vm_compute; reflexivity).
  apply mem_In in H. congruence.
Qed.

(** ** The theorems at concrete projects and hosts *)

(** The three kinds of server row: both credentials, a key only, none. *)
Lemma connect_config_selects_credential_witness :
  (password (connect_config Hosts.server_password) = Some "s3cret"
   /\ privateKey (connect_config Hosts.server_password) = None)
  /\ (password (connect_config Hosts.server_key) = None
      /\ privateKey (connect_config Hosts.server_key) = Some "KEY")
  /\ (password (connect_config Hosts.server_bare) = None
      /\ privateKey (connect_config Hosts.server_bare) = None).
Proof.
  destruct (connect_config_selects_credential Hosts.quiet Hosts.server_password tt)
    as (_ & _ & _ & Hp & _).
  destruct (connect_config_selects_credential Hosts.quiet Hosts.server_key tt)
    as (_ & _ & _ & _ & Hk & _).
  destruct (connect_config_selects_credential Hosts.quiet Hosts.server_bare tt)
    as (_ & _ & _ & _ & _ & Hn & _).
  split; [exact (Hp eq_refl) | split; [exact (Hk eq_refl eq_refl) | exact (Hn eq_refl eq_refl)]].
Defined.

(** [app1] on a host where the directory is there (pull), and on one
    where it is not (clone). *)
Lemma deployFromGitHub_pulls_or_clones_witness :
  commands_run (events (deployFromGitHub Hosts.deployed Hosts.app1 tt))
  = [ExecCommand (probe_command Hosts.app1) None;
     ExecCommand "cd /var/www/app1 && git pull origin main || git pull origin master" None]
  /\ commands_run (events (deployFromGitHub Hosts.quiet Hosts.app1 tt))
     = [ExecCommand (probe_command Hosts.app1) None;
        ExecCommand "mkdir -p /var/www" None;
        ExecCommand "cd /var/www && git clone git@host:org/app1.git app1" None].
Proof.
  split.
  - destruct (deployFromGitHub_pulls_or_clones Hosts.deployed Hosts.app1 tt
                (w1 := tt) (probe := Hosts.ok_result ("exists" ++ String newline ""))
                eq_refl) as (_ & Hpull & _).
    destruct (Hpull eq_refl) as (H & _). exact H.
  - destruct (deployFromGitHub_pulls_or_clones Hosts.quiet Hosts.app1 tt
                (w1 := tt) (probe := Hosts.ok_result "") eq_refl) as (_ & _ & Hclone).
    assert (Hne : Js.trim (stdout (Hosts.ok_result "")) <> "exists") by discriminate.
    destruct (Hclone Hne) as (_ & Hfull).
    destruct (Hfull tt (Hosts.ok_result "") eq_refl) as (H & _). exact H.
Defined.

(** A zip upload to a host where every command exits with status 1: the
    staged file is removed all the same. *)
Lemma deployFromUpload_dispatch_witness :
  session_calls (events (deployFromUpload Hosts.broken Hosts.site2 tt))
  = [ExecCommand "mkdir -p /var/www/html/site2" None;
     PutFile "/srv/uploads/17-3-bundle.zip" "/tmp/17-3-bundle.zip";
     ExecCommand "unzip -o /tmp/17-3-bundle.zip -d /var/www/html/site2" None;
     ExecCommand "rm /tmp/17-3-bundle.zip" None].
Proof.
  destruct (deployFromUpload_dispatch Hosts.broken Hosts.site2
              (sourcePath := "/srv/uploads/17-3-bundle.zip") tt eq_refl)
    as (_ & _ & Hfull).
  exact (Hfull tt (Hosts.failed_result 1 "failed") tt tt (Hosts.failed_result 1 "failed")
               eq_refl eq_refl eq_refl).
Defined.

(** A nodejs project on a host where every command exits with status 1. *)
Lemma build_always_normalizes_permissions_witness :
  outcome (executeProjectTypeCommands Hosts.broken Hosts.app1 tt) = Resolved tt
  /\ exists before,
      commands_run (events (executeProjectTypeCommands Hosts.broken Hosts.app1 tt))
      = (before ++ [ExecCommand ("chmod -R 755 " ++ "/var/www/app1") None])%list.
Proof.
  apply (build_always_normalizes_permissions (env := Hosts.broken) Hosts.app1 tt).
  intros command cwd w. exists w, (Hosts.failed_result 1 "failed"). reflexivity.
Defined.

(** Three commands around an empty line, the second one failing. *)
Lemma executeCustomCommands_runs_every_line_witness :
  commands_run (events (executeCustomCommands Hosts.exit1_fails Hosts.three_commands tt))
  = [ExecCommand "echo one" (Some "/var/www/app1");
     ExecCommand "exit 1" (Some "/var/www/app1");
     ExecCommand "echo two" (Some "/var/www/app1")]
  /\ outcome (executeCustomCommands Hosts.exit1_fails Hosts.three_commands tt)
     = Resolved tt.
Proof.
  assert (Hret : exec_returns Hosts.exit1_fails).
  { intros command cwd w. unfold Hosts.exit1_fails. cbn.
    destruct (command =? "exit 1"); eexists; eexists; reflexivity. }
  destruct (executeCustomCommands_runs_every_line (env := Hosts.exit1_fails)
              Hosts.three_commands tt Hret eq_refl) as (_ & Hrun & Hout & _).
  split; [exact Hrun | exact Hout].
Defined.

(** A project of source mode [svn] deploys without acquisition. *)
Lemma deploy_unrecognized_source_type_witness :
  outcome (deploy Hosts.quiet Hosts.legacy tt) = Resolved true.
Proof.
  assert (Hg : source_type Hosts.legacy <> "github") by discriminate.
  assert (Hu : source_type Hosts.legacy <> "upload") by discriminate.
  destruct (deploy_unrecognized_source_type Hosts.quiet Hosts.legacy tt Hg Hu)
    as (_ & _ & H).
  apply H.
  - intros config w. exists w. reflexivity.
  - intros command cwd w. exists w, (Hosts.ok_result ""). reflexivity.
Defined.

(** A field of blanks, a tab and newlines. *)
Lemma deploy_blank_custom_commands_witness :
  session_calls (events (deploy Hosts.quiet Hosts.blank_commands tt))
  = session_calls (events (deploy Hosts.quiet (with_commands Hosts.blank_commands None) tt))
  /\ outcome (deploy Hosts.quiet Hosts.blank_commands tt)
     = outcome (deploy Hosts.quiet (with_commands Hosts.blank_commands None) tt).
Proof.
  assert (Hblank : forall text, custom_commands Hosts.blank_commands = Some text ->
                                Js.all_ws text = true).
  { intros text H. injection H as <-. reflexivity. }
  destruct (deploy_blank_custom_commands Hosts.quiet Hosts.blank_commands tt Hblank)
    as (Hs & Ho & _).
  split; [exact Hs | exact Ho].
Defined.

(** * Further properties of the deployment service *)

(** ** Rejections inside [try] *)
Section Catching.

Context {W : Type}.

Lemma run_try_ok {A} (m : M W A) h w w1 ev1 a :
  m w = (w1, ev1, Resolved a) -> try_catch m h w = (w1, ev1, Resolved a).
Proof. apply try_resolved. Qed.

Lemma run_try_err {A} (m : M W A) h w w1 ev1 e w2 ev2 o :
  m w = (w1, ev1, Rejected e) ->
  h e w1 = (w2, ev2, o) ->
  try_catch m h w = (w2, (ev1 ++ ev2)%list, o).
Proof. intros Hm Hh. unfold try_catch. rewrite Hm, Hh. reflexivity. Qed.

End Catching.

(** Runs a computation into an equation [m w = ?result], through nested
    sequences and [try] blocks. *)
Ltac run_deep :=
  cbv beta;
  first
    [ match goal with
      | H : ?c = _ |- (if ?c then _ else _) _ = _ => rewrite H; run_deep
      | H : ?x = _ |- (match ?x with _ => _ end) _ = _ => rewrite H; run_deep
      end
    | eapply run_bind_ok; [ run_deep | run_deep ]
    | eapply run_bind_err; run_deep
    | eapply run_try_ok; run_deep
    | eapply run_try_err; [ run_deep | run_deep ]
    | run_prim
    | eassumption ].

Ltac run_deep_eq := etransitivity; [ run_deep | reflexivity ].

(** X1: when the host refuses the connection, [deploy] runs nothing on
    it: it logs the failure, releases the session and rethrows the very
    rejection of [ssh.connect]. *)
Theorem deploy_connection_refused {W} (env : Env W) (p : Project) (w w' : W)
        (msg : string) :
  ssh_connect env (connect_config (server p)) w = (w', Some msg) ->
  deploy env p w
  = (ssh_dispose env w',
     [ConsoleLog ("Starting deployment for project: " ++ name p);
      Connect (connect_config (server p));
      ConsoleError ("Deployment failed for project " ++ name p ++ ":")
                   (Some (SessionFailure msg));
      Dispose],
     Rejected (SessionFailure msg)).
Proof.
  intros Hc. unfold deploy, connectSSH. run_deep_eq.
Qed.

(** A host that refuses every connection. *)
Lemma deploy_connection_refused_witness :
  outcome (deploy (Hosts.scripted (fun _ => inl (Hosts.ok_result "")) (Some "refused") None)
                  Hosts.app1 tt)
  = Rejected (SessionFailure "refused")
  /\ commands_run
       (events (deploy (Hosts.scripted (fun _ => inl (Hosts.ok_result ""))
                                       (Some "refused") None)
                       Hosts.app1 tt))
     = [].
Proof.
  rewrite (deploy_connection_refused
             (Hosts.scripted (fun _ => inl (Hosts.ok_result "")) (Some "refused") None)
             Hosts.app1 tt (w' := tt) (msg := "refused") eq_refl).
  split; reflexivity.
Defined.

(** ** createBackup, step by step *)

(** Replaces the run of [createBackup] in the goal by its result,
    computed from the hypotheses. *)
Ltac backup_run :=
  match goal with
  | |- context [createBackup ?env ?p ?w] =>
      let H := fresh "Hrun" in
      eassert (H : createBackup env p w = _) by (unfold createBackup; run_deep);
      rewrite H; clear H; run_simpl
  end.

(** X2: the backup step runs its commands in one fixed order: probe,
    create the backup directory, archive, prune.  When the probe does
    not answer [exists] it is the only command and nothing is printed;
    when it does and the commands come back, all four run, the archive
    being named after the project and the time read at the start of the
    step. *)
Theorem createBackup_commands {W} (env : Env W) (p : Project) (w : W) :
  let archive := backup_name p (date_toISOString env w) in
  let plan := [ExecCommand (probe_command p) None;
               ExecCommand ("mkdir -p " ++ backupDir) None;
               ExecCommand (tar_command p archive) None;
               ExecCommand (retention_command p) None] in
  (exists n, commands_run (events (createBackup env p w)) = firstn n plan)
  /\ (forall w1 r,
        ssh_execCommand env (probe_command p) None w = (w1, inl r) ->
        Js.trim (stdout r) <> "exists" ->
        createBackup env p w
        = (w1, [ExecCommand (probe_command p) None], Resolved tt))
  /\ (forall w1 r w2 r2 w3 r3 w4 r4,
        ssh_execCommand env (probe_command p) None w = (w1, inl r) ->
        Js.trim (stdout r) = "exists" ->
        ssh_execCommand env ("mkdir -p " ++ backupDir) None w1 = (w2, inl r2) ->
        ssh_execCommand env (tar_command p archive) None w2 = (w3, inl r3) ->
        ssh_execCommand env (retention_command p) None w3 = (w4, inl r4) ->
        createBackup env p w
        = (w4,
           [ExecCommand (probe_command p) None;
            ConsoleLog "Creating backup of existing project...";
            ExecCommand ("mkdir -p " ++ backupDir) None;
            ExecCommand (tar_command p archive) None;
            ConsoleLog ("Backup created: " ++ archive ++ ".tar.gz");
            ExecCommand (retention_command p) None],
           Resolved tt)).
Proof.
  intros archive plan. split; [ | split ].
  - destruct (ssh_execCommand env (probe_command p) None w) as [w1 [r | m]] eqn:Hp;
      [ | exists 1; backup_run; reflexivity ].
    destruct (Js.trim (stdout r) =? "exists") eqn:Hex;
      [ | exists 1; backup_run; reflexivity ].
    destruct (ssh_execCommand env ("mkdir -p " ++ backupDir) None w1)
      as [w2 [r2 | m2]] eqn:Hmk; [ | exists 2; backup_run; reflexivity ].
    destruct (ssh_execCommand env (tar_command p archive) None w2)
      as [w3 [r3 | m3]] eqn:Htar; [ | exists 3; backup_run; reflexivity ].
    destruct (ssh_execCommand env (retention_command p) None w3)
      as [w4 [r4 | m4]] eqn:Hret; exists 4; backup_run; reflexivity.
  - intros w1 r Hp Hex. apply String.eqb_neq in Hex.
    unfold createBackup. run_deep_eq.
  - intros w1 r w2 r2 w3 r3 w4 r4 Hp Hex Hmk Htar Hret. apply String.eqb_eq in Hex.
    unfold createBackup. run_deep_eq.
Qed.

(** [app] on the host of the example: the directory is there, the four
    commands run. *)
Lemma createBackup_commands_witness :
  commands_run (events (createBackup Shell.host Hosts.app Hosts.shared_host))
  = [ExecCommand (probe_command Hosts.app) None;
     ExecCommand "mkdir -p /var/backups/webdeploy" None;
     ExecCommand
       ("tar -czf /var/backups/webdeploy/app_2024-05-06T07-08-09-123Z.tar.gz"
          ++ " -C /var/www/html app") None;
     ExecCommand
       "cd /var/backups/webdeploy && ls -t app_*.tar.gz | tail -n +6 | xargs -r rm"
       None].
Proof.
  destruct (createBackup_commands Shell.host Hosts.app Hosts.shared_host)
    as (_ & _ & Hfull).
  cbv zeta in Hfull.
  erewrite Hfull; [ reflexivity | reflexivity | reflexivity | reflexivity
                  | reflexivity | reflexivity ].
Defined.

(** X3: a call of the backup step that is rejected ends the step without
    an error: the rejection is printed, what was left to do is not done.
    So a refused probe leaves the host untouched, and a refused [tar]
    leaves the old archives unpruned. *)
Theorem createBackup_swallows_rejection {W} (env : Env W) (p : Project) (w : W) :
  (forall w1 msg,
      ssh_execCommand env (probe_command p) None w = (w1, inr msg) ->
      createBackup env p w
      = (w1,
         [ExecCommand (probe_command p) None;
          ConsoleError "Backup creation failed:" (Some (SessionFailure msg))],
         Resolved tt))
  /\ (forall w1 r w2 r2 w3 msg,
        ssh_execCommand env (probe_command p) None w = (w1, inl r) ->
        Js.trim (stdout r) = "exists" ->
        ssh_execCommand env ("mkdir -p " ++ backupDir) None w1 = (w2, inl r2) ->
        ssh_execCommand env
          (tar_command p (backup_name p (date_toISOString env w))) None w2
        = (w3, inr msg) ->
        createBackup env p w
        = (w3,
           [ExecCommand (probe_command p) None;
            ConsoleLog "Creating backup of existing project...";
            ExecCommand ("mkdir -p " ++ backupDir) None;
            ExecCommand (tar_command p (backup_name p (date_toISOString env w))) None;
            ConsoleError "Backup creation failed:" (Some (SessionFailure msg))],
           Resolved tt)).
Proof.
  split.
  - intros w1 msg Hp. unfold createBackup. run_deep_eq.
  - intros w1 r w2 r2 w3 msg Hp Hex Hmk Htar. apply String.eqb_eq in Hex.
    unfold createBackup. run_deep_eq.
Qed.

(** A host where every command is refused. *)
Lemma createBackup_swallows_rejection_witness :
  createBackup (Hosts.scripted (fun _ => inr "channel closed") None None) Hosts.app tt
  = (tt,
     [ExecCommand (probe_command Hosts.app) None;
      ConsoleError "Backup creation failed:" (Some (SessionFailure "channel closed"))],
     Resolved tt).
Proof.
  destruct (createBackup_swallows_rejection
              (Hosts.scripted (fun _ => inr "channel closed") None None) Hosts.app tt)
    as (H & _).
  exact (H tt "channel closed" eq_refl).
Defined.

(** X4: the archive of a backup is named [<project>_<stamp>], where the
    stamp is the ISO time with every colon and dot turned into a dash:
    it has the length of the ISO string, holds neither [:] nor [.], and
    agrees with the ISO string everywhere else. *)
Theorem backup_name_stamp (p : Project) (iso : string) :
  exists stamp,
    backup_name p iso = name p ++ "_" ++ stamp
    /\ String.length stamp = String.length iso
    /\ (forall n c, String.get n stamp = Some c -> c <> ":"%char /\ c <> "."%char)
    /\ (forall n c, String.get n iso = Some c ->
                    String.get n stamp
                    = Some (if Ascii.eqb c ":" || Ascii.eqb c "." then "-"%char else c)).
Proof.
  exists (Js.replace_colon_dot iso). split; [reflexivity | ].
  assert (Hget : forall n c, String.get n iso = Some c ->
                   String.get n (Js.replace_colon_dot iso)
                   = Some (if Ascii.eqb c ":" || Ascii.eqb c "." then "-"%char else c)).
  { induction iso as [| a rest IH]; intros n c H; [destruct n; discriminate | ].
    destruct n as [| n]; cbn in *.
    - injection H as <-. reflexivity.
    - apply IH, H. }
  split; [ | split; [ | exact Hget ] ].
  - induction iso as [| a rest IH]; cbn; [reflexivity | ].
    rewrite IH; [reflexivity | ]. intros n c H. apply (Hget (S n) c H).
  - clear Hget. induction iso as [| a rest IH]; intros n c H;
      [destruct n; discriminate | ].
    destruct n as [| n]; cbn in H.
    + injection H as <-.
      destruct (Ascii.eqb_spec a ":"); [split; discriminate | ].
      destruct (Ascii.eqb_spec a "."); [split; discriminate | ].
      cbn. split; assumption.
    + apply (IH n c H).
Qed.

(** ** Acquisition failures *)

(** X5: a rejected source acquisition ends the deployment there: no
    per-type command, no [chmod], no custom command is run; the failure
    is printed, the session released, and the error of the acquisition
    is the error of [deploy]. *)
Theorem deploy_acquisition_failure_is_fatal {W} (env : Env W) (p : Project)
        (w w1 w3 : W) (ev1 ev3 : list Event) (e : JsError) :
  connectSSH env (server p) w = (w1, ev1, Resolved tt) ->
  (if source_type p =? "github" then deployFromGitHub env p
   else if source_type p =? "upload" then deployFromUpload env p
        else ret tt) (world (createBackup env p w1))
  = (w3, ev3, Rejected e) ->
  deploy env p w
  = (ssh_dispose env w3,
     ([ConsoleLog ("Starting deployment for project: " ++ name p)]
        ++ ev1 ++ events (createBackup env p w1) ++ ev3
        ++ [ConsoleError ("Deployment failed for project " ++ name p ++ ":") (Some e);
            Dispose])%list,
     Rejected e).
Proof.
  intros Hc Ha.
  assert (Hb : createBackup env p w1
               = (world (createBackup env p w1), events (createBackup env p w1),
                  Resolved tt)).
  { rewrite (run_eta (createBackup env p w1)) at 1.
    rewrite createBackup_outcome. reflexivity. }
  unfold deploy. etransitivity.
  - eapply run_try_err.
    + eapply run_bind_ok; [apply run_log | ].
      eapply run_bind_ok; [exact Hc | ].
      eapply run_bind_ok; [exact Hb | ].
      eapply run_bind_err. exact Ha.
    + run_deep.
  - cbn [app]. rewrite <- !app_assoc. reflexivity.
Qed.

(** [app1] where the pull ends in a conflict. *)
Lemma deploy_acquisition_failure_is_fatal_witness :
  outcome (deploy Hosts.pull_conflict Hosts.app1 tt)
  = Rejected (Error "Git pull failed: conflict")
  /\ commands_run (events (deploy Hosts.pull_conflict Hosts.app1 tt))
     = [ExecCommand (probe_command Hosts.app1) None;
        ExecCommand "mkdir -p /var/backups/webdeploy" None;
        ExecCommand
          (tar_command Hosts.app1 (backup_name Hosts.app1 "2024-05-06T07:08:09.123Z"))
          None;
        ExecCommand (retention_command Hosts.app1) None;
        ExecCommand (probe_command Hosts.app1) None;
        ExecCommand (pull_command Hosts.app1) None].
Proof.
  rewrite (deploy_acquisition_failure_is_fatal Hosts.pull_conflict Hosts.app1 tt
             (w1 := tt) (w3 := tt)
             (ev1 := [Connect (connect_config Hosts.server_password);
                      ConsoleLog "SSH connection established"])
             (ev3 := [ConsoleLog "Deploying from GitHub: git@host:org/app1.git";
                      ExecCommand (probe_command Hosts.app1) None;
                      ConsoleLog "Pulling latest changes...";
                      ExecCommand (pull_command Hosts.app1) None])
             (e := Error "Git pull failed: conflict") eq_refl eq_refl).
  split; reflexivity.
Defined.

(** ** The per-type commands *)

(** X6: for a [nodejs] project the dependencies are installed, then
    [which pm2] is asked: the application is restarted (or started)
    under PM2, in the deployed directory, exactly when that command came
    back with status 0; [chmod] follows in both cases. *)
Theorem nodejs_restarts_only_with_pm2 {W} (env : Env W) (p : Project)
        (w w1 w2 : W) (r1 r2 : ExecResult) :
  project_type p = "nodejs" ->
  exec_returns env ->
  ssh_execCommand env ("cd " ++ projectPath p ++ " && npm install") None w
  = (w1, inl r1) ->
  ssh_execCommand env "which pm2" None w1 = (w2, inl r2) ->
  commands_run (events (executeProjectTypeCommands env p w))
  = ([ExecCommand ("cd " ++ projectPath p ++ " && npm install") None;
      ExecCommand "which pm2" None]
       ++ (if code_zero r2
           then [ExecCommand (pm2_command p) (Some (projectPath p))]
           else [])
       ++ [ExecCommand (chmod_command p) None])%list
  /\ outcome (executeProjectTypeCommands env p w) = Resolved tt.
Proof.
  intros Ht Hret Hnpm Hwhich.
  assert (Hn : (project_type p =? "nodejs") = true) by (rewrite Ht; reflexivity).
  destruct (code_zero r2) eqn:Hz.
  - destruct (Hret (pm2_command p) (Some (projectPath p)) w2) as (w3 & r3 & Hpm2).
    destruct (Hret (chmod_command p) None w3) as (w4 & r4 & Hch).
    assert (Hrun : executeProjectTypeCommands env p w = _)
      by (unfold executeProjectTypeCommands, typeCommands; run_deep).
    rewrite Hrun. split; reflexivity.
  - destruct (Hret (chmod_command p) None w2) as (w4 & r4 & Hch).
    assert (Hrun : executeProjectTypeCommands env p w = _)
      by (unfold executeProjectTypeCommands, typeCommands; run_deep).
    rewrite Hrun. split; reflexivity.
Qed.

(** [app1] on a host without PM2: install, ask, [chmod]. *)
Lemma nodejs_restarts_only_with_pm2_witness :
  commands_run (events (executeProjectTypeCommands Hosts.without_pm2 Hosts.app1 tt))
  = [ExecCommand "cd /var/www/app1 && npm install" None;
     ExecCommand "which pm2" None;
     ExecCommand "chmod -R 755 /var/www/app1" None].
Proof.
  assert (Hret : exec_returns Hosts.without_pm2).
  { intros command cwd w. unfold Hosts.without_pm2. cbn.
    destruct (command =? "which pm2"); eexists; eexists; reflexivity. }
  destruct (nodejs_restarts_only_with_pm2 (env := Hosts.without_pm2) Hosts.app1
              tt (w1 := tt) (w2 := tt)
              (r1 := Hosts.ok_result "") (r2 := Hosts.failed_result 1 "")
              eq_refl Hret eq_refl eq_refl) as (H & _).
  exact H.
Defined.

(** X7: for a [php] project [composer install] runs exactly when the
    probe of [composer.json] answers [exists], and for a [python] project
    [pip3 install -r requirements.txt] runs exactly when the probe of
    [requirements.txt] does; [chmod] follows in every case. *)
Theorem manifest_install_only_when_present {W} (env : Env W) (p : Project)
        (w w1 : W) (r : ExecResult) :
  exec_returns env ->
  (project_type p = "php" ->
   ssh_execCommand env
     ("test -f " ++ projectPath p ++ "/composer.json && echo " ++ dq ++ "exists" ++ dq)
     None w = (w1, inl r) ->
   commands_run (events (executeProjectTypeCommands env p w))
   = ([ExecCommand
         ("test -f " ++ projectPath p ++ "/composer.json && echo " ++ dq ++ "exists" ++ dq)
         None]
        ++ (if Js.trim (stdout r) =? "exists"
            then [ExecCommand
                    ("cd " ++ projectPath p
                       ++ " && composer install --no-dev --optimize-autoloader") None]
            else [])
        ++ [ExecCommand (chmod_command p) None])%list
   /\ outcome (executeProjectTypeCommands env p w) = Resolved tt)
  /\ (project_type p = "python" ->
      ssh_execCommand env
        ("test -f " ++ projectPath p ++ "/requirements.txt && echo " ++ dq ++ "exists" ++ dq)
        None w = (w1, inl r) ->
      commands_run (events (executeProjectTypeCommands env p w))
      = ([ExecCommand
            ("test -f " ++ projectPath p ++ "/requirements.txt && echo " ++ dq
               ++ "exists" ++ dq) None]
           ++ (if Js.trim (stdout r) =? "exists"
               then [ExecCommand
                       ("cd " ++ projectPath p ++ " && pip3 install -r requirements.txt")
                       None]
               else [])
           ++ [ExecCommand (chmod_command p) None])%list
      /\ outcome (executeProjectTypeCommands env p w) = Resolved tt).
Proof.
  intros Hret. split; intros Ht Hprobe.
  - assert (Hn : (project_type p =? "nodejs") = false) by (rewrite Ht; reflexivity).
    assert (Hphp : (project_type p =? "php") = true) by (rewrite Ht; reflexivity).
    destruct (Js.trim (stdout r) =? "exists") eqn:Hex.
    + destruct (Hret ("cd " ++ projectPath p
                        ++ " && composer install --no-dev --optimize-autoloader")
                     None w1) as (w2 & r2 & Hinst).
      destruct (Hret (chmod_command p) None w2) as (w3 & r3 & Hch).
      assert (Hrun : executeProjectTypeCommands env p w = _)
        by (unfold executeProjectTypeCommands, typeCommands; run_deep).
      rewrite Hrun. split; reflexivity.
    + destruct (Hret (chmod_command p) None w1) as (w3 & r3 & Hch).
      assert (Hrun : executeProjectTypeCommands env p w = _)
        by (unfold executeProjectTypeCommands, typeCommands; run_deep).
      rewrite Hrun. split; reflexivity.
  - assert (Hn : (project_type p =? "nodejs") = false) by (rewrite Ht; reflexivity).
    assert (Hphp : (project_type p =? "php") = false) by (rewrite Ht; reflexivity).
    assert (Hpy : (project_type p =? "python") = true) by (rewrite Ht; reflexivity).
    destruct (Js.trim (stdout r) =? "exists") eqn:Hex.
    + destruct (Hret ("cd " ++ projectPath p ++ " && pip3 install -r requirements.txt")
                     None w1) as (w2 & r2 & Hinst).
      destruct (Hret (chmod_command p) None w2) as (w3 & r3 & Hch).
      assert (Hrun : executeProjectTypeCommands env p w = _)
        by (unfold executeProjectTypeCommands, typeCommands; run_deep).
      rewrite Hrun. split; reflexivity.
    + destruct (Hret (chmod_command p) None w1) as (w3 & r3 & Hch).
      assert (Hrun : executeProjectTypeCommands env p w = _)
        by (unfold executeProjectTypeCommands, typeCommands; run_deep).
      rewrite Hrun. split; reflexivity.
Qed.

(** A php project on a host with no [composer.json]: probe, then
    [chmod]. *)
Lemma manifest_install_only_when_present_witness :
  commands_run (events (executeProjectTypeCommands Hosts.quiet Hosts.php_site tt))
  = [ExecCommand
       ("test -f /var/www/html/shop/composer.json && echo " ++ dq ++ "exists" ++ dq) None;
     ExecCommand "chmod -R 755 /var/www/html/shop" None].
Proof.
  assert (Hret : exec_returns Hosts.quiet).
  { intros command cwd w. exists w, (Hosts.ok_result ""). reflexivity. }
  destruct (manifest_install_only_when_present (env := Hosts.quiet) Hosts.php_site
              tt tt (Hosts.ok_result "") Hret) as (H & _).
  destruct (H eq_refl eq_refl) as (Hc & _). exact Hc.
Defined.

(** X8: for any other project type, [static] and the model's own
    [custom] included, the build step runs [chmod] and nothing else; it
    prints that the type is unknown unless the type is [static]. *)
Theorem other_types_only_chmod {W} (env : Env W) (p : Project) (w : W) :
  project_type p <> "nodejs" ->
  project_type p <> "php" ->
  project_type p <> "python" ->
  events (executeProjectTypeCommands env p w)
  = [ConsoleLog ("Executing " ++ project_type p ++ " specific commands...");
     ConsoleLog (if project_type p =? "static"
                 then "Static site deployed - no additional commands needed"
                 else "Unknown project type - skipping type-specific commands");
     ExecCommand (chmod_command p) None].
Proof.
  intros Hn Hphp Hpy. apply String.eqb_neq in Hn, Hphp, Hpy.
  destruct (ssh_execCommand env (chmod_command p) None w) as [w1 [r | m]] eqn:Hch;
    destruct (project_type p =? "static") eqn:Hs;
    (assert (Hrun : executeProjectTypeCommands env p w = _)
      by (unfold executeProjectTypeCommands, typeCommands; run_deep));
    rewrite Hrun; reflexivity.
Qed.

(** A project of type [custom]: a value of the column, unknown to the
    service. *)
Lemma other_types_only_chmod_witness :
  events (executeProjectTypeCommands Hosts.quiet Hosts.custom_site tt)
  = [ConsoleLog "Executing custom specific commands...";
     ConsoleLog "Unknown project type - skipping type-specific commands";
     ExecCommand "chmod -R 755 /var/www/html/tool" None].
Proof.
  apply (other_types_only_chmod Hosts.quiet Hosts.custom_site tt); discriminate.
Defined.

(** ** The errors of a deployment *)
Section Errors.

Context {W : Type} (env : Env W).





End Errors.



(** ** What each step can emit *)
#[local] Hint Extern 1 (shell _) => reflexivity : emits.
#[local] Hint Extern 1 (work _) => reflexivity : emits.

Section Emitting.

Context {W : Type} (env : Env W).

Lemma emits_weaken {A} (P Q : Event -> Prop) (m : M W A) :
  (forall e, P e -> Q e) -> emits P m -> emits Q m.
Proof. intros HPQ Hm w. eapply Forall_impl; [exact HPQ | apply Hm]. Qed.

Lemma shell_is_work (e : Event) : shell e -> work e.
Proof. destruct e; cbn; intros H; try reflexivity; discriminate. Qed.

Lemma createBackup_emits_shell project : emits shell (createBackup env project).
Proof. unfold createBackup. emits_steps. Qed.

Lemma deployFromGitHub_emits_shell project : emits shell (deployFromGitHub env project).
Proof. unfold deployFromGitHub. emits_steps. Qed.

Lemma deployFromUpload_emits_work project : emits work (deployFromUpload env project).
Proof. unfold deployFromUpload. emits_steps. Qed.

Lemma build_emits_shell project : emits shell (executeProjectTypeCommands env project).
Proof. unfold executeProjectTypeCommands, typeCommands. emits_steps. Qed.

Lemma forCommands_emits_shell path commands :
  emits shell (forCommands env path commands).
Proof.
  induction commands as [| c rest IH]; cbn [forCommands].
  - apply emits_ret.
  - apply emits_bind; [ | intros _; exact IH ].
    unfold runCommand. emits_steps.
Qed.

Lemma guarded_custom_emits_shell project :
  emits shell (if Js.truthy (custom_commands project)
               then executeCustomCommands env project else ret tt).
Proof.
  destruct (Js.truthy (custom_commands project)); [ | apply emits_ret ].
  unfold executeCustomCommands.
  apply emits_bind; [ apply emits_log; reflexivity | intros _ ].
  destruct (custom_commands project); [ apply forCommands_emits_shell | apply emits_throw ].
Qed.

(** The steps of [deploy] between connecting and releasing. *)
Lemma acquisition_emits_work project :
  emits work (if source_type project =? "github" then deployFromGitHub env project
              else if source_type project =? "upload" then deployFromUpload env project
                   else ret tt).
Proof.
  destruct (source_type project =? "github").
  - eapply emits_weaken; [ exact shell_is_work | apply deployFromGitHub_emits_shell ].
  - destruct (source_type project =? "upload");
      [ apply deployFromUpload_emits_work | apply emits_ret ].
Qed.

Lemma always_rejected_bind_l {A B} (m : M W A) (f : A -> M W B) :
  always_rejected m -> always_rejected (bind m f).
Proof.
  intros Hm w. destruct (Hm w) as (e & He).
  destruct (m w) as [[w1 ev1] o] eqn:E. cbn in He. subst o.
  exists e. rewrite (bind_rejected _ _ _ E). reflexivity.
Qed.

Lemma always_rejected_bind_r {A B} (m : M W A) (f : A -> M W B) :
  (forall a, always_rejected (f a)) -> always_rejected (bind m f).
Proof.
  intros Hf w. destruct (m w) as [[w1 ev1] [a | e]] eqn:E.
  - destruct (Hf a w1) as (e & He). exists e.
    rewrite (bind_resolved _ _ _ E). exact He.
  - exists e. rewrite (bind_rejected _ _ _ E). reflexivity.
Qed.

Lemma upload_without_file_rejected (p : Project) :
  source_path p = None -> always_rejected (deployFromUpload env p).
Proof.
  intros Hsrc. unfold deployFromUpload. rewrite Hsrc.
  apply always_rejected_bind_r. intros _.
  apply always_rejected_bind_r. intros _.
  intros w. exists path_arg_null. reflexivity.
Qed.

Lemma upload_without_file_emits_shell (p : Project) :
  source_path p = None -> emits shell (deployFromUpload env p).
Proof. intros Hsrc. unfold deployFromUpload. rewrite Hsrc. emits_steps. Qed.

(** A step that emits events in [P], put in front of a computation that
    emits events in [P] and then, exactly when it resolves, releases the
    session, gives such a computation. *)
Lemma release_last {A B} (P : Event -> Prop) (m : M W A) (f : A -> M W B) :
  emits P m ->
  (forall a w, exists mid,
      events (f a w)
      = (mid ++ match outcome (f a w) with Resolved _ => [Dispose] | Rejected _ => [] end)%list
      /\ Forall P mid) ->
  forall w, exists mid,
    events (bind m f w)
    = (mid ++ match outcome (bind m f w) with
              | Resolved _ => [Dispose] | Rejected _ => [] end)%list
    /\ Forall P mid.
Proof.
  intros Hm Hf w. specialize (Hm w).
  destruct (m w) as [[w1 ev1] [a | e]] eqn:E.
  - rewrite (bind_resolved _ _ _ E). cbn [events outcome fst snd] in *.
    destruct (Hf a w1) as (mid & Hev & Hmid).
    exists (ev1 ++ mid)%list. split.
    + rewrite Hev at 1. apply app_assoc.
    + apply Forall_app. split; assumption.
  - rewrite (bind_rejected _ _ _ E). cbn [events outcome fst snd] in *.
    exists ev1. split; [ symmetry; apply app_nil_r | exact Hm ].
Qed.

(** The shape of every run of [deploy]: the heading, the connection
    attempt, work in [P], and the release as the very last event. *)
Lemma deploy_shape (P : Event -> Prop) (p : Project) (w : W) :
  (forall e, shell e -> P e) ->
  emits P (if source_type p =? "github" then deployFromGitHub env p
           else if source_type p =? "upload" then deployFromUpload env p
                else ret tt) ->
  exists middle,
    events (deploy env p w)
    = (ConsoleLog ("Starting deployment for project: " ++ name p)
         :: Connect (connect_config (server p)) :: middle ++ [Dispose])%list
    /\ Forall P middle.
Proof.
  intros HP Hacq.
  assert (Htail : forall (u : unit) w0, exists mid,
    events ((createBackup env p;;
             (if source_type p =? "github" then deployFromGitHub env p
              else if source_type p =? "upload" then deployFromUpload env p
                   else ret tt);;
             executeProjectTypeCommands env p;;
             (if Js.truthy (custom_commands p)
              then executeCustomCommands env p else ret tt);;
             console_log ("Deployment completed for project: " ++ name p);;
             dispose env;; ret true)%js w0)
    = (mid ++ match outcome ((createBackup env p;;
             (if source_type p =? "github" then deployFromGitHub env p
              else if source_type p =? "upload" then deployFromUpload env p
                   else ret tt);;
             executeProjectTypeCommands env p;;
             (if Js.truthy (custom_commands p)
              then executeCustomCommands env p else ret tt);;
             console_log ("Deployment completed for project: " ++ name p);;
             dispose env;; ret true)%js w0)
              with Resolved _ => [Dispose] | Rejected _ => [] end)%list
    /\ Forall P mid).
  { intros _.
    apply release_last;
      [ eapply emits_weaken; [ exact HP | apply createBackup_emits_shell ] | intros _ ].
    apply release_last; [ exact Hacq | intros _ ].
    apply release_last;
      [ eapply emits_weaken; [ exact HP | apply build_emits_shell ] | intros _ ].
    apply release_last;
      [ eapply emits_weaken; [ exact HP | apply guarded_custom_emits_shell ] | intros _ ].
    apply release_last; [ apply emits_log, HP; reflexivity | intros _ ].
    intros w0. exists []. split; [ reflexivity | constructor ]. }
  unfold deploy, connectSSH.
  destruct (ssh_connect env (connect_config (server p)) w) as [w1 [msg | ]] eqn:Hc.
  - exists [ConsoleError ("Deployment failed for project " ++ name p ++ ":")
                         (Some (SessionFailure msg))].
    split; [ | repeat constructor; apply HP; reflexivity ].
    match goal with
    | |- events ?r = _ =>
        let H := fresh "Hrun" in
        eassert (H : r = _) by run_deep; rewrite H; reflexivity
    end.
  - destruct (Htail tt w1) as (mid & Hev & Hmid).
    match type of Hev with
    | events (?t w1) = _ => destruct (t w1) as [[w2 ev2] [b | e]] eqn:Ht
    end; cbn [events outcome fst snd] in Hev; subst ev2.
    + exists (ConsoleLog "SSH connection established" :: mid). split.
      * match goal with
        | |- events ?r = _ =>
            let H := fresh "Hrun" in
            eassert (H : r = _)
              by (eapply run_try_ok;
                  eapply run_bind_ok; [ apply run_log | ];
                  eapply run_bind_ok; [ run_deep | exact Ht ]);
            rewrite H; reflexivity
        end.
      * constructor; [ apply HP; reflexivity | exact Hmid ].
    + exists (ConsoleLog "SSH connection established"
                :: mid ++ [ConsoleError ("Deployment failed for project " ++ name p ++ ":")
                                        (Some e)])%list.
      split.
      * match goal with
        | |- events ?r = _ =>
            let H := fresh "Hrun" in
            eassert (H : r = _)
              by (eapply run_try_err;
                  [ eapply run_bind_ok; [ apply run_log | ];
                    eapply run_bind_ok; [ run_deep | exact Ht ]
                  | run_deep ]);
            rewrite H; cbn [events fst snd app]
        end.
        rewrite app_nil_r, <- app_assoc. reflexivity.
      * constructor; [ apply HP; reflexivity | ].
        apply Forall_app. split; [ exact Hmid | ].
        repeat constructor. apply HP. reflexivity.
Qed.

End Emitting.

(** X10: every run of [deploy] is bracketed by the session: after its
    heading the first event is the connection attempt, with the
    configuration derived from the server row; the last event is the
    release; between the two there is neither a connection nor a
    release, only commands, transfers and console lines. *)
Theorem deploy_session_bracket {W} (env : Env W) (p : Project) (w : W) :
  exists middle,
    events (deploy env p w)
    = (ConsoleLog ("Starting deployment for project: " ++ name p)
         :: Connect (connect_config (server p)) :: middle ++ [Dispose])%list
    /\ Forall (fun e => is_work e = true) middle.
Proof.
  apply (deploy_shape env (P := work) p w).
  - exact shell_is_work.
  - apply acquisition_emits_work.
Qed.

Lemma upload_without_file_never_deploys {W} (env : Env W) (p : Project) (w : W) :
  source_type p = "upload" ->
  source_path p = None ->
  exists e, outcome (deploy env p w) = Rejected e.
Proof.
  intros Hmode Hsrc.
  assert (Hu : (source_type p =? "upload") = true) by (rewrite Hmode; reflexivity).
  assert (Hg : (source_type p =? "github") = false) by (rewrite Hmode; reflexivity).
  unfold deploy. rewrite Hg, Hu.
  match goal with
  | |- exists e, outcome (try_catch ?m ?h w) = _ =>
      assert (Hm : always_rejected m);
      [ | destruct (Hm w) as (e & He);
          destruct (m w) as [[w1 ev1] o] eqn:E; cbn in He; subst o;
          exists e; rewrite (try_rejected _ _ _ E); reflexivity ]
  end.
  apply always_rejected_bind_r. intros _.
  apply always_rejected_bind_r. intros _.
  apply always_rejected_bind_r. intros _.
  apply always_rejected_bind_l. apply upload_without_file_rejected, Hsrc.
Qed.

(** X11: an upload-mode project whose [source_path] is null never
    deploys: on every host the run ends rejected, and no file is ever
    transferred. *)
Theorem deploy_upload_without_file_fails {W} (env : Env W) (p : Project) (w : W) :
  source_type p = "upload" ->
  source_path p = None ->
  (exists e, outcome (deploy env p w) = Rejected e)
  /\ forall localFile remoteFile,
      ~ In (PutFile localFile remoteFile) (events (deploy env p w)).
Proof.
  intros Hmode Hsrc.
  assert (Hu : (source_type p =? "upload") = true) by (rewrite Hmode; reflexivity).
  assert (Hg : (source_type p =? "github") = false) by (rewrite Hmode; reflexivity).
  split.
  - apply upload_without_file_never_deploys; assumption.
  - intros l r Hin.
    destruct (deploy_shape env (P := shell) p w (fun e He => He)) as (middle & Hev & Hmid).
    { rewrite Hg, Hu. apply upload_without_file_emits_shell, Hsrc. }
    rewrite Hev in Hin. destruct Hin as [Hin | [Hin | Hin]]; try discriminate.
    apply in_app_or in Hin. destruct Hin as [Hin | [Hin | []]]; try discriminate.
    rewrite Forall_forall in Hmid. specialize (Hmid _ Hin). discriminate.
Qed.

(** An upload project without a file, on a host where everything
    succeeds. *)
Lemma deploy_upload_without_file_fails_witness :
  exists e,
    outcome (deploy Hosts.quiet
                    {| name := "docs"; project_type := "static"; source_type := "upload";
                       source_url := None; source_path := None;
                       deploy_path := "/var/www/html"; custom_commands := None;
                       server := Hosts.server_key |} tt)
    = Rejected e.
Proof.
  apply (deploy_upload_without_file_fails Hosts.quiet
           {| name := "docs"; project_type := "static"; source_type := "upload";
              source_url := None; source_path := None;
              deploy_path := "/var/www/html"; custom_commands := None;
              server := Hosts.server_key |} tt eq_refl eq_refl).
Defined.

(** X12: upload mode never looks at an exit status: with a file, once
    the session calls come back the acquisition resolves, whatever the
    extraction (or any other command) returned. *)
Theorem deployFromUpload_ignores_exit_status {W} (env : Env W) (p : Project)
        (sourcePath : string) (w : W) :
  source_path p = Some sourcePath ->
  exec_returns env ->
  put_returns env ->
  outcome (deployFromUpload env p w) = Resolved tt.
Proof.
  intros Hsrc Hexec Hput.
  assert (Hres : resolves (fun _ : unit => True) (deployFromUpload env p)).
  { unfold deployFromUpload. rewrite Hsrc.
    apply resolves_bind; [ apply resolves_log; exact I | intros _ ].
    apply resolves_bind; [ apply resolves_exec, Hexec | intros _ ].
    apply resolves_bind.
    { intros w0.
      destruct (Hput sourcePath ("/tmp/" ++ Path.basename sourcePath) w0) as (w1 & E).
      exists w1, [PutFile sourcePath ("/tmp/" ++ Path.basename sourcePath)], tt.
      split; [ apply run_put_ok, E | exact I ]. }
    intros _.
    apply resolves_bind; [ apply resolves_exec, Hexec | intros _ ].
    apply resolves_bind; [ apply resolves_exec, Hexec | intros _ ].
    apply resolves_log. exact I. }
  destruct (Hres w) as (w1 & evs & [] & E & _). rewrite E. reflexivity.
Qed.

(** A zip upload to a host where every command exits with status 1. *)
Lemma deployFromUpload_ignores_exit_status_witness :
  outcome (deployFromUpload Hosts.broken Hosts.site2 tt) = Resolved tt.
Proof.
  apply (deployFromUpload_ignores_exit_status (env := Hosts.broken) Hosts.site2
           (sourcePath := "/srv/uploads/17-3-bundle.zip") tt eq_refl).
  - intros command cwd w. exists w, (Hosts.failed_result 1 "failed"). reflexivity.
  - intros l r w. exists w. reflexivity.
Defined.

(** ** The loop over the custom commands *)
Section Loop.

Context {W : Type} (env : Env W).

Lemma bind_assoc {A B C} (m : M W A) (f : A -> M W B) (g : B -> M W C) w :
  bind (bind m f) g w = bind m (fun a => bind (f a) g) w.
Proof.
  unfold bind. destruct (m w) as [[w1 ev1] [a | e]]; [ | reflexivity ].
  destruct (f a w1) as [[w2 ev2] [b | e]]; [ | reflexivity ].
  destruct (g b w2) as [[w3 ev3] o]. rewrite app_assoc. reflexivity.
Qed.

(** Running a list of commands is running its parts one after the
    other. *)
Lemma forCommands_app path (a b : list string) w :
  forCommands env path (a ++ b) w
  = bind (forCommands env path a) (fun _ => forCommands env path b) w.
Proof.
  revert w. induction a as [| c rest IH]; intros w; cbn [app forCommands].
  - rewrite bind_ret_l. reflexivity.
  - rewrite bind_assoc. apply bind_ext. intros _ w0. apply IH.
Qed.

End Loop.

(** X13: a custom command whose call is rejected (as opposed to one
    that comes back with a non-zero status) stops the loop: the commands
    before it have run, the commands after it never do, and the runner
    is rejected with that failure. *)
Theorem custom_command_rejection_stops_the_loop {W} (env : Env W) (path : string)
        (before after : list string) (c : string) (w w0 w1 : W)
        (ev0 : list Event) (msg : string) :
  forCommands env path before w = (w0, ev0, Resolved tt) ->
  ssh_execCommand env c (Some path) w0 = (w1, inr msg) ->
  forCommands env path (before ++ c :: after) w
  = (w1,
     (ev0 ++ [ConsoleLog ("Executing: " ++ c); ExecCommand c (Some path)])%list,
     Rejected (SessionFailure msg)).
Proof.
  intros Hbefore Hexec. rewrite forCommands_app.
  eapply run_bind_ok; [ exact Hbefore | ].
  cbn [forCommands]. unfold runCommand. run_deep_eq.
Qed.

(** [echo one] runs, the call of [exit 1] is refused, [echo two] never
    runs. *)
Lemma custom_command_rejection_stops_the_loop_witness :
  forCommands
    (Hosts.scripted (fun command => if command =? "exit 1" then inr "channel closed"
                                    else inl (Hosts.ok_result ""))
                    None None)
    "/srv/app" (["echo one"] ++ "exit 1" :: ["echo two"]) tt
  = (tt,
     ([ConsoleLog "Executing: echo one"; ExecCommand "echo one" (Some "/srv/app");
       ConsoleLog "Command output: "]
        ++ [ConsoleLog "Executing: exit 1"; ExecCommand "exit 1" (Some "/srv/app")])%list,
     Rejected (SessionFailure "channel closed")).
Proof.
  apply (custom_command_rejection_stops_the_loop
           (Hosts.scripted (fun command => if command =? "exit 1" then inr "channel closed"
                                           else inl (Hosts.ok_result ""))
                           None None)
           "/srv/app" ["echo one"] ["echo two"] "exit 1" tt (w0 := tt) (w1 := tt));
    reflexivity.
Defined.

(** ** The list of custom commands *)
Section CommandLines.

Lemma split_not_nil (sep : ascii) (s : string) : Js.split sep s <> [].
Proof.
  destruct s as [| c rest]; cbn; [discriminate | ].
  destruct (Ascii.eqb c sep); [discriminate | ].
  destruct (Js.split sep rest); discriminate.
Qed.

Lemma split_join (sep : ascii) (a b : string) :
  Js.split sep (a ++ String sep b) = (Js.split sep a ++ Js.split sep b)%list.
Proof.
  induction a as [| c rest IH]; cbn [String.append Js.split].
  - rewrite Ascii.eqb_refl. reflexivity.
  - destruct (Ascii.eqb c sep).
    + rewrite IH. reflexivity.
    + rewrite IH. pose proof (split_not_nil sep rest) as Hne.
      destruct (Js.split sep rest) as [| l ls]; [contradiction | reflexivity].
Qed.

Lemma split_pieces_have_no_separator (sep : ascii) (s piece : string) :
  In piece (Js.split sep s) -> forall n, String.get n piece <> Some sep.
Proof.
  revert piece. induction s as [| c rest IH]; intros piece Hin n; cbn [Js.split] in Hin.
  - destruct Hin as [<- | []]. destruct n; discriminate.
  - destruct (Ascii.eqb_spec c sep) as [-> | Hc].
    + destruct Hin as [<- | Hin]; [destruct n; discriminate | apply (IH _ Hin)].
    + pose proof (split_not_nil sep rest) as Hne.
      destruct (Js.split sep rest) as [| l ls] eqn:E; [contradiction | ].
      destruct Hin as [<- | Hin].
      * destruct n as [| n]; cbn.
        -- intros H. injection H as H. contradiction.
        -- apply (IH l (or_introl eq_refl)).
      * apply (IH piece (or_intror Hin)).
Qed.

Lemma split_one_piece (sep : ascii) (s : string) :
  (forall n, String.get n s <> Some sep) -> Js.split sep s = [s].
Proof.
  induction s as [| c rest IH]; intros H; cbn [Js.split]; [reflexivity | ].
  destruct (Ascii.eqb_spec c sep) as [-> | Hc].
  - exfalso. apply (H 0). reflexivity.
  - rewrite IH; [reflexivity | ]. intros n. apply (H (S n)).
Qed.

End CommandLines.

(** X14: the command list of two texts joined by a newline is the
    command list of the first followed by the command list of the
    second; so an empty or blank line added anywhere changes nothing. *)
Theorem command_lines_join (a b : string) :
  command_lines (a ++ String newline b) = (command_lines a ++ command_lines b)%list
  /\ (Js.all_ws b = true ->
      command_lines (a ++ String newline b) = command_lines a)
  /\ (Js.all_ws a = true ->
      command_lines (a ++ String newline b) = command_lines b).
Proof.
  assert (H : command_lines (a ++ String newline b)
              = (command_lines a ++ command_lines b)%list).
  { unfold command_lines. rewrite split_join, filter_app. reflexivity. }
  split; [exact H | split; intros Hws; rewrite H, (command_lines_blank _ Hws)].
  - apply app_nil_r.
  - reflexivity.
Qed.

(** X15: every command the runner is given is part of one line of the
    field: it holds no newline, and it is not blank (so never empty); it
    is not trimmed, though.  A field of a single non-blank line is one
    command, the field itself. *)
Theorem command_lines_are_lines (text : string) :
  (forall c, In c (command_lines text) ->
             (forall n, String.get n c <> Some newline)
             /\ Js.all_ws c = false /\ c <> "")
  /\ ((forall n, String.get n text <> Some newline) ->
      Js.all_ws text = false ->
      command_lines text = [text]).
Proof.
  split.
  - intros c Hin. rewrite command_lines_spec in Hin. apply filter_In in Hin.
    destruct Hin as [Hin Hnb]. apply negb_true_iff in Hnb.
    split; [ eapply split_pieces_have_no_separator; exact Hin | ].
    split; [ exact Hnb | ]. intros ->. discriminate.
  - intros Hnl Hnb. rewrite command_lines_spec, split_one_piece by exact Hnl.
    cbn. rewrite Hnb. reflexivity.
Qed.

(** A line that starts with blanks is kept as it is. *)
Lemma command_lines_are_lines_witness :
  command_lines "  npm run build" = ["  npm run build"].
Proof.
  destruct (command_lines_are_lines "  npm run build") as (_ & H).
  apply H; [ | reflexivity ].
  intros n. do 16 (destruct n as [| n]; [discriminate | ]). destruct n; discriminate.
Defined.

(** * The routes *)

(** ** Server rows and their credentials *)
Section ServerRows.

Lemma or_nullable_truthy (body old : option string) :
  Js.truthy old = true -> Js.truthy (or_nullable body old) = true.
Proof.
  intros H. unfold or_nullable. destruct (Js.truthy body) eqn:E; assumption.
Qed.

Lemma or_nullable_idempotent (body old : option string) :
  or_nullable body (or_nullable body old) = or_nullable body old.
Proof. unfold or_nullable. destruct (Js.truthy body); reflexivity. Qed.

Lemma or_string_idempotent (body : option string) (old : string) :
  or_string body (or_string body old) = or_string body old.
Proof.
  unfold or_string. destruct body as [s | ]; [ | reflexivity ].
  destruct (s =? ""); reflexivity.
Qed.

Lemma or_number_idempotent (body : option Z) (old : Z) :
  or_number body (or_number body old) = or_number body old.
Proof.
  unfold or_number. destruct body as [z | ]; [ | reflexivity ].
  destruct (z =? 0)%Z; reflexivity.
Qed.

(** A row with a credential gets a configuration with exactly one. *)
Lemma one_credential_selected (s : Server) :
  Js.truthy (ssh_password s) || Js.truthy (ssh_private_key s) = true ->
  (Js.truthy (password (connect_config s)) = true
   /\ privateKey (connect_config s) = None)
  \/ (password (connect_config s) = None
      /\ Js.truthy (privateKey (connect_config s)) = true).
Proof.
  unfold connect_config.
  destruct (Js.truthy (ssh_password s)) eqn:Hp; cbn.
  - intros _. left. split; [exact Hp | reflexivity].
  - intros Hk. rewrite Hk. cbn. right. split; [reflexivity | exact Hk].
Qed.

Lemma updates_keep_a_credential (updates : list ServerBody) (row : ServerRow) :
  Js.truthy (ssh_password (srv_access row))
  || Js.truthy (ssh_private_key (srv_access row)) = true ->
  Js.truthy (ssh_password
               (srv_access (fold_left (fun r b => updated_server b r) updates row)))
  || Js.truthy (ssh_private_key
                  (srv_access (fold_left (fun r b => updated_server b r) updates row)))
  = true.
Proof.
  revert row. induction updates as [| b rest IH]; intros row H; [exact H | ].
  cbn [fold_left]. apply IH. cbn.
  apply orb_true_iff in H. apply orb_true_iff.
  destruct H as [H | H]; [left | right]; apply or_nullable_truthy, H.
Qed.

Lemma updates_keep_the_password (updates : list ServerBody) (row : ServerRow) :
  Js.truthy (ssh_password (srv_access row)) = true ->
  Js.truthy (ssh_password
               (srv_access (fold_left (fun r b => updated_server b r) updates row)))
  = true.
Proof.
  revert row. induction updates as [| b rest IH]; intros row H; [exact H | ].
  cbn [fold_left]. apply IH. cbn. apply or_nullable_truthy, H.
Qed.

End ServerRows.

(** X16: a server row that [POST /servers] accepted, after any number
    of [PUT /servers/:id] updates, still carries a credential, and the
    configuration [connectSSH] derives from it carries exactly one:
    either a non-empty password and no key, or no password and a
    non-empty key. *)
Theorem server_rows_keep_one_credential (b : ServerBody) (row : ServerRow)
        (updates : list ServerBody) :
  created_server b = Some row ->
  let final := fold_left (fun r u => updated_server u r) updates row in
  (Js.truthy (password (connect_config (srv_access final))) = true
   /\ privateKey (connect_config (srv_access final)) = None)
  \/ (password (connect_config (srv_access final)) = None
      /\ Js.truthy (privateKey (connect_config (srv_access final))) = true).
Proof.
  intros Hc final. apply one_credential_selected.
  apply updates_keep_a_credential.
  unfold created_server in Hc.
  destruct (create_server_check (sb_name b) (sb_ip_address b) (sb_ssh_username b)
                                (sb_ssh_password b) (sb_ssh_private_key b)) eqn:Hchk;
    [discriminate | ].
  injection Hc as <-. cbn.
  destruct (create_server_requires_credential (sb_name b) (sb_ip_address b)
              (sb_ssh_username b) (sb_ssh_password b) (sb_ssh_private_key b))
    as [_ H].
  apply orb_true_iff, H, Hchk.
Qed.

(** X17: the update route cannot take a password away: once a row has
    one, after any updates the service still authenticates by password,
    and a private key sent in an update is stored but never used. *)
Theorem updates_cannot_drop_the_password (row : ServerRow)
        (updates : list ServerBody) (b : ServerBody) :
  Js.truthy (ssh_password (srv_access row)) = true ->
  let final := fold_left (fun r u => updated_server u r) updates row in
  Js.truthy (password (connect_config (srv_access final))) = true
  /\ privateKey (connect_config (srv_access final)) = None
  /\ (Js.truthy (sb_ssh_private_key b) = true ->
      ssh_private_key (srv_access (updated_server b final)) = sb_ssh_private_key b
      /\ privateKey (connect_config (srv_access (updated_server b final))) = None).
Proof.
  intros Hp final.
  assert (Hf : Js.truthy (ssh_password (srv_access final)) = true)
    by apply updates_keep_the_password, Hp.
  assert (Hsel : forall s, Js.truthy (ssh_password s) = true ->
                   Js.truthy (password (connect_config s)) = true
                   /\ privateKey (connect_config s) = None).
  { intros s H. unfold connect_config. rewrite H. cbn. split; [exact H | reflexivity]. }
  destruct (Hsel _ Hf) as [H1 H2]. split; [exact H1 | split; [exact H2 | ] ].
  intros Hk. split.
  - cbn. unfold or_nullable. rewrite Hk. reflexivity.
  - apply Hsel. cbn. apply or_nullable_truthy, Hf.
Qed.

(** X18: sending the same update twice is sending it once, and an
    update whose fields are all absent, null, empty or zero changes
    nothing: the route can replace a value, never blank one. *)
Theorem updated_server_is_idempotent (b : ServerBody) (row : ServerRow) :
  updated_server b (updated_server b row) = updated_server b row
  /\ (Js.truthy (sb_name b) = false /\ Js.truthy (sb_ip_address b) = false
      /\ or_number (sb_ssh_port b) 0 = 0%Z
      /\ Js.truthy (sb_ssh_username b) = false
      /\ Js.truthy (sb_ssh_password b) = false
      /\ Js.truthy (sb_ssh_private_key b) = false
      /\ Js.truthy (sb_cpu_info b) = false /\ Js.truthy (sb_ram_info b) = false
      /\ Js.truthy (sb_storage_info b) = false ->
      updated_server b row = row).
Proof.
  split.
  - unfold updated_server. cbn.
    rewrite !or_string_idempotent, !or_nullable_idempotent, or_number_idempotent.
    reflexivity.
  - intros (Hn & Hip & Hport & Hu & Hp & Hk & Hc & Hr & Hs).
    assert (Hstr : forall (f : option string) old,
               Js.truthy f = false -> or_string f old = old).
    { intros [x | ] old H; cbn in *; [ | reflexivity ].
      destruct (x =? ""); [reflexivity | discriminate]. }
    assert (Hnum : or_number (sb_ssh_port b) (ssh_port (srv_access row))
                   = ssh_port (srv_access row)).
    { unfold or_number in *. destruct (sb_ssh_port b) as [z | ]; [ | reflexivity ].
      destruct (z =? 0)%Z eqn:E; [reflexivity | ].
      apply Z.eqb_neq in E. contradiction. }
    destruct row as [n [ip port user pw key] cpu ram sto st lc].
    unfold updated_server, or_nullable. cbn in *.
    rewrite Hp, Hk, Hc, Hr, Hs, Hnum, !Hstr by assumption. reflexivity.
Qed.

(** A body of empty strings and a zero port. *)
Lemma updated_server_is_idempotent_witness :
  updated_server
    {| sb_name := Some ""; sb_ip_address := None; sb_ssh_port := Some 0%Z;
       sb_ssh_username := None; sb_ssh_password := Some "";
       sb_ssh_private_key := None; sb_cpu_info := None; sb_ram_info := None;
       sb_storage_info := None |}
    {| srv_name := "web1"; srv_access := Hosts.server_password;
       srv_cpu_info := None; srv_ram_info := None; srv_storage_info := None;
       srv_status := "online"; srv_last_checked := None |}
  = {| srv_name := "web1"; srv_access := Hosts.server_password;
       srv_cpu_info := None; srv_ram_info := None; srv_storage_info := None;
       srv_status := "online"; srv_last_checked := None |}.
Proof.
  apply updated_server_is_idempotent. repeat split.
Defined.

(** A server created with a key only, then given a password. *)
Lemma server_rows_keep_one_credential_witness :
  Js.truthy
    (password
       (connect_config
          (srv_access
             (fold_left (fun r u => updated_server u r)
                [ {| sb_name := None; sb_ip_address := None; sb_ssh_port := None;
                     sb_ssh_username := None; sb_ssh_password := Some "pw";
                     sb_ssh_private_key := None; sb_cpu_info := None;
                     sb_ram_info := None; sb_storage_info := None |} ]
                {| srv_name := "web1"; srv_access := Hosts.server_key;
                   srv_cpu_info := None; srv_ram_info := None;
                   srv_storage_info := None; srv_status := "offline";
                   srv_last_checked := None |})))) = true.
Proof.
  destruct (server_rows_keep_one_credential
              {| sb_name := Some "web1"; sb_ip_address := Some "10.0.0.5";
                 sb_ssh_port := Some 22%Z; sb_ssh_username := Some "deploy";
                 sb_ssh_password := None; sb_ssh_private_key := Some "KEY";
                 sb_cpu_info := None; sb_ram_info := None; sb_storage_info := None |}
              (row := {| srv_name := "web1"; srv_access := Hosts.server_key;
                         srv_cpu_info := None; srv_ram_info := None;
                         srv_storage_info := None; srv_status := "offline";
                         srv_last_checked := None |})
              [ {| sb_name := None; sb_ip_address := None; sb_ssh_port := None;
                   sb_ssh_username := None; sb_ssh_password := Some "pw";
                   sb_ssh_private_key := None; sb_cpu_info := None;
                   sb_ram_info := None; sb_storage_info := None |} ]
              eq_refl) as [[H _] | [H _]].
  - exact H.
  - discriminate H.
Defined.

(** A row with a password is sent a key. *)
Lemma updates_cannot_drop_the_password_witness :
  privateKey
    (connect_config
       (srv_access
          (updated_server
             {| sb_name := None; sb_ip_address := None; sb_ssh_port := None;
                sb_ssh_username := None; sb_ssh_password := Some "";
                sb_ssh_private_key := Some "NEWKEY"; sb_cpu_info := None;
                sb_ram_info := None; sb_storage_info := None |}
             {| srv_name := "web1"; srv_access := Hosts.server_password;
                srv_cpu_info := None; srv_ram_info := None; srv_storage_info := None;
                srv_status := "online"; srv_last_checked := None |})))
  = None.
Proof.
  destruct (updates_cannot_drop_the_password
              {| srv_name := "web1"; srv_access := Hosts.server_password;
                 srv_cpu_info := None; srv_ram_info := None; srv_storage_info := None;
                 srv_status := "online"; srv_last_checked := None |}
              []
              {| sb_name := None; sb_ip_address := None; sb_ssh_port := None;
                 sb_ssh_username := None; sb_ssh_password := Some "";
                 sb_ssh_private_key := Some "NEWKEY"; sb_cpu_info := None;
                 sb_ram_info := None; sb_storage_info := None |}
              eq_refl) as (_ & _ & H).
  destruct (H eq_refl) as [_ H2]. exact H2.
Defined.

(** ** Project rows *)
Section ProjectRows.

Lemma field_or_string_truthy (f : Field) (old : string) :
  old <> "" -> field_or_string f old <> "".
Proof.
  intros H. destruct f as [ | | s]; cbn; try exact H.
  destruct (String.eqb_spec s ""); assumption.
Qed.

Lemma field_or_string_of_truthy (f : Field) (old : string) :
  field_truthy f = true -> field_or_string f old <> "".
Proof.
  destruct f as [ | | s]; cbn; try discriminate.
  destruct (String.eqb_spec s ""); [discriminate | intros _; assumption].
Qed.

Lemma field_or_nullable_truthy (f : Field) (old : option string) :
  Js.truthy old = true -> Js.truthy (field_or_nullable f old) = true.
Proof.
  intros H. unfold field_or_nullable. destruct f as [ | | s]; cbn; try exact H.
  destruct (s =? "") eqn:E; cbn; [exact H | rewrite E; reflexivity].
Qed.

(** What [POST /projects] hands to [Project.create]. *)
Lemma created_project_fields (b : ProjectBody) (found : option Server)
      (row : ProjectRow) :
  create_project b found = inr row ->
  source_path (prj row) = None
  /\ name (prj row) <> ""
  /\ source_type (prj row) <> ""
  /\ deploy_path (prj row) <> ""
  /\ prj_status row = "inactive"
  /\ (source_type (prj row) = "github" -> Js.truthy (source_url (prj row)) = true).
Proof.
  unfold create_project.
  destruct (field_truthy (pb_name b)) eqn:Hn; [ | discriminate ].
  destruct (field_truthy (pb_project_type b)) eqn:Ht; [ | discriminate ].
  destruct (field_truthy (pb_source_type b)) eqn:Hs; [ | discriminate ].
  destruct (pb_server_id b) as [z | ]; [ | discriminate ].
  destruct (z =? 0)%Z; [discriminate | ]. cbn [negb orb].
  destruct ((field_or_string (pb_source_type b) "" =? "github")
            && negb (field_truthy (pb_source_url b))) eqn:Hg; [discriminate | ].
  destruct found as [srv | ]; [ | discriminate ].
  intros H. injection H as <-. cbn.
  repeat split; try (apply field_or_string_of_truthy; assumption).
  - apply field_or_string_truthy. discriminate.
  - intros Hgh. rewrite Hgh in Hg. cbn in Hg.
    destruct (pb_source_url b) as [ | | u]; cbn in *; try discriminate.
    destruct (u =? ""); [discriminate | reflexivity].
Qed.

Lemma updates_keep_the_url (updates : list ProjectBody) (row : ProjectRow) :
  Js.truthy (source_url (prj row)) = true ->
  Js.truthy (source_url
               (prj (fold_left (fun r u => updated_project u r) updates row))) = true.
Proof.
  revert row. induction updates as [| u rest IH]; intros row H; [exact H | ].
  cbn [fold_left]. apply IH. cbn. apply field_or_nullable_truthy, H.
Qed.

Lemma updates_keep_the_source (updates : list ProjectBody) (row : ProjectRow) :
  source_type (prj (fold_left (fun r u => updated_project u r) updates row))
  = source_type (prj row)
  /\ source_path (prj (fold_left (fun r u => updated_project u r) updates row))
     = source_path (prj row)
  /\ server (prj (fold_left (fun r u => updated_project u r) updates row))
     = server (prj row).
Proof.
  revert row. induction updates as [| u rest IH]; intros row; [repeat split | ].
  cbn [fold_left]. destruct (IH (updated_project u row)) as (H1 & H2 & H3).
  rewrite H1, H2, H3. repeat split.
Qed.

End ProjectRows.

(** X19: [POST /projects] asks for a URL in github mode only: it accepts
    the source type [upload] without any file, the row it creates has no
    [source_path], no update ever gives it one, and every deployment of
    such a project is rejected. *)
Theorem project_created_as_upload_never_deploys {W} (env : Env W)
        (b : ProjectBody) (found : option Server) (row : ProjectRow)
        (updates : list ProjectBody) (w : W) :
  create_project b found = inr row ->
  pb_source_type b = Text "upload" ->
  let final := fold_left (fun r u => updated_project u r) updates row in
  source_path (prj final) = None
  /\ exists e, outcome (deploy env (prj final) w) = Rejected e.
Proof.
  intros Hc Hmode final.
  destruct (created_project_fields _ _ Hc) as (Hsp & _).
  destruct (updates_keep_the_source updates row) as (Hst & Hpath & _).
  fold final in Hst, Hpath.
  assert (Hup : source_type (prj row) = "upload").
  { unfold create_project in Hc. rewrite Hmode in Hc. cbn in Hc.
    destruct (negb (field_truthy (pb_name b)) || negb (field_truthy (pb_project_type b))
              || false
              || match pb_server_id b with Some z => (z =? 0)%Z | None => true end);
      [discriminate | ].
    destruct found; [ | discriminate ]. injection Hc as <-. reflexivity. }
  split; [ rewrite Hpath; exact Hsp | ].
  apply upload_without_file_never_deploys; congruence.
Qed.

(** A body with the source type [upload] and nothing else about the
    source. *)
Lemma project_created_as_upload_never_deploys_witness :
  exists row,
    create_project
      {| pb_name := Text "docs"; pb_project_type := Text "static";
         pb_source_type := Text "upload"; pb_source_url := Undefined;
         pb_server_id := Some 1%Z; pb_deploy_path := Undefined;
         pb_domain := Undefined; pb_custom_commands := Undefined |}
      (Some Hosts.server_key) = inr row
    /\ exists e, outcome (deploy Hosts.quiet (prj row) tt) = Rejected e.
Proof.
  eexists. split; [reflexivity | ].
  destruct (project_created_as_upload_never_deploys Hosts.quiet
              {| pb_name := Text "docs"; pb_project_type := Text "static";
                 pb_source_type := Text "upload"; pb_source_url := Undefined;
                 pb_server_id := Some 1%Z; pb_deploy_path := Undefined;
                 pb_domain := Undefined; pb_custom_commands := Undefined |}
              (Some Hosts.server_key) [] tt eq_refl eq_refl) as (_ & H).
  exact H.
Defined.

(** X20: a project that [POST /projects] created in github mode stays
    in github mode and keeps a non-empty URL through any updates, so the
    clone command never names the repository [null]; its deploy path is
    never empty either. *)
Theorem github_project_keeps_its_url (b : ProjectBody) (found : option Server)
        (row : ProjectRow) (updates : list ProjectBody) :
  create_project b found = inr row ->
  source_type (prj row) = "github" ->
  let final := fold_left (fun r u => updated_project u r) updates row in
  source_type (prj final) = "github"
  /\ (exists url, source_url (prj final) = Some url /\ url <> ""
                  /\ clone_command (prj final)
                     = "cd " ++ deploy_path (prj final) ++ " && git clone " ++ url
                         ++ " " ++ name (prj final)).
Proof.
  intros Hc Hg final.
  destruct (created_project_fields _ _ Hc) as (_ & _ & _ & _ & _ & Hurl).
  destruct (updates_keep_the_source updates row) as (Hst & _).
  fold final in Hst. split; [congruence | ].
  pose proof (updates_keep_the_url updates row (Hurl Hg)) as Hu. fold final in Hu.
  unfold clone_command. destruct (source_url (prj final)) as [url | ]; [ | discriminate ].
  exists url. split; [reflexivity | split; [ | reflexivity ] ].
  intros ->. discriminate.
Qed.

(** A github project whose URL an update tries to blank. *)
Lemma github_project_keeps_its_url_witness :
  exists row,
    create_project
      {| pb_name := Text "app1"; pb_project_type := Text "nodejs";
         pb_source_type := Text "github"; pb_source_url := Text "git@host:org/app1.git";
         pb_server_id := Some 1%Z; pb_deploy_path := Text "/var/www";
         pb_domain := Undefined; pb_custom_commands := Undefined |}
      (Some Hosts.server_password) = inr row
    /\ source_url
         (prj (updated_project
                 {| pb_name := Undefined; pb_project_type := Undefined;
                    pb_source_type := Text "upload"; pb_source_url := Text "";
                    pb_server_id := None; pb_deploy_path := Undefined;
                    pb_domain := Undefined; pb_custom_commands := Undefined |} row))
       = Some "git@host:org/app1.git".
Proof.
  eexists. split; [reflexivity | ].
  destruct (github_project_keeps_its_url
              {| pb_name := Text "app1"; pb_project_type := Text "nodejs";
                 pb_source_type := Text "github";
                 pb_source_url := Text "git@host:org/app1.git";
                 pb_server_id := Some 1%Z; pb_deploy_path := Text "/var/www";
                 pb_domain := Undefined; pb_custom_commands := Undefined |}
              (Some Hosts.server_password)
              [ {| pb_name := Undefined; pb_project_type := Undefined;
                   pb_source_type := Text "upload"; pb_source_url := Text "";
                   pb_server_id := None; pb_deploy_path := Undefined;
                   pb_domain := Undefined; pb_custom_commands := Undefined |} ]
              eq_refl eq_refl) as (_ & url & Hurl & _).
  reflexivity.
Defined.

(** X21: what [PUT /projects/:id] can and cannot do.  It never changes
    the source mode, the uploaded file or the server, and it cannot blank
    the name or the deploy path; but a null or empty [custom_commands]
    switches the custom commands of later deployments off, while an
    absent one leaves them as they are. *)
Theorem updated_project_fields (b : ProjectBody) (row : ProjectRow) :
  source_type (prj (updated_project b row)) = source_type (prj row)
  /\ source_path (prj (updated_project b row)) = source_path (prj row)
  /\ server (prj (updated_project b row)) = server (prj row)
  /\ (name (prj row) <> "" -> name (prj (updated_project b row)) <> "")
  /\ (deploy_path (prj row) <> "" -> deploy_path (prj (updated_project b row)) <> "")
  /\ (pb_custom_commands b = Null \/ pb_custom_commands b = Text "" ->
      Js.truthy (custom_commands (prj (updated_project b row))) = false)
  /\ (pb_custom_commands b = Undefined ->
      custom_commands (prj (updated_project b row)) = custom_commands (prj row))
  /\ (forall text, pb_custom_commands b = Text text ->
      custom_commands (prj (updated_project b row)) = Some text).
Proof.
  repeat split.
  - apply field_or_string_truthy.
  - apply field_or_string_truthy.
  - intros [H | H]; cbn; rewrite H; reflexivity.
  - intros H. cbn. rewrite H. reflexivity.
  - intros text H. cbn. rewrite H. reflexivity.
Qed.

(** A project with commands is sent [custom_commands: null]. *)
Lemma updated_project_fields_witness :
  Js.truthy
    (custom_commands
       (prj (updated_project
               {| pb_name := Text ""; pb_project_type := Undefined;
                  pb_source_type := Undefined; pb_source_url := Undefined;
                  pb_server_id := None; pb_deploy_path := Null;
                  pb_domain := Undefined; pb_custom_commands := Null |}
               {| prj := Hosts.legacy; prj_domain := None; prj_status := "active";
                  prj_server_id := 1; prj_last_deployment := None |}))) = false.
Proof.
  destruct (updated_project_fields
              {| pb_name := Text ""; pb_project_type := Undefined;
                 pb_source_type := Undefined; pb_source_url := Undefined;
                 pb_server_id := None; pb_deploy_path := Null;
                 pb_domain := Undefined; pb_custom_commands := Null |}
              {| prj := Hosts.legacy; prj_domain := None; prj_status := "active";
                 prj_server_id := 1; prj_last_deployment := None |})
    as (_ & _ & _ & _ & _ & H & _).
  apply H. left. reflexivity.
Defined.

(** ** Authentication *)

(** X22: the token the middleware reads is the second space-separated
    word of the [Authorization] header, whatever the first word is: the
    scheme is not checked.  A token never holds a space, and a header of
    one word gives none. *)
Theorem bearer_token_is_the_second_word :
  (forall scheme token,
      (forall n, String.get n scheme <> Some " "%char) ->
      (forall n, String.get n token <> Some " "%char) ->
      bearer_token (Some (scheme ++ String " " token)) = Some token)
  /\ (forall header token,
        bearer_token header = Some token ->
        forall n, String.get n token <> Some " "%char)
  /\ (forall header,
        (forall n, String.get n header <> Some " "%char) ->
        bearer_token (Some header) = None).
Proof.
  split; [ | split ].
  - intros scheme token Hs Ht. unfold bearer_token.
    rewrite split_join, !split_one_piece by assumption. reflexivity.
  - intros [header | ] token H; [ | discriminate ].
    unfold bearer_token in H. apply nth_error_In in H.
    eapply split_pieces_have_no_separator. exact H.
  - intros header H. unfold bearer_token. rewrite split_one_piece by exact H.
    reflexivity.
Qed.

(** A header with the scheme [Basic]. *)
Lemma bearer_token_is_the_second_word_witness :
  bearer_token (Some "Basic abc.def.ghi") = Some "abc.def.ghi".
Proof.
  destruct bearer_token_is_the_second_word as (H & _).
  apply (H "Basic" "abc.def.ghi").
  - intros n. do 5 (destruct n as [| n]; [discriminate | ]). destruct n; discriminate.
  - intros n. do 11 (destruct n as [| n]; [discriminate | ]). destruct n; discriminate.
Defined.

(** X23: the middleware calls [next()] exactly when the header holds a
    non-empty second word that [jwt.verify] accepts and whose payload
    names an existing user; the user attached to the request is that
    row.  Everything else, a failing query included, is answered 401. *)
Theorem authMiddleware_lets_through_iff
        (verify : string -> option Z + string)
        (findByPk : Z -> option User + string)
        (authorization : option string) (id : Z) (uname : string) :
  authMiddleware verify findByPk authorization = Next id uname <->
  exists token key user,
    bearer_token authorization = Some token
    /\ token <> ""
    /\ verify token = inl (Some key)
    /\ findByPk key = inl (Some user)
    /\ id = user_id user /\ uname = user_name user.
Proof.
  unfold authMiddleware. split.
  - destruct (bearer_token authorization) as [token | ] eqn:Hb; cbn; [ | discriminate ].
    destruct (String.eqb_spec token "") as [-> | Hne]; cbn; [discriminate | ].
    destruct (verify token) as [[key | ] | err] eqn:Hv; try discriminate.
    destruct (findByPk key) as [[user | ] | err] eqn:Hf; try discriminate.
    intros H. injection H as <- <-. exists token, key, user. auto 6.
  - intros (token & key & user & Hb & Hne & Hv & Hf & -> & ->).
    rewrite Hb. cbn. apply String.eqb_neq in Hne. rewrite Hne. cbn.
    rewrite Hv, Hf. reflexivity.
Qed.

(** A token of the user 7. *)
Lemma authMiddleware_lets_through_iff_witness :
  authMiddleware (fun token => if token =? "good" then inl (Some 7%Z) else inr "jwt malformed")
                 (fun key => inl (Some {| user_id := key; user_name := "admin" |}))
                 (Some "Bearer good")
  = Next 7 "admin".
Proof.
  apply authMiddleware_lets_through_iff.
  exists "good", 7%Z, {| user_id := 7; user_name := "admin" |}.
  repeat split. discriminate.
Defined.

(** X24: the login route answers an unknown user and a wrong password
    in the same way, 401 [Invalid credentials]; and it hands out a token
    only for an existing user whose password was verified. *)
Theorem login_replies
        (findOne : string -> option User + string)
        (verifyPassword : User -> string -> bool + string)
        (sign : Z -> string -> string + string)
        (uname pword : string) :
  uname <> "" -> pword <> "" ->
  (findOne uname = inl None ->
   login findOne verifyPassword sign (Some uname) (Some pword)
   = LoginFailed 401 "Invalid credentials")
  /\ (forall user,
        findOne uname = inl (Some user) ->
        verifyPassword user pword = inl false ->
        login findOne verifyPassword sign (Some uname) (Some pword)
        = LoginFailed 401 "Invalid credentials")
  /\ (forall token id name_,
        login findOne verifyPassword sign (Some uname) (Some pword)
        = LoggedIn token id name_ ->
        exists user,
          findOne uname = inl (Some user)
          /\ verifyPassword user pword = inl true
          /\ sign (user_id user) (user_name user) = inl token
          /\ id = user_id user /\ name_ = user_name user).
Proof.
  intros Hu Hp. apply String.eqb_neq in Hu, Hp.
  unfold login. cbn. rewrite Hu, Hp. cbn.
  split; [ | split ].
  - intros H. rewrite H. reflexivity.
  - intros user Hf Hv. rewrite Hf, Hv. reflexivity.
  - intros token id name_.
    destruct (findOne uname) as [[user | ] | err]; try discriminate.
    destruct (verifyPassword user pword) as [[ | ] | err] eqn:Hv; try discriminate.
    destruct (sign (user_id user) (user_name user)) as [tok | err] eqn:Hs;
      try discriminate.
    intros H. injection H as <- <- <-. exists user. repeat split; assumption.
Qed.

(** No user at all. *)
Lemma login_replies_witness :
  login (fun _ => inl None) (fun _ _ => inl true) (fun _ _ => inl "t")
        (Some "admin") (Some "admin123")
  = LoginFailed 401 "Invalid credentials".
Proof.
  destruct (login_replies (fun _ => inl None) (fun _ _ => inl true)
                          (fun _ _ => inl "t") (uname := "admin") (pword := "admin123"))
    as (H & _); [discriminate | discriminate | ].
  apply H. reflexivity.
Defined.

(** * The routes that drive a session *)

Ltac route_case x :=
  lazymatch x with
  | context [match _ with _ => _ end] => fail
  | _ => destruct x eqn:?; cbn in *
  end.

Ltac route_cases :=
  repeat match goal with
  | H : (_, _) = (_, _) |- _ => inversion H; subst; clear H
  | H : context [match ?x with _ => _ end] |- _ => route_case x
  | |- context [match ?x with _ => _ end] => route_case x
  end.

Section TestRoute.

Context {W : Type} (env : Env W) (db : Db W).

(** X25.  Whenever the test route gets to its answer, it answers once,
    last of all; with 404 it has not touched the session, and with any
    other status it has released the session exactly once, after its
    last call on it. *)
Theorem test_route_answers_and_releases (id : Z) (w : W) :
  route_outcome (test_route env db id w) = Done tt ->
  exists before status message data,
    route_events (test_route env db id w)
    = (before ++ [Respond status message data])%list
    /\ answers before = []
    /\ ((status = 404%Z /\ service_events before = [])
        \/ (status <> 404%Z
            /\ exists calls,
                 service_events before = (calls ++ [Dispose])%list
                 /\ dispose_count calls = 0)).
Proof.
  unfold test_route, rtry, rbind, lift, find_server, update_server, new_date,
    respond, route_error, rret, connect, execCommand, dispose,
    route_outcome, route_events.
  cbn. intros H. route_cases; try discriminate.
  all: match goal with
       | |- exists before status message data, ?l = _ /\ _ =>
           exists (removelast l); do 3 eexists;
           split; [ cbn; reflexivity | split; [ reflexivity | ] ]
       end.
  all: first
         [ left; split; reflexivity
         | right; split;
           [ lia
           | match goal with
             | |- exists calls, ?s = _ /\ _ =>
                 exists (removelast s); split; reflexivity
             end ] ].
Qed.

(** X26.  The test route is left without an answer only by a query that
    is rejected while it handles an earlier failure, and then it has not
    released the session either. *)
Theorem test_route_unanswered (id : Z) (w : W) (e : RouteError) :
  route_outcome (test_route env db id w) = Failed e ->
  (exists msg, e = FromDb msg)
  /\ (exists cause,
        In (Logged "SSH connection error:" cause)
           (route_events (test_route env db id w)))
  /\ answers (route_events (test_route env db id w)) = []
  /\ dispose_count (service_events (route_events (test_route env db id w))) = 0.
Proof.
  unfold test_route, rtry, rbind, lift, find_server, update_server, new_date,
    respond, route_error, rret, connect, execCommand, dispose,
    route_outcome, route_events.
  cbn. intros H. route_cases; try discriminate.
  all: inversion H; subst; clear H.
  all: split; [ eexists; reflexivity | ].
  all: split; [ eexists; cbn; tauto | split; reflexivity ].
Qed.

(** X27.  The test route does not look at the exit status of its probe:
    once the connection and the probe have resolved and the row is
    updated, the server is recorded as online and the answer is 200 with
    the probe's standard output, whatever the probe returned. *)
Theorem test_route_ignores_exit_status
        (id : Z) (row : ServerRow) (r : ExecResult) (w w1 w2 w3 w4 : W) :
  server_findByPk db id w = (w1, inl (Some row)) ->
  ssh_connect env (connect_config (srv_access row)) w1 = (w2, None) ->
  ssh_execCommand env "uname -a && uptime" None w2 = (w3, inl r) ->
  server_update db id "online" (date_toISOString env w3) w3 = (w4, None) ->
  test_route env db id w
  = (ssh_dispose env w4,
     [Service (Connect (connect_config (srv_access row)));
      Service (ExecCommand "uname -a && uptime" None);
      UpdateServer id "online" (date_toISOString env w3);
      Service Dispose;
      Respond 200 "Connection successful"
        [("status", "online"); ("systemInfo", stdout r)]],
     Done tt).
Proof.
  intros Hfind Hconn Hexec Hupd.
  unfold test_route, rtry, rbind, lift, find_server, update_server, new_date,
    respond, route_error, rret, connect, execCommand, dispose.
  rewrite Hfind. cbn -[sshConfig].
  change (sshConfig (srv_access row)) with (connect_config (srv_access row)).
  rewrite Hconn. cbn -[connect_config]. rewrite Hexec. cbn -[connect_config].
  rewrite Hupd. reflexivity.
Qed.

(** X28.  A failure of the data base is reported as a failure of the
    connection: when the connection and the probe have resolved and the
    update to online is rejected, the server is recorded as in error and
    the answer is 500, [Connection failed:] with the message of the data
    base. *)
Theorem test_route_blames_the_connection
        (id : Z) (row row' : ServerRow) (r : ExecResult) (msg : string)
        (w w1 w2 w3 w4 w5 w6 : W) :
  server_findByPk db id w = (w1, inl (Some row)) ->
  ssh_connect env (connect_config (srv_access row)) w1 = (w2, None) ->
  ssh_execCommand env "uname -a && uptime" None w2 = (w3, inl r) ->
  server_update db id "online" (date_toISOString env w3) w3 = (w4, Some msg) ->
  server_findByPk db id w4 = (w5, inl (Some row')) ->
  server_update db id "error" (date_toISOString env w5) w5 = (w6, None) ->
  test_route env db id w
  = (ssh_dispose env w6,
     [Service (Connect (connect_config (srv_access row)));
      Service (ExecCommand "uname -a && uptime" None);
      UpdateServer id "online" (date_toISOString env w3);
      Logged "SSH connection error:" (FromDb msg);
      UpdateServer id "error" (date_toISOString env w5);
      Service Dispose;
      Respond 500 ("Connection failed: " ++ msg) []],
     Done tt).
Proof.
  intros Hfind Hconn Hexec Hupd Hfind' Hupd'.
  unfold test_route, rtry, rbind, lift, find_server, update_server, new_date,
    respond, route_error, rret, connect, execCommand, dispose.
  rewrite Hfind. cbn -[sshConfig].
  change (sshConfig (srv_access row)) with (connect_config (srv_access row)).
  rewrite Hconn. cbn -[connect_config]. rewrite Hexec. cbn -[connect_config].
  rewrite Hupd. cbn -[connect_config]. rewrite Hfind'. cbn -[connect_config].
  rewrite Hupd'. reflexivity.
Qed.

End TestRoute.

(** A server that is found and answers. *)
Lemma test_route_answers_and_releases_witness :
  exists before status message data,
    route_events
      (test_route Hosts.quiet (Tables.steady (Some Tables.web1) None) 1 tt)
    = (before ++ [Respond status message data])%list
    /\ answers before = []
    /\ ((status = 404%Z /\ service_events before = [])
        \/ (status <> 404%Z
            /\ exists calls,
                 service_events before = (calls ++ [Dispose])%list
                 /\ dispose_count calls = 0)).
Proof.
  apply (test_route_answers_and_releases Hosts.quiet
           (Tables.steady (Some Tables.web1) None) 1 tt).
  reflexivity.
Defined.

(** A data base that rejects every query: the first rejection is
    handled, the second is not. *)
Lemma test_route_unanswered_witness :
  route_outcome (test_route Hosts.quiet Tables.down 1 tt)
  = Failed (FromDb "SQLITE_BUSY")
  /\ answers (route_events (test_route Hosts.quiet Tables.down 1 tt)) = [].
Proof.
  split; [ reflexivity | ].
  apply (test_route_unanswered Hosts.quiet Tables.down 1 tt
           (e := FromDb "SQLITE_BUSY") eq_refl).
Defined.

(** A host on which every command exits with status 1. *)
Lemma test_route_ignores_exit_status_witness :
  test_route Hosts.broken (Tables.steady (Some Tables.web1) None) 1 tt
  = (tt,
     [Service (Connect (connect_config Hosts.server_key));
      Service (ExecCommand "uname -a && uptime" None);
      UpdateServer 1 "online" "2024-05-06T07:08:09.123Z";
      Service Dispose;
      Respond 200 "Connection successful"
        [("status", "online"); ("systemInfo", "")]],
     Done tt).
Proof.
  apply (test_route_ignores_exit_status Hosts.broken
           (Tables.steady (Some Tables.web1) None) 1
           (row := Tables.web1) (r := Hosts.failed_result 1 "failed")
           tt (w1 := tt) (w2 := tt) (w3 := tt) (w4 := tt));
    reflexivity.
Defined.

(** A data base that rejects the update to online. *)
Lemma test_route_blames_the_connection_witness :
  test_route Hosts.quiet (Tables.refusing "online" (Some Tables.web1) None) 1 tt
  = (tt,
     [Service (Connect (connect_config Hosts.server_key));
      Service (ExecCommand "uname -a && uptime" None);
      UpdateServer 1 "online" "2024-05-06T07:08:09.123Z";
      Logged "SSH connection error:" (FromDb "SQLITE_BUSY");
      UpdateServer 1 "error" "2024-05-06T07:08:09.123Z";
      Service Dispose;
      Respond 500 "Connection failed: SQLITE_BUSY" []],
     Done tt).
Proof.
  apply (test_route_blames_the_connection Hosts.quiet
           (Tables.refusing "online" (Some Tables.web1) None) 1
           (row := Tables.web1) (row' := Tables.web1)
           (r := Hosts.ok_result "") (msg := "SQLITE_BUSY")
           tt (w1 := tt) (w2 := tt) (w3 := tt) (w4 := tt) (w5 := tt) (w6 := tt));
    reflexivity.
Defined.

Section DeployRoute.

Context {W : Type} (env : Env W) (db : Db W).


(** X30.  The job that a started deployment leaves behind writes the
    status of the project only after the deployment has released the
    session.  A rejected deployment is logged and recorded as error,
    and never as active; a resolved one is recorded as active, with the
    time read after it, and when that update is rejected, as error. *)
Theorem deploy_job_records_the_outcome (id : Z) (row : ProjectRow) (w : W) :
  exists calls tail,
    events (deploy env (prj row) w) = (calls ++ [Dispose])%list
    /\ route_events (deploy_job env db id row w)
       = (map Service (calls ++ [Dispose]) ++ tail)%list
    /\ service_events tail = []
    /\ match deploy env (prj row) w with
       | (_, _, Rejected e) =>
           tail = [Logged "Deployment failed:" (FromService e);
                   UpdateProject id "error" None]
       | (w1, _, Resolved _) =>
           let deployed := Some (date_toISOString env w1) in
           tail = [UpdateProject id "active" deployed]
           \/ exists msg,
                tail = [UpdateProject id "active" deployed;
                        Logged "Deployment failed:" (FromDb msg);
                        UpdateProject id "error" None]
       end.
Proof.
  destruct (deploy_shape env (P := fun _ => True) (prj row) w)
    as (middle & Hev & _).
  - intros; exact I.
  - intros w0. apply Forall_forall. intros; exact I.
  - exists (ConsoleLog ("Starting deployment for project: " ++ name (prj row))
              :: Connect (connect_config (server (prj row))) :: middle).
    unfold deploy_job, rtry, rbind, lift, update_project, new_date,
      route_error, rret, route_events.
    destruct (deploy env (prj row) w) as [[w1 evs] [b | e]];
      unfold events in Hev; cbn [fst snd] in Hev; subst evs.
    + destruct (project_update db id "active"
                  (Some (date_toISOString env w1)) w1) as [w2 [msg | ]] eqn:Hact.
      * destruct (project_update db id "error" None w2) as [w3 [msg' | ]] eqn:Herr.
        all: eexists; split; [ reflexivity | ].
        all: cbn [fst snd app]; rewrite ?Hact, ?Herr; cbn [fst snd app].
        all: rewrite ?Hact, ?Herr; cbn [fst snd app].
        all: split; [ rewrite ?app_nil_l, <- ?app_assoc; cbn [app]; reflexivity | ].
        all: split; [ reflexivity | right; eexists; reflexivity ].
      * eexists; split; [ reflexivity | ].
        cbn [fst snd app]. rewrite ?Hact. cbn [fst snd app].
        split; [ reflexivity | ].
        split; [ reflexivity | left; reflexivity ].
    + destruct (project_update db id "error" None w1) as [w3 [msg' | ]] eqn:Herr.
      all: eexists; split; [ reflexivity | ].
      all: cbn [fst snd app]; rewrite ?Herr; cbn [fst snd app].
      all: split; [ reflexivity | ].
      all: split; reflexivity.
Qed.

End DeployRoute.
